(** * The IGA brand-based weekly scraper, embedded and verified

    A shallow embedding of [Scrapping/website_api_scraper/iga_ipa_scraping.py]:
    the string helpers, the JSON parsers, the single HTTP request and its retry
    wrapper, the brand-list loader, the image downloader, the checkpoint
    documents and the brand/page loop of [scrape_weekly_snapshot_by_brands].

    Modelling conventions.
    - A Python [str] is a [string] (a sequence of bytes); whitespace and case
      are the ASCII ones, a byte above 127 is neither a space nor a letter.
    - A value decoded by [json.loads] is a [json]; a missing dictionary key
      reads as [JNull], exactly as [dict.get] answers [None].
    - Python dictionaries that the program owns (brand progress, SKU index)
      are [gmap]s, the seen-set is a [gset].
    - An exception is an explicit constructor of the result type.
    - The wall clock, [str()] of compound values and the image toggle are the
      fields of the class [Runtime]. *)

From Stdlib Require Import ZArith QArith Qminmax Lqa Ascii String DecimalString DecimalPos DecimalZ Floats.
From stdpp Require Import gmap strings list.

Set Warnings "-register-all,-clear-no-such-hyp".

Local Open Scope string_scope.
Local Open Scope Z_scope.

(** ** Strings: [str.strip], [str.lower] and [re.sub(r"\s+", " ", s)] *)

(** [str.isspace] on one ASCII character: TAB, LF, VT, FF, CR, the four
    separators 0x1c-0x1f, and the space. *)
Definition is_space (c : ascii) : bool :=
  let n := nat_of_ascii c in
  ((9 <=? n)%nat && (n <=? 13)%nat) || ((28 <=? n)%nat && (n <=? 32)%nat).

Definition lower_char (c : ascii) : ascii :=
  let n := nat_of_ascii c in
  if ((65 <=? n)%nat && (n <=? 90)%nat) then ascii_of_nat (n + 32) else c.

Definition upper_char (c : ascii) : ascii :=
  let n := nat_of_ascii c in
  if ((97 <=? n)%nat && (n <=? 122)%nat) then ascii_of_nat (n - 32) else c.

Fixpoint lstrip_chars (l : list ascii) : list ascii :=
  match l with
  | [] => []
  | c :: r => if is_space c then lstrip_chars r else l
  end.

Fixpoint rstrip_chars (l : list ascii) : list ascii :=
  match l with
  | [] => []
  | c :: r =>
      match rstrip_chars r with
      | [] => if is_space c then [] else [c]
      | r' => c :: r'
      end
  end.

Definition strip_chars (l : list ascii) : list ascii :=
  rstrip_chars (lstrip_chars l).

(** [re.sub(r"\s+", " ", s)]: every maximal run of whitespace becomes one
    space. [in_run] tells that the previous character was whitespace. *)
Fixpoint collapse_ws (in_run : bool) (l : list ascii) : list ascii :=
  match l with
  | [] => []
  | c :: r =>
      if is_space c
      then (if in_run then collapse_ws true r else " "%char :: collapse_ws true r)
      else c :: collapse_ws false r
  end.

Definition on_chars (f : list ascii -> list ascii) (s : string) : string :=
  string_of_list_ascii (f (list_ascii_of_string s)).

Definition strip (s : string) : string := on_chars strip_chars s.
Definition lower (s : string) : string := on_chars (map lower_char) s.
Definition upper (s : string) : string := on_chars (map upper_char) s.
Definition sub_ws (s : string) : string := on_chars (collapse_ws false) s.

(** [norm_key(s)] for a string [s] ([safe_str] is the identity on strings). *)
Definition norm_key (s : string) : string :=
  sub_ws (lower (strip s)).

(** A string of whitespace only. *)
Definition blank_chars (l : list ascii) : Prop := Forall (fun c => is_space c = true) l.
Definition blank (s : string) : Prop := blank_chars (list_ascii_of_string s).

(** [norm_key] in one pass, for the proofs: leading whitespace is dropped,
    every later run of whitespace that a character follows becomes one
    space, characters are lowered. [pending] tells that a run of whitespace
    was passed since the last character. *)
Fixpoint squeeze_from (pending : bool) (l : list ascii) : list ascii :=
  match l with
  | [] => []
  | c :: r =>
      if is_space c then squeeze_from true r
      else if pending then " "%char :: lower_char c :: squeeze_from false r
           else lower_char c :: squeeze_from false r
  end.

Fixpoint squeeze (l : list ascii) : list ascii :=
  match l with
  | [] => []
  | c :: r => if is_space c then squeeze r else lower_char c :: squeeze_from false r
  end.

(** ** JSON values as [json.loads] builds them *)

Inductive json : Type :=
| JNull
| JBool (b : bool)
| JInt (z : Z)
| JFloat (f : float)
| JStr (s : string)
| JList (l : list json)
| JDict (d : list (string * json)).

(** Python truthiness ([bool(x)]). *)
Definition truthy (v : json) : bool :=
  match v with
  | JNull => false
  | JBool b => b
  | JInt z => negb (z =? 0)
  | JFloat f => negb (PrimFloat.eqb f 0%float)
  | JStr s => negb (String.eqb s "")
  | JList l => match l with [] => false | _ => true end
  | JDict d => match d with [] => false | _ => true end
  end.

(** [a or b]. *)
Definition py_or (a b : json) : json := if truthy a then a else b.

(** [isinstance(x, dict)], [isinstance(x, list)], [isinstance(x, int)]. In
    Python [bool] is a subclass of [int], so both booleans are instances. *)
Definition is_dict (v : json) : bool := match v with JDict _ => true | _ => false end.
Definition is_list (v : json) : bool := match v with JList _ => true | _ => false end.
Definition is_int (v : json) : bool :=
  match v with JInt _ | JBool _ => true | _ => false end.

(** The integer an [int] instance stands for in a comparison. *)
Definition int_value (v : json) : option Z :=
  match v with
  | JInt z => Some z
  | JBool b => Some (if b then 1 else 0)
  | _ => None
  end.

(** [d.get(k)] on the key/value pairs of a dictionary. *)
Fixpoint assoc_get (k : string) (d : list (string * json)) : json :=
  match d with
  | [] => JNull
  | (k', v) :: r => if String.eqb k k' then v else assoc_get k r
  end.

(** The result of an operation that may raise. *)
Inductive raising (A : Type) : Type :=
| Returns (a : A)
| Raises.
Arguments Returns {A} a.
Arguments Raises {A}.

(** [payload.get(k)]: an [AttributeError] when the payload is no dictionary
    (lists, strings and numbers have no [get]). *)
Definition py_get (payload : json) (k : string) : raising json :=
  match payload with
  | JDict d => Returns (assoc_get k d)
  | _ => Raises
  end.

(** [str(n)] for an integer. *)
Definition str_of_Z (z : Z) : string := NilZero.string_of_int (Z.to_int z).

(** What the program reads from its surroundings. The clock is read as one
    value for the whole invocation: nothing below depends on time passing. *)
Class Runtime : Type := {
  (** [str(x)] for a float, a list or a dictionary (their [repr]) *)
  str_compound : json -> string;
  (** [datetime.now().strftime("%Y-%m-%d %H:%M:%S")] *)
  now_ts : string;
  (** [datetime.now().strftime("%Y%m%d_%H%M%S")] *)
  now_stamp : string;
  (** the toggle [DOWNLOAD_IMAGES] *)
  DOWNLOAD_IMAGES : bool;
}.

Section Parsers.
Context {RT : Runtime}.

(** [safe_str(x)]: the empty string for [None], [str(x)] otherwise. *)
Definition safe_str (x : json) : string :=
  match x with
  | JNull => ""
  | JBool true => "True"
  | JBool false => "False"
  | JInt z => str_of_Z z
  | JStr s => s
  | other => str_compound other
  end.

Definition extract_items (payload : json) : raising (list json) :=
  match py_get payload "items" with
  | Raises => Raises
  | Returns items =>
      Returns (match items with
               | JList l => filter (fun x => is_dict x = true) l
               | _ => []
               end)
  end.

(** The result is the Python value returned: [JNull] stands for [None]. *)
Definition extract_total (payload : json) : raising json :=
  match py_get payload "total" with
  | Raises => Raises
  | Returns t => Returns (if is_int t then t else JNull)
  end.

(** Items handed to the next two functions are dictionaries (the elements
    kept by [extract_items]); [item_get] is [item.get(k)] on them. *)
Definition item_get (item : json) (k : string) : json :=
  match item with
  | JDict d => assoc_get k d
  | _ => JNull
  end.

Definition extract_sku_from_item (item : json) : string :=
  strip (safe_str (py_or (py_or (item_get item "sku") (item_get item "productId")) (JStr ""))).

Definition extract_primary_image_url_from_item (item : json) : string :=
  let img := py_or (item_get item "image") (JDict []) in
  if is_dict img
  then safe_str (py_or (py_or (py_or (py_or (item_get img "default")
                                             (item_get img "details"))
                                      (item_get img "cell"))
                               (item_get img "zoom"))
                       (JStr ""))
  else "".

End Parsers.

(** ** The single HTTP request: [request_json] *)

(** The exceptions [session.get] raises, by class. [ConnectTimeout] inherits
    from both [ConnectionError] and [Timeout]. *)
Inductive request_exception : Type :=
| ExcTimeout
| ExcConnectTimeout
| ExcReadTimeout
| ExcConnectionError
| ExcOther.

Definition isa_Timeout (e : request_exception) : bool :=
  match e with ExcTimeout | ExcConnectTimeout | ExcReadTimeout => true | _ => false end.

Definition isa_ConnectionError (e : request_exception) : bool :=
  match e with ExcConnectionError | ExcConnectTimeout => true | _ => false end.

(** What one GET does: it raises, or it answers with a status code and a body
    that [r.json()] parses ([Some]) or rejects ([None]). *)
Inductive http_outcome : Type :=
| GetRaises (e : request_exception)
| GetResponds (status_code : Z) (body : option json).

Definition request_json (o : http_outcome) : json * string :=
  match o with
  | GetResponds status_code body =>
      if status_code =? 429 then (JNull, "RATE_LIMITED_429")
      else if status_code =? 403 then (JNull, "BLOCKED_403")
      else if negb (status_code =? 200) then (JNull, "HTTP_" ++ str_of_Z status_code)
      else match body with
           | Some payload => (payload, "SUCCESS")
           | None => (JNull, "INVALID_JSON")
           end
  | GetRaises e =>
      if isa_Timeout e then (JNull, "TIMEOUT")
      else if isa_ConnectionError e then (JNull, "CONNECTION_ERROR")
      else (JNull, "ERROR_UNKNOWN")
  end.

(** The failure statuses with a fixed name; the others are [HTTP_<code>]. *)
Definition named_failures : list string :=
  ["RATE_LIMITED_429"; "BLOCKED_403"; "INVALID_JSON"; "TIMEOUT"; "CONNECTION_ERROR";
   "ERROR_UNKNOWN"].

(** ** The retry wrapper: [with_retries] *)

Definition MAX_RETRIES : nat := 4.
Definition BACKOFF_BASE_S : Q := 1.

(** The draws of [random.uniform(0.8, 1.6)] and [random.uniform(0, 5)], by
    attempt. Delays are exact rationals here, floats in the source. *)
Record rng : Type := {
  uniform_08_16 : nat -> Q;
  uniform_0_5 : nat -> Q;
}.

Definition backoff_delay (r : rng) (attempt : nat) (status : string) : Q :=
  let delay := ((BACKOFF_BASE_S * (1 + inject_Z (Z.of_nat attempt))) * uniform_08_16 r attempt)%Q in
  if String.eqb status "BLOCKED_403"
  then Qmax delay (10 + uniform_0_5 r attempt)%Q
  else delay.

(** What a call of [with_retries] did: the pair it returned, how many times it
    called [fn], and the delays it slept, in order. *)
Record retried : Type := {
  rt_payload : json;
  rt_status : string;
  rt_calls : nat;
  rt_sleeps : list Q;
}.

(** The [for attempt in range(MAX_RETRIES)] loop; [fn k] is what the [k]-th
    call of the closure returns. *)
Fixpoint retry_loop (fn : nat -> json * string) (r : rng)
    (attempt todo : nat) (last : json * string) (sleeps : list Q) : retried :=
  match todo with
  | O => {| rt_payload := fst last; rt_status := snd last;
            rt_calls := attempt; rt_sleeps := sleeps |}
  | S todo' =>
      let '(payload, status) := fn attempt in
      if String.eqb status "SUCCESS"
      then {| rt_payload := payload; rt_status := status;
              rt_calls := S attempt; rt_sleeps := sleeps |}
      else retry_loop fn r (S attempt) todo' (payload, status)
             (sleeps ++ [backoff_delay r attempt status])
  end.

Definition with_retries (fn : nat -> json * string) (r : rng) : retried :=
  retry_loop fn r 0 MAX_RETRIES (JNull, "UNKNOWN") [].

(** The delays slept after the failed attempts [from .. from + n - 1]. *)
Definition delays (fn : nat -> json * string) (r : rng) (from n : nat) : list Q :=
  map (fun j => backoff_delay r j (snd (fn j))) (seq from n).

(** [fetch_search_page]: the retry wrapper around the request; [http k] is
    the outcome of the [k]-th GET of this call. *)
Definition fetch_search_page (http : nat -> http_outcome) (r : rng) : retried :=
  with_retries (fun k => request_json (http k)) r.

(** ** The brand list loader: [load_brands_from_csv] *)

(** A column of the frame [pd.read_csv] built: its name, and its cells, a
    missing value (NaN) as [None] and any other as its [astype(str)] text. *)
Record column : Type := {
  col_name : string;
  col_cells : list (option string);
}.

Definition BRAND_COLUMN_CANDIDATES : list string :=
  ["brand"; "Brands"; "BrandName"; "brand_name"; "name"].

(** [c in df.columns] *)
Definition has_column (df : list column) (c : string) : bool :=
  existsb (fun col => String.eqb (col_name col) c) df.

(** [df[c]] *)
Definition df_column (df : list column) (c : string) : option column :=
  find (fun col => String.eqb (col_name col) c) df.

(** The column the loader reads: the first candidate the frame has, else
    [df.columns[0]], which raises [IndexError] on a frame with no column. *)
Definition brand_column (df : list column) : raising column :=
  match find (has_column df) BRAND_COLUMN_CANDIDATES with
  | Some c => match df_column df c with
              | Some col => Returns col
              | None => Raises
              end
  | None => match df with
            | col :: _ => Returns col
            | [] => Raises
            end
  end.

(** [.dropna().astype(str).map(strip).loc[s != ""].tolist()] *)
Definition brand_values (cells : list (option string)) : list string :=
  filter (fun s => s <> "") (map strip (omap id cells)).

(** The deduplicating loop, with its [seen] set and [out] list. *)
Fixpoint dedupe_brands (brands : list string) (seen : gset string) (out : list string)
    : list string :=
  match brands with
  | [] => out
  | b :: rest =>
      let k := norm_key b in
      if decide (k ∈ seen)
      then dedupe_brands rest seen out
      else dedupe_brands rest ({[k]} ∪ seen) (out ++ [b])
  end.

Definition load_brands_from_csv (df : list column) : raising (list string) :=
  match brand_column df with
  | Raises => Raises
  | Returns col => Returns (dedupe_brands (brand_values (col_cells col)) ∅ [])
  end.

(** ** The image downloader: [download_image_if_needed] *)

(** The file system is a map from paths to contents; [io_calls] counts the
    network requests made. *)
Record io_state : Type := {
  io_fs : gmap string string;
  io_calls : nat;
}.

(** Where the download breaks, if it does. *)
Inductive fault : Type :=
| NoFault
| FaultAtGet                 (* [session.get] raises *)
| FaultAtOpen                (* [open(tmp_path, "wb")] raises *)
| FaultInStream (n : nat)    (* [iter_content] raises after [n] chunks *)
| FaultAtReplace.            (* [os.replace] raises *)

(** What the image server and the operating system do during one call. *)
Record download_env : Type := {
  resp_code : Z;
  resp_chunks : list string;
  dl_fault : fault;
}.

(** Paths are written relative to [BASE_DIR]. *)
Definition IMAGES_ROOT_DIR : string := "images".

Definition image_local_path (sku : string) : string :=
  IMAGES_ROOT_DIR ++ "/" ++ "iga" ++ "/" ++ sku ++ ".jpg".
Definition image_tmp_path (sku : string) : string := image_local_path sku ++ ".part".
Definition image_web_rel (sku : string) : string := "iga" ++ "/" ++ sku ++ ".jpg".

(** [os.path.exists(p) and os.path.getsize(p) > 0] *)
Definition exists_nonempty (fs : gmap string string) (p : string) : bool :=
  match fs !! p with
  | Some content => negb (String.eqb content "")
  | None => false
  end.

(** The chunks written: [if chunk: f.write(chunk)]. *)
Definition written (chunks : list string) : string :=
  String.concat "" (filter (fun c => c <> "") chunks).

(** The body of the [try]: its result, or [Raises], and the files it leaves. *)
Definition download_try (env : download_env) (sku : string) (fs : gmap string string)
    : raising (bool * string * string) * gmap string string :=
  let local_path := image_local_path sku in
  let tmp_path := image_tmp_path sku in
  match dl_fault env with
  | FaultAtGet => (Raises, fs)
  | flt =>
      if negb (resp_code env =? 200) then (Returns (false, "", ""), fs)
      else match flt with
           | FaultAtOpen => (Raises, fs)
           | FaultInStream n =>
               (Raises, <[tmp_path := written (take n (resp_chunks env))]> fs)
           | FaultAtReplace =>
               (Raises, <[tmp_path := written (resp_chunks env)]> fs)
           | _ =>
               let body := written (resp_chunks env) in
               let fs' := <[local_path := body]> (delete tmp_path (<[tmp_path := body]> fs)) in
               if String.eqb body ""
               then (Returns (false, "", ""), delete local_path fs')
               else (Returns (true, local_path, image_web_rel sku), fs')
           end
  end.

Definition download_image_if_needed (env : download_env) (image_url sku : string)
    (st : io_state) : (bool * string * string) * io_state :=
  if String.eqb image_url "" || String.eqb sku "" then ((false, "", ""), st)
  else
    let local_path := image_local_path sku in
    if exists_nonempty (io_fs st) local_path
    then ((false, local_path, image_web_rel sku), st)
    else
      let calls := S (io_calls st) in
      match download_try env sku (io_fs st) with
      | (Returns res, fs') => (res, {| io_fs := fs'; io_calls := calls |})
      | (Raises, fs') =>
          (* [except Exception]: remove the temporary file when it exists *)
          ((false, "", ""), {| io_fs := delete (image_tmp_path sku) fs'; io_calls := calls |})
      end.

(** ** Checkpoint documents *)

Definition STORE_ID : Z := 206686.
Definition TAKE : Z := 50.
Definition AUTOSAVE_EVERY_N_BRANDS : Z := 3.
Definition AUTOSAVE_EVERY_N_PAGES : Z := 10.

(** [run_progress.json]. A key the document lacks is [None]; [load_json]
    answers the empty document when the file is missing or unreadable. *)
Record run_doc : Type := {
  rd_status : option string;
  rd_run_id : option string;
  rd_store_id : option Z;
  rd_brands_count : option Z;
  rd_started_at : option string;
  rd_updated_at : option string;
  rd_finished_at : option string;
  rd_last_brand_index : option Z;
}.

Definition empty_run_doc : run_doc :=
  {| rd_status := None; rd_run_id := None; rd_store_id := None;
     rd_brands_count := None; rd_started_at := None; rd_updated_at := None;
     rd_finished_at := None; rd_last_brand_index := None |}.

(** One entry of [brand_progress.json], keyed by [norm_key(brand)]. *)
Record brand_state : Type := {
  bs_skip : Z;
  bs_done : bool;
  bs_total : json;
  bs_brand : string;
  bs_updated_at : option string;
}.

(** One entry of [sku_index.json]. *)
Record sku_entry : Type := {
  first_seen : string;
  last_seen : string;
  seen_brands : list string;
}.

(** A row of the snapshot ([item_to_row]): the columns SKU, RawJson,
    PrimaryImageUrl, ScrapedAt, RunId and BrandQuery. The flattened fields
    and the other core columns are functions of the item, which [row_raw]
    carries. *)
Record row : Type := {
  row_sku : string;
  row_raw : json;
  row_primary_image_url : string;
  row_scraped_at : string;
  row_run_id : string;
  row_brand_query : string;
}.

(** The state of one invocation: the four files it persists, its in-memory
    structures, and the number of page fetches it has issued. *)
Record world : Type := {
  run_progress_json : run_doc;
  brand_progress_json : gmap string brand_state;
  sku_index_json : gmap string sku_entry;
  snapshot_jsonl : gmap string (list row);   (* by run id: one file per run id *)
  bp : gmap string brand_state;
  si : gmap string sku_entry;
  seen_skus : gset string;
  rows : list row;
  image_tasks : list (string * string);
  fetches : nat;
}.

(** What is on disk when the program starts. *)
Record disk : Type := {
  disk_run_progress : run_doc;
  disk_brand_progress : gmap string brand_state;
  disk_sku_index : gmap string sku_entry;
  disk_jsonl : gmap string (list row);
}.

(** The rows of the JSONL file of a run id (no file: no rows). *)
Definition jsonl_rows (files : gmap string (list row)) (run_id : string) : list row :=
  default [] (files !! run_id).

(** The page server: what [fetch_search_page] returns for the [n]-th fetch of
    the invocation, asked for [brand] at offset [skip]. *)
Definition server : Type := nat -> string -> Z -> json * string.

(** The server that [fetch_search_page] makes of the raw requests:
    [http n brand skip k] is the outcome of the [k]-th GET of the [n]-th
    fetch, [draws n] the random draws of its retries. *)
Definition retrying_server (http : nat -> string -> Z -> nat -> http_outcome)
    (draws : nat -> rng) : server :=
  fun n brand skip =>
    let r := fetch_search_page (http n brand skip) (draws n) in
    (rt_payload r, rt_status r).

(** How the [while True] loop of one brand was left. *)
Inductive loop_exit : Type :=
| FetchFailed
| EmptyPage
| ShortPage
| TotalReached.

Inductive paged : Type :=
| Exited (e : loop_exit) (w : world)
| Crashed (w : world).          (* an exception left the loop *)

(** How one turn of the brand loop, or the whole loop, ended. *)
Inductive stepped : Type :=
| Continues (w : world)
| Aborts (w : world).           (* an exception is propagating *)

(** How the invocation ended. *)
Inductive outcome : Type :=
| Finished (w : world)          (* [return df] *)
| Failed (w : world).           (* the [except Exception] handler re-raised *)

Definition outcome_world (o : outcome) : world :=
  match o with Finished w | Failed w => w end.

Definition paged_world (r : paged) : world :=
  match r with Exited _ w | Crashed w => w end.

Definition stepped_world (r : stepped) : world :=
  match r with Continues w | Aborts w => w end.

Section Scraper.
Context {RT : Runtime}.

Definition load_or_create_run_id (rp : run_doc) : string :=
  match rd_status rp, rd_run_id rp with
  | Some status, Some run_id =>
      if String.eqb status "RUNNING" && negb (String.eqb run_id "")
      then run_id
      else now_stamp
  | _, _ => now_stamp
  end.

(** [snapshot_paths(run_id)], relative to [BASE_DIR]. *)
Definition snapshot_paths (run_id : string) : string * string :=
  ("iga_all_products_" ++ run_id ++ ".csv",
   "iga_scraped_product/iga_all_products_" ++ run_id ++ ".jsonl").

(** [init_run_progress]: the document it returns and the file it leaves. *)
Definition init_run_progress (run_id : string) (brands_count : Z) (file : run_doc)
    : run_doc * run_doc :=
  if bool_decide (rd_status file = Some "RUNNING") && bool_decide (rd_run_id file = Some run_id)
  then (file, file)
  else
    let rp := {| rd_status := Some "RUNNING"; rd_run_id := Some run_id;
                 rd_store_id := Some STORE_ID; rd_brands_count := Some brands_count;
                 rd_started_at := Some now_ts; rd_updated_at := Some now_ts;
                 rd_finished_at := None; rd_last_brand_index := Some (-1) |} in
    (rp, rp).

Definition mark_run_done (run_id : string) (file : run_doc) : run_doc :=
  if bool_decide (rd_run_id file = Some run_id)
  then {| rd_status := Some "DONE"; rd_run_id := rd_run_id file;
          rd_store_id := rd_store_id file; rd_brands_count := rd_brands_count file;
          rd_started_at := rd_started_at file; rd_updated_at := Some now_ts;
          rd_finished_at := Some now_ts;
          rd_last_brand_index := rd_last_brand_index file |}
  else file.

Definition update_sku_index (si : gmap string sku_entry) (sku brand : string)
    : gmap string sku_entry :=
  if String.eqb sku "" then si
  else match si !! sku with
       | None => <[sku := {| first_seen := now_ts; last_seen := now_ts;
                             seen_brands := [brand] |}]> si
       | Some entry =>
           let brands := seen_brands entry in
           <[sku := {| first_seen := first_seen entry; last_seen := now_ts;
                       seen_brands := if bool_decide (brand ∈ brands)
                                      then brands else (brands ++ [brand])%list |}]> si
       end.

Definition item_to_row (item : json) (brand_query run_id : string) : row :=
  {| row_sku := extract_sku_from_item item;
     row_raw := item;
     row_primary_image_url := extract_primary_image_url_from_item item;
     row_scraped_at := now_ts;
     row_run_id := run_id;
     row_brand_query := brand_query |}.

(** [autosave(brand_index)] *)
Definition autosave (run_id : string) (brand_index : Z) (w : world) : world :=
  let rp2 := run_progress_json w in
  {| run_progress_json :=
       if bool_decide (rd_run_id rp2 = Some run_id)
       then {| rd_status := rd_status rp2; rd_run_id := rd_run_id rp2;
               rd_store_id := rd_store_id rp2; rd_brands_count := rd_brands_count rp2;
               rd_started_at := rd_started_at rp2; rd_updated_at := Some now_ts;
               rd_finished_at := rd_finished_at rp2;
               rd_last_brand_index := Some brand_index |}
       else rp2;
     brand_progress_json := bp w;
     sku_index_json := si w;
     snapshot_jsonl := snapshot_jsonl w;
     bp := bp w; si := si w; seen_skus := seen_skus w; rows := rows w;
     image_tasks := image_tasks w; fetches := fetches w |}.

(** [bp[bkey] = {...}] *)
Definition set_brand (bkey : string) (s : brand_state) (w : world) : world :=
  {| run_progress_json := run_progress_json w;
     brand_progress_json := brand_progress_json w;
     sku_index_json := sku_index_json w;
     snapshot_jsonl := snapshot_jsonl w;
     bp := <[bkey := s]> (bp w); si := si w; seen_skus := seen_skus w;
     rows := rows w; image_tasks := image_tasks w; fetches := fetches w |}.

Definition brand_record (skip : Z) (done : bool) (total : json) (brand : string)
    : brand_state :=
  {| bs_skip := skip; bs_done := done; bs_total := total; bs_brand := brand;
     bs_updated_at := Some now_ts |}.

(** The body of [for it in items]. *)
Definition process_item (run_id brand : string) (w : world) (it : json) : world :=
  let sku := extract_sku_from_item it in
  if String.eqb sku "" then w
  else
    let si' := update_sku_index (si w) sku brand in
    if decide (sku ∈ seen_skus w)
    then {| run_progress_json := run_progress_json w;
            brand_progress_json := brand_progress_json w;
            sku_index_json := sku_index_json w;
            snapshot_jsonl := snapshot_jsonl w;
            bp := bp w; si := si'; seen_skus := seen_skus w; rows := rows w;
            image_tasks := image_tasks w; fetches := fetches w |}
    else
      let r := item_to_row it brand run_id in
      let img_url := row_primary_image_url r in
      {| run_progress_json := run_progress_json w;
         brand_progress_json := brand_progress_json w;
         sku_index_json := sku_index_json w;
         snapshot_jsonl :=
           <[run_id := (jsonl_rows (snapshot_jsonl w) run_id ++ [r])%list]> (snapshot_jsonl w);
         bp := bp w; si := si'; seen_skus := {[sku]} ∪ seen_skus w;
         rows := (rows w ++ [r])%list;
         image_tasks := if DOWNLOAD_IMAGES && negb (String.eqb img_url "")
                        then (image_tasks w ++ [(sku, img_url)])%list
                        else image_tasks w;
         fetches := fetches w |}.

Definition process_items (run_id brand : string) (items : list json) (w : world) : world :=
  fold_left (process_item run_id brand) items w.

Definition count_fetch (w : world) : world :=
  {| run_progress_json := run_progress_json w;
     brand_progress_json := brand_progress_json w;
     sku_index_json := sku_index_json w;
     snapshot_jsonl := snapshot_jsonl w;
     bp := bp w; si := si w; seen_skus := seen_skus w; rows := rows w;
     image_tasks := image_tasks w; fetches := S (fetches w) |}.

(** [isinstance(total_expected, int) and skip >= total_expected] *)
Definition total_reached (total_expected : json) (skip : Z) : bool :=
  match int_value total_expected with
  | Some t => t <=? skip
  | None => false
  end.

(** The [while True] loop of one brand; [fuel] bounds its iterations. *)
Fixpoint paginate (srv : server) (run_id : string) (bi : Z) (brand bkey : string)
    (fuel : nat) (skip : Z) (total_expected : json) (page_count : Z) (w : world)
    : option paged :=
  match fuel with
  | O => None
  | S fuel' =>
      let '(payload, status) := srv (fetches w) brand skip in
      let w := count_fetch w in
      if negb (truthy payload) || negb (String.eqb status "SUCCESS")
      then Some (Exited FetchFailed
                   (autosave run_id bi
                      (set_brand bkey (brand_record skip false total_expected brand) w)))
      else
        match (match total_expected with
               | JNull => extract_total payload
               | _ => Returns total_expected
               end) with
        | Raises => Some (Crashed w)
        | Returns total_expected =>
            match extract_items payload with
            | Raises => Some (Crashed w)
            | Returns [] =>
                Some (Exited EmptyPage
                        (autosave run_id bi
                           (set_brand bkey (brand_record skip true total_expected brand) w)))
            | Returns items =>
                let w := process_items run_id brand items w in
                let skip := skip + TAKE in
                let page_count := page_count + 1 in
                let w := set_brand bkey (brand_record skip false total_expected brand) w in
                let w := if page_count mod AUTOSAVE_EVERY_N_PAGES =? 0
                         then autosave run_id bi w else w in
                if Z.of_nat (length items) <? TAKE
                then Some (Exited ShortPage
                             (autosave run_id bi
                                (set_brand bkey (brand_record skip true total_expected brand) w)))
                else if total_reached total_expected skip
                then Some (Exited TotalReached
                             (autosave run_id bi
                                (set_brand bkey (brand_record skip true total_expected brand) w)))
                else paginate srv run_id bi brand bkey fuel' skip total_expected page_count w
            end
        end
  end.

(** The body of [for bi, brand in enumerate(brands)]; [last] is
    [int(rp.get("last_brand_index", -1))]. [None]: the page loop ran out of
    fuel. *)
Definition brand_step (srv : server) (run_id : string) (last : Z) (fuel : nat)
    (bi : Z) (brand : string) (w : world) : option stepped :=
  if bi <=? last then Some (Continues w)
  else
    let brand := strip brand in
    if String.eqb brand "" then Some (Continues (autosave run_id bi w))
    else
      let bkey := norm_key brand in
      let state := default {| bs_skip := 0; bs_done := false; bs_total := JNull;
                              bs_brand := brand; bs_updated_at := None |}
                           (bp w !! bkey) in
      if bs_done state then Some (Continues (autosave run_id bi w))
      else
        match paginate srv run_id bi brand bkey fuel (bs_skip state) (bs_total state) 0 w with
        | None => None
        | Some (Crashed w') => Some (Aborts w')
        | Some (Exited _ w') =>
            Some (Continues (if (bi + 1) mod AUTOSAVE_EVERY_N_BRANDS =? 0
                             then autosave run_id bi w' else w'))
        end.

Fixpoint brands_loop (srv : server) (run_id : string) (last : Z) (fuel : nat)
    (ibrands : list (Z * string)) (w : world) : option stepped :=
  match ibrands with
  | [] => Some (Continues w)
  | (bi, brand) :: rest =>
      match brand_step srv run_id last fuel bi brand w with
      | None => None
      | Some (Aborts w') => Some (Aborts w')
      | Some (Continues w') => brands_loop srv run_id last fuel rest w'
      end
  end.

(** [enumerate(brands, start=0)] *)
Definition enumerate (brands : list string) : list (Z * string) :=
  imap (fun i b => (Z.of_nat i, b)) brands.

(** The state after the loads that open [scrape_weekly_snapshot_by_brands]. *)
Definition start_world (run_file : run_doc) (d : disk) : world :=
  {| run_progress_json := run_file;
     brand_progress_json := disk_brand_progress d;
     sku_index_json := disk_sku_index d;
     snapshot_jsonl := disk_jsonl d;
     bp := disk_brand_progress d;
     si := disk_sku_index d;
     seen_skus := dom (disk_sku_index d);
     rows := [];
     image_tasks := [];
     fetches := 0 |}.

Definition finish_run (run_id : string) (w : world) : world :=
  {| run_progress_json := mark_run_done run_id (run_progress_json w);
     brand_progress_json := brand_progress_json w;
     sku_index_json := sku_index_json w;
     snapshot_jsonl := snapshot_jsonl w;
     bp := bp w; si := si w; seen_skus := seen_skus w; rows := rows w;
     image_tasks := image_tasks w; fetches := fetches w |}.

(** [scrape_weekly_snapshot_by_brands(brands)], up to the brand loop and
    [mark_run_done]; the image pass and the CSV rebuild between the two
    touch none of the state kept here. *)
Definition scrape_weekly_snapshot_by_brands (srv : server) (fuel : nat)
    (brands : list string) (d : disk) : option outcome :=
  let run_id := load_or_create_run_id (disk_run_progress d) in
  let '(rp, run_file) :=
    init_run_progress run_id (Z.of_nat (length brands)) (disk_run_progress d) in
  let last := default (-1) (rd_last_brand_index rp) in
  match brands_loop srv run_id last fuel (enumerate brands) (start_world run_file d) with
  | None => None
  | Some (Aborts w) => Some (Failed (autosave run_id last w))
  | Some (Continues w) => Some (Finished (finish_run run_id w))
  end.

End Scraper.

(** ** Column names: [standardise_col_name], [standardise_dataframe_columns] *)

(** [re.sub(P+, rep, s)] for a class [P] of characters: every maximal run of
    characters of the class becomes [rep]. [in_run] tells that the previous
    character was of the class. *)
Fixpoint sub_runs (P : ascii -> bool) (rep : ascii) (in_run : bool) (l : list ascii)
    : list ascii :=
  match l with
  | [] => []
  | c :: r =>
      if P c
      then (if in_run then sub_runs P rep true r else rep :: sub_runs P rep true r)
      else c :: sub_runs P rep false r
  end.

(** [s.strip(chars)] for a class [P] of characters. *)
Fixpoint lstrip_by (P : ascii -> bool) (l : list ascii) : list ascii :=
  match l with
  | [] => []
  | c :: r => if P c then lstrip_by P r else l
  end.

Fixpoint rstrip_by (P : ascii -> bool) (l : list ascii) : list ascii :=
  match l with
  | [] => []
  | c :: r =>
      match rstrip_by P r with
      | [] => if P c then [] else [c]
      | r' => c :: r'
      end
  end.

Definition strip_by (P : ascii -> bool) (l : list ascii) : list ascii :=
  rstrip_by P (lstrip_by P l).

(** No character of the class [P] follows another one in [l]; [prev] tells
    that the character before [l] was of the class. *)
Fixpoint separated (P : ascii -> bool) (prev : bool) (l : list ascii) : bool :=
  match l with
  | [] => true
  | c :: r => if P c then negb prev && separated P true r else separated P false r
  end.

Definition underscore : ascii := "_"%char.
Definition is_underscore (c : ascii) : bool := Ascii.eqb c underscore.
Definition is_dot (c : ascii) : bool := Ascii.eqb c "."%char.

(** The class [[a-zA-Z0-9_]]. *)
Definition is_word (c : ascii) : bool :=
  let n := nat_of_ascii c in
  ((48 <=? n)%nat && (n <=? 57)%nat) || ((65 <=? n)%nat && (n <=? 90)%nat) ||
  ((97 <=? n)%nat && (n <=? 122)%nat) || is_underscore c.

(** The class [[a-z0-9_]]. *)
Definition is_lower_word (c : ascii) : bool :=
  let n := nat_of_ascii c in
  ((48 <=? n)%nat && (n <=? 57)%nat) || ((97 <=? n)%nat && (n <=? 122)%nat) ||
  is_underscore c.

(** [standardise_col_name], step by step, on the characters of the name. A
    byte above 127 is no word character, as every non-ASCII character is
    none, so it ends in a run that becomes one underscore in either
    reading. *)
Definition standardise_chars (l : list ascii) : list ascii :=
  let l := strip_chars l in                                     (* .strip() *)
  let l := map (fun c => if is_dot c then underscore else c) l in (* .replace(".", "_") *)
  let l := sub_runs is_space underscore false l in                (* \s+ *)
  let l := sub_runs (fun c => negb (is_word c)) underscore false l in (* [^a-zA-Z0-9_]+ *)
  let l := strip_by is_underscore (sub_runs is_underscore underscore false l) in
  map lower_char l.                                             (* .lower() *)

Definition standardise_col_name (name : string) : string :=
  on_chars standardise_chars name.

(** The loop of [standardise_dataframe_columns] over the standardised names,
    with its [seen] counts and its [fixed] list. *)
Fixpoint fix_columns (raw : list string) (seen : gmap string Z) (fixed : list string)
    : list string :=
  match raw with
  | [] => fixed
  | c :: rest =>
      match seen !! c with
      | None => fix_columns rest (<[c := 1]> seen) (fixed ++ [c])
      | Some n =>
          fix_columns rest (<[c := n + 1]> seen) (fixed ++ [c ++ "_" ++ str_of_Z (n + 1)])
      end
  end.

(** [standardise_dataframe_columns(df).columns], from [df.columns]. *)
Definition standardise_dataframe_columns (columns : list string) : list string :=
  fix_columns (map standardise_col_name columns) ∅ [].

(** The name the loop gives to an occurrence of [c] that is the [k]-th. *)
Definition numbered (c : string) (k : nat) : string :=
  if (k =? 1)%nat then c else c ++ "_" ++ str_of_Z (Z.of_nat k).

(** How often [c] occurs in [l]. *)
Definition occurrences (c : string) (l : list string) : nat :=
  length (filter (fun x => x = c) l).

(** ** Flattening an item: [flatten_any_simple] *)

(** [d[k] = v] on a dictionary kept as its pairs in insertion order. *)
Fixpoint dict_set (k : string) (v : json) (d : list (string * json))
    : list (string * json) :=
  match d with
  | [] => [(k, v)]
  | (k', v') :: r => if String.eqb k k' then (k, v) :: r else (k', v') :: dict_set k v r
  end.

(** [d.update(other)] *)
Definition dict_update (d other : list (string * json)) : list (string * json) :=
  fold_left (fun acc kv => dict_set (fst kv) (snd kv) acc) other d.

Section Flatten.
(** [json.dumps(obj, ensure_ascii=False)] *)
Variable json_dumps : json -> string.

Fixpoint flatten_any_simple (obj : json) (parent_key sep : string)
    (max_depth _depth : nat) : list (string * json) :=
  if (max_depth <? _depth)%nat then [(parent_key, JStr (json_dumps obj))]
  else
    match obj with
    | JDict d =>
        (fix items (d : list (string * json)) (out : list (string * json)) :=
           match d with
           | [] => out
           | (k, v) :: r =>
               let nk := if String.eqb parent_key "" then k else parent_key ++ sep ++ k in
               items r (dict_update out (flatten_any_simple v nk sep max_depth (S _depth)))
           end) d []
    | JList _ => [(parent_key, JStr (json_dumps obj))]
    | _ => [(parent_key, obj)]
    end.

(** The loop [for k, v in obj.items()] of a dictionary, named. *)
Fixpoint flatten_items (d : list (string * json)) (parent_key sep : string)
    (max_depth _depth : nat) (out : list (string * json)) : list (string * json) :=
  match d with
  | [] => out
  | (k, v) :: r =>
      let nk := if String.eqb parent_key "" then k else parent_key ++ sep ++ k in
      flatten_items r parent_key sep max_depth _depth
        (dict_update out (flatten_any_simple v nk sep max_depth (S _depth)))
  end.

End Flatten.

(** A value that is neither a dictionary nor a list. *)
Definition is_scalar (v : json) : bool := negb (is_dict v) && negb (is_list v).

(** A pair of a flat record under [parent_key]: a scalar under a key that
    starts with [parent_key]. *)
Definition flat_under (parent_key : string) (kv : string * json) : Prop :=
  is_scalar kv.2 = true /\ exists rest, kv.1 = parent_key ++ rest.

(** ** Sums of delays *)

Definition Qsum (l : list Q) : Q := fold_right Qplus 0%Q l.

(** ** One turn of the page loop, named for the proofs *)

Section PageTurn.
Context {RT : Runtime}.

(** [if total_expected is None: total_expected = extract_total(payload)],
    given what [extract_total] returned. *)
Definition learn_total (total_expected extracted : json) : json :=
  match total_expected with
  | JNull => extracted
  | _ => total_expected
  end.

(** The state after a non-empty page was processed: its items handled, the
    offset advanced in the brand's entry, and the periodic autosave done. *)
Definition after_page (run_id : string) (bi : Z) (brand bkey : string)
    (skip : Z) (total_expected : json) (page_count : Z) (items : list json)
    (w : world) : world :=
  let w1 := process_items run_id brand items (count_fetch w) in
  let w2 := set_brand bkey (brand_record (skip + TAKE) false total_expected brand) w1 in
  if (page_count + 1) mod AUTOSAVE_EVERY_N_PAGES =? 0 then autosave run_id bi w2 else w2.

(** The state a [break] of the page loop leaves: the brand's entry written
    and autosaved. *)
Definition close_brand (run_id : string) (bi : Z) (brand bkey : string)
    (skip : Z) (done : bool) (total_expected : json) (w : world) : world :=
  autosave run_id bi (set_brand bkey (brand_record skip done total_expected brand) w).

(** What justifies an exit [e] that left the state [w']: the last fetch (the
    one numbered [fetches w' - 1]) and the brand's entry, in memory and on
    disk. The offset of the entry is the one the last fetch asked for after
    a failure or an empty page, and that offset advanced by [TAKE] after a
    short page or when the total is reached. *)
Definition exit_justified (srv : server) (brand bkey : string) (e : loop_exit)
    (w' : world) : Prop :=
  exists st n payload status,
    fetches w' = S n /\
    bp w' !! bkey = Some st /\
    brand_progress_json w' !! bkey = Some st /\
    bs_done st = match e with FetchFailed => false | _ => true end /\
    match e with
    | FetchFailed =>
        srv n brand (bs_skip st) = (payload, status) /\
        (truthy payload = false \/ status <> "SUCCESS")
    | EmptyPage =>
        srv n brand (bs_skip st) = (payload, "SUCCESS") /\ status = "SUCCESS" /\
        truthy payload = true /\ extract_items payload = Returns []
    | ShortPage =>
        srv n brand (bs_skip st - TAKE) = (payload, "SUCCESS") /\ status = "SUCCESS" /\
        truthy payload = true /\
        exists items, extract_items payload = Returns items /\ items <> [] /\
                      Z.of_nat (length items) < TAKE
    | TotalReached =>
        srv n brand (bs_skip st - TAKE) = (payload, "SUCCESS") /\ status = "SUCCESS" /\
        truthy payload = true /\
        (exists items, extract_items payload = Returns items /\
                       TAKE <= Z.of_nat (length items)) /\
        total_reached (bs_total st) (bs_skip st) = true
    end.

(** The loop ends at the state [w'] by the exit [e], given fuel enough. *)
Definition loop_ends_with (srv : server) (run_id : string) (bi : Z) (brand bkey : string)
    (skip : Z) (total : json) (pc : Z) (w : world) (e : loop_exit) (w' : world) : Prop :=
  exists fuel0, forall fuel, (fuel0 <= fuel)%nat ->
    paginate srv run_id bi brand bkey fuel skip total pc w = Some (Exited e w').

(** A response that ends the page loop, whatever the total: a failure, or a
    page with fewer than [TAKE] items (none included). *)
Definition stops_loop (response : json * string) : Prop :=
  truthy (fst response) = false \/ snd response <> "SUCCESS" \/
  exists items, extract_items (fst response) = Returns items /\
                Z.of_nat (length items) < TAKE.

(** A response from which the total is learned. *)
Definition tells_total (response : json * string) : Prop :=
  exists t, extract_total (fst response) = Returns t /\ is_int t = true.

(** Every successful, truthy payload the server sends for a brand is a JSON
    object. *)
Definition sends_objects (srv : server) (brand : string) : Prop :=
  forall n skip, truthy (fst (srv n brand skip)) = true ->
                 snd (srv n brand skip) = "SUCCESS" ->
                 is_dict (fst (srv n brand skip)) = true.

End PageTurn.

(** ** Invariants of the brand loop *)

(** The run document on disk keeps naming the run id. *)
Definition names_run (run_id : string) (w : world) : Prop :=
  rd_run_id (run_progress_json w) = Some run_id.

(** The rows of this invocation: they are what was appended to the JSONL
    file of the run id (no other file is touched), their SKUs are pairwise
    distinct, non-empty, in the SKU index, and outside the seen-set [seen0]
    the invocation started from, and the seen-set is [seen0] and their
    SKUs. *)
Definition fresh_rows (run_id : string) (files0 : gmap string (list row))
    (seen0 : gset string) (w : world) : Prop :=
  jsonl_rows (snapshot_jsonl w) run_id = (jsonl_rows files0 run_id ++ rows w)%list /\
  (forall rid, rid <> run_id -> snapshot_jsonl w !! rid = files0 !! rid) /\
  NoDup (map row_sku (rows w)) /\
  seen_skus w = (seen0 ∪ list_to_set (map row_sku (rows w))) /\
  (forall r, r ∈ rows w ->
     (row_sku r ∉ seen0) /\ row_sku r <> "" /\ (row_sku r ∈ dom (si w))).

(** The checkpoint files hold what is in memory: the state after an
    [autosave]. *)
Definition saved (w : world) : Prop :=
  sku_index_json w = si w /\ brand_progress_json w = bp w.

(** The SKU index only grows: the seen-set is its key set, and an entry of
    the index [index0] is still there, with its [first_seen] and with its
    brands as the first of its brands. *)
Definition index_grows (index0 : gmap string sku_entry) (w : world) : Prop :=
  seen_skus w = dom (si w) /\
  forall k e0, index0 !! k = Some e0 ->
    exists e, si w !! k = Some e /\ first_seen e = first_seen e0 /\
              seen_brands e0 `prefix_of` seen_brands e.

(** The image tasks of a list of rows: the SKU and the image URL of each
    row that has one, in order. *)
Definition row_tasks (l : list row) : list (string * string) :=
  map (fun r => (row_sku r, row_primary_image_url r))
      (filter (fun r => row_primary_image_url r <> "") l).

(** The server [srv'] answers as [srv] does the fetches numbered
    [from .. upto - 1] of a brand, asked at the offsets [skip],
    [skip + TAKE], [skip + 2 * TAKE], ... in this order. *)
Definition same_answers (srv srv' : server) (brand : string) (skip : Z)
    (from upto : nat) : Prop :=
  forall i : nat, (from + i < upto)%nat ->
    srv' (from + i)%nat brand (skip + TAKE * Z.of_nat i)
    = srv (from + i)%nat brand (skip + TAKE * Z.of_nat i).

(** [bp.get(bkey, {"skip": 0, "done": False, "total": None, "brand": brand})]
    for a stripped brand. *)
Definition brand_entry (brand : string) (w : world) : brand_state :=
  default {| bs_skip := 0; bs_done := false; bs_total := JNull;
             bs_brand := brand; bs_updated_at := None |}
          (bp w !! norm_key brand).

(** ** The columns of a row: [item_to_row] in full *)

Section RowColumns.
Context {RT : Runtime}.
(** [json.dumps(obj, ensure_ascii=False)] *)
Variable json_dumps : json -> string.

(** [x if x is not None else ""] *)
Definition or_empty (x : json) : json :=
  match x with JNull => JStr "" | _ => x end.

(** [safe_str(item.get(k) or "")] *)
Definition text_field (item : json) (k : string) : json :=
  JStr (safe_str (py_or (item_get item k) (JStr ""))).

(** The dictionary [core] of [item_to_row]. *)
Definition core_columns (item : json) (brand_query run_id : string)
    : list (string * json) :=
  [ ("Retailer", JStr "IGA");
    ("StoreId", JInt STORE_ID);
    ("SKU", JStr (extract_sku_from_item item));
    ("Name", text_field item "name");
    ("BrandName", text_field item "brand");
    ("Barcode", text_field item "barcode");
    ("Available", or_empty (item_get item "available"));
    ("SellBy", text_field item "sellBy");
    ("PriceDisplay", text_field item "price");
    ("PriceNumeric", or_empty (item_get item "priceNumeric"));
    ("WasPriceDisplay", text_field item "wasPrice");
    ("WasPriceNumeric", or_empty (item_get item "wasPriceNumeric"));
    ("PriceLabel", text_field item "priceLabel");
    ("PriceSource", text_field item "priceSource");
    ("PricePerUnit", text_field item "pricePerUnit");
    ("PrimaryImageUrl", JStr (extract_primary_image_url_from_item item));
    ("ScrapedAt", JStr now_ts);
    ("RunId", JStr run_id);
    ("BrandQuery", JStr brand_query);
    ("RawJson", JStr (json_dumps item)) ].

(** The dictionary [item_to_row] returns, [{**flat, **core}], of which the
    record [row] keeps six columns. *)
Definition item_to_row_dict (item : json) (brand_query run_id : string)
    : list (string * json) :=
  dict_update (flatten_any_simple json_dumps item "iga" "." 20 0)
              (core_columns item brand_query run_id).

End RowColumns.

(** ** Proof tools *)

(** Closes [x ∉ [a; b; ...]] when [x] differs from each by its constructors. *)
Ltac not_in_list :=
  let H := fresh in
  intros H;
  repeat (apply elem_of_cons in H as [H|H]; [discriminate H|]);
  by apply elem_of_nil in H.

Ltac in_list := repeat first [apply list_elem_of_here | apply list_elem_of_further].

(** ** Sample data for the closed examples *)

Definition sample_runtime : Runtime :=
  {| str_compound := fun _ => "<compound>";
     now_ts := "2025-01-06 09:00:00";
     now_stamp := "20250106_090000";
     DOWNLOAD_IMAGES := true |}.

(** An item whose SKU is the number [n]. *)
Definition sample_item (n : nat) : json :=
  JDict [("sku", JInt (Z.of_nat n)); ("name", JStr "item")].

(** A page carrying the items numbered [from .. from + count - 1]. *)
Definition sample_page (from count : nat) (total : json) : json :=
  JDict [("items", JList (map sample_item (seq from count))); ("total", total)].

Definition empty_disk : disk :=
  {| disk_run_progress := empty_run_doc; disk_brand_progress := ∅;
     disk_sku_index := ∅; disk_jsonl := ∅ |}.

(** A closure that is blocked twice and then succeeds, and fixed draws. *)
Definition sample_fn (k : nat) : json * string :=
  if (k <? 2)%nat then (JNull, "BLOCKED_403") else (JDict [("total", JInt 0)], "SUCCESS").

Definition sample_rng : rng :=
  {| uniform_08_16 := fun _ => 1%Q; uniform_0_5 := fun _ => 2%Q |}.

(** An image server answering 200 with a two-chunk body, and a file
    system that already holds the image of SKU 7. *)
Definition sample_download : download_env :=
  {| resp_code := 200; resp_chunks := ["JFIF"; ""; "data"]; dl_fault := NoFault |}.

Definition sample_io : io_state :=
  {| io_fs := {[ image_local_path "7" := "old image" ]}; io_calls := 0 |}.

(** A brand table whose recognised column comes second. *)
Definition sample_frame : list column :=
  [ {| col_name := "id"; col_cells := [Some "1"; Some "2"; Some "3"; Some "4"; Some "5"] |};
    {| col_name := "Brands";
       col_cells := [Some " Coca  Cola"; None; Some "coca cola "; Some "   "; Some "Arnott's"] |} ].

(** A run interrupted after its first brand was checkpointed at the run
    level, while that brand's own entry is not done. *)
Definition sample_resume_disk : disk :=
  {| disk_run_progress :=
       {| rd_status := Some "RUNNING"; rd_run_id := Some "20250101_000000";
          rd_store_id := Some STORE_ID; rd_brands_count := Some 2;
          rd_started_at := Some "2025-01-01 00:00:00";
          rd_updated_at := Some "2025-01-01 00:05:00";
          rd_finished_at := None; rd_last_brand_index := Some 0 |};
     disk_brand_progress :=
       {[ "acme" := {| bs_skip := 50; bs_done := false; bs_total := JInt 120;
                       bs_brand := "Acme"; bs_updated_at := None |} ]};
     disk_sku_index := ∅;
     disk_jsonl := ∅ |}.

(** What a finished run over the brand Acme left: its entry is done, and
    the run document is closed. *)
Definition sample_done_disk : disk :=
  {| disk_run_progress :=
       {| rd_status := Some "DONE"; rd_run_id := Some "20250101_000000";
          rd_store_id := Some STORE_ID; rd_brands_count := Some 1;
          rd_started_at := Some "2025-01-01 00:00:00";
          rd_updated_at := Some "2025-01-01 00:09:00";
          rd_finished_at := Some "2025-01-01 00:09:00";
          rd_last_brand_index := Some 0 |};
     disk_brand_progress :=
       {[ "acme" := {| bs_skip := 150; bs_done := true; bs_total := JInt 120;
                       bs_brand := "Acme"; bs_updated_at := Some "2025-01-01 00:09:00" |} ]};
     disk_sku_index := ∅;
     disk_jsonl := ∅ |}.

(** A site that blocks every request. *)
Definition blocking_http : nat -> string -> Z -> nat -> http_outcome :=
  fun _ _ _ _ => GetResponds 403 None.

(** A server with one short page of three items for every query. *)
Definition sample_server : server :=
  fun _ _ _ => (sample_page 1 3 (JInt 3), "SUCCESS").

(** The scenario of two pages: fifty items, then twelve; the total, 62, is
    told by both. *)
Definition two_page_server : server :=
  fun n _ _ => if (n =? 0)%nat then (sample_page 1 50 (JInt 62), "SUCCESS")
               else (sample_page 51 12 (JInt 62), "SUCCESS").

(** A server that answers every fetch with a full page and tells no total. *)
Definition endless_server : server :=
  fun _ _ _ => (sample_page 1 50 JNull, "SUCCESS").

(** A server that answers with a JSON array. *)
Definition array_server : server :=
  fun _ _ _ => (JList [JInt 1], "SUCCESS").

(** * Theorems *)

Local Open Scope list_scope.

(** ** Decimal text of integers *)

Lemma to_int_not_nil (z : Z) :
  Z.to_int z <> Decimal.Pos Decimal.Nil /\ Z.to_int z <> Decimal.Neg Decimal.Nil.
Proof.
  destruct z as [|p|p]; cbn; split; try discriminate;
    intros [= H]; revert H; apply DecimalPos.Unsigned.to_uint_nonnil.
Qed.

Lemma str_of_Z_inj (a b : Z) : str_of_Z a = str_of_Z b -> a = b.
Proof.
  unfold str_of_Z. intros H.
  apply DecimalZ.to_int_inj.
  destruct (to_int_not_nil a) as [Ha1 Ha2], (to_int_not_nil b) as [Hb1 Hb2].
  pose proof (NilZero.isi _ Ha1 Ha2) as Ea.
  pose proof (NilZero.isi _ Hb1 Hb2) as Eb.
  rewrite H in Ea. congruence.
Qed.

(** ** The parsers *)

Lemma filter_is_dict_elem (l : list json) (x : json) :
  x ∈ filter (fun v => is_dict v = true) l <-> x ∈ l /\ is_dict x = true.
Proof. rewrite list_elem_of_filter. tauto. Qed.

(** ** The single request *)

Lemma http_status_not_named (c : Z) :
  ("HTTP_" ++ str_of_Z c)%string ∉ "SUCCESS" :: named_failures.
Proof. unfold named_failures. not_in_list. Qed.

(** C8. [request_json] is a total function: whatever the GET does, it
    returns a (payload, status) pair and raises nothing. A 200 answer with a
    body that parses gives the parsed payload and [SUCCESS]; 429 and 403
    give two distinct named failures; any other code than 200 gives
    [HTTP_<code>], which names the code and is none of the named statuses;
    a 200 body that does not parse gives [INVALID_JSON]; a timeout gives
    [TIMEOUT], a connection error that is no timeout [CONNECTION_ERROR], any
    other exception [ERROR_UNKNOWN]; every failure carries the payload
    [None]. *)
Theorem request_json_classifies :
  (forall p, request_json (GetResponds 200 (Some p)) = (p, "SUCCESS")) /\
  request_json (GetResponds 200 None) = (JNull, "INVALID_JSON") /\
  (forall body, request_json (GetResponds 429 body) = (JNull, "RATE_LIMITED_429")) /\
  (forall body, request_json (GetResponds 403 body) = (JNull, "BLOCKED_403")) /\
  "RATE_LIMITED_429" <> "BLOCKED_403" /\
  (forall code body, code <> 200 -> code <> 429 -> code <> 403 ->
     request_json (GetResponds code body) = (JNull, ("HTTP_" ++ str_of_Z code)%string)) /\
  (forall c c', ("HTTP_" ++ str_of_Z c)%string = ("HTTP_" ++ str_of_Z c')%string -> c = c') /\
  (forall c, ("HTTP_" ++ str_of_Z c)%string ∉ "SUCCESS" :: named_failures) /\
  (forall e, isa_Timeout e = true -> request_json (GetRaises e) = (JNull, "TIMEOUT")) /\
  (forall e, isa_Timeout e = false -> isa_ConnectionError e = true ->
     request_json (GetRaises e) = (JNull, "CONNECTION_ERROR")) /\
  (forall e, isa_Timeout e = false -> isa_ConnectionError e = false ->
     request_json (GetRaises e) = (JNull, "ERROR_UNKNOWN")) /\
  NoDup ("SUCCESS" :: named_failures) /\
  (forall o, snd (request_json o) <> "SUCCESS" -> fst (request_json o) = JNull) /\
  (forall o, snd (request_json o) ∈ "SUCCESS" :: named_failures \/
             exists c, c <> 200 /\ snd (request_json o) = ("HTTP_" ++ str_of_Z c)%string).
Proof.
  repeat apply conj.
  - reflexivity.
  - reflexivity.
  - reflexivity.
  - reflexivity.
  - discriminate.
  - intros code body H200 H429 H403. unfold request_json.
    destruct (Z.eqb_spec code 429); [contradiction|].
    destruct (Z.eqb_spec code 403); [contradiction|].
    destruct (Z.eqb_spec code 200); [contradiction|]. reflexivity.
  - intros c c' H. apply str_of_Z_inj. by simplify_eq.
  - apply http_status_not_named.
  - intros e He. unfold request_json. by rewrite He.
  - intros e He Hc. unfold request_json. by rewrite He, Hc.
  - intros e He Hc. unfold request_json. by rewrite He, Hc.
  - unfold named_failures. repeat (apply NoDup_cons; split; [not_in_list|]).
    apply NoDup_nil_2.
  - intros [e|code body]; unfold request_json.
    + by destruct (isa_Timeout e), (isa_ConnectionError e).
    + destruct (code =? 429); [done|]. destruct (code =? 403); [done|].
      destruct (code =? 200); [|done]. destruct body; [|done]. cbn. congruence.
  - intros [e|code body]; unfold request_json, named_failures.
    + left. destruct (isa_Timeout e), (isa_ConnectionError e); cbn; in_list.
    + destruct (Z.eqb_spec code 429); [left; cbn; in_list|].
      destruct (Z.eqb_spec code 403); [left; cbn; in_list|].
      destruct (Z.eqb_spec code 200); cbn.
      * left. destruct body; cbn; in_list.
      * right. by exists code.
Qed.

(** The cases of the exception classes, spelled out. *)
Example request_json_exceptions :
  map (fun e => snd (request_json (GetRaises e)))
      [ExcTimeout; ExcConnectTimeout; ExcReadTimeout; ExcConnectionError; ExcOther]
  = ["TIMEOUT"; "TIMEOUT"; "TIMEOUT"; "CONNECTION_ERROR"; "ERROR_UNKNOWN"].
Proof. reflexivity. Qed.

(** C10, as amended. On a payload that is a JSON object, [extract_items]
    returns exactly the dictionaries among the elements of its ["items"]
    list, in order, and the empty list when ["items"] is missing or no
    list; [extract_total] returns the ["total"] field when it is an [int]
    instance (an integer, or a boolean, which Python counts as one) and
    [None] when it is missing or anything else; neither raises. *)
Theorem extract_on_object (d : list (string * json)) :
  (exists items, extract_items (JDict d) = Returns items /\
     (forall l, assoc_get "items" d = JList l ->
        items = filter (fun x => is_dict x = true) l /\
        forall x, x ∈ items <-> x ∈ l /\ is_dict x = true) /\
     (is_list (assoc_get "items" d) = false -> items = [])) /\
  (exists t, extract_total (JDict d) = Returns t /\
     (forall z, assoc_get "total" d = JInt z -> t = JInt z) /\
     (forall b, assoc_get "total" d = JBool b -> t = JBool b) /\
     (is_int (assoc_get "total" d) = false -> t = JNull)).
Proof.
  split.
  - eexists. split; [reflexivity|]. split.
    + intros l ->. split; [reflexivity|]. intros x. apply filter_is_dict_elem.
    + by destruct (assoc_get "items" d).
  - eexists. split; [reflexivity|]. repeat split.
    + by intros z ->.
    + by intros b ->.
    + by intros ->.
Qed.

(** C10 as stated fails on a payload that is no JSON object: a non-empty
    array is truthy, so a [SUCCESS] fetch hands it to the parsers, both raise
    ([list] has no [get]), and the exception leaves the page loop. A boolean
    ["total"] is returned as it is, being an [int] instance. *)
Lemma extract_on_array_raises :
  truthy (JList [JInt 1]) = true /\
  extract_items (JList [JInt 1]) = Raises /\
  extract_total (JList [JInt 1]) = Raises /\
  (exists w, paginate (RT := sample_runtime) (fun _ _ _ => (JList [JInt 1], "SUCCESS"))
               "r" 0 "Acme" "acme" 5 0 JNull 0 (start_world empty_run_doc empty_disk)
             = Some (Crashed w)) /\
  extract_total (JDict [("total", JBool true)]) = Returns (JBool true).
Proof. repeat split. eexists. reflexivity. Qed.

(** ** The retry wrapper *)

(** The loop either stops at the first [SUCCESS] among the attempts it still
    has, or runs them all. *)
Lemma retry_loop_spec (fn : nat -> json * string) (r : rng) (todo : nat) :
  forall attempt last sleeps,
  let res := retry_loop fn r attempt todo last sleeps in
  (exists k, (attempt <= k < attempt + todo)%nat /\
     snd (fn k) = "SUCCESS" /\
     (forall j, (attempt <= j < k)%nat -> snd (fn j) <> "SUCCESS") /\
     rt_calls res = S k /\
     (rt_payload res, rt_status res) = fn k /\
     rt_sleeps res = (sleeps ++ delays fn r attempt (k - attempt))%list)
  \/
  ((forall j, (attempt <= j < attempt + todo)%nat -> snd (fn j) <> "SUCCESS") /\
   rt_calls res = (attempt + todo)%nat /\
   (rt_payload res, rt_status res)
     = match todo with O => last | S t => fn (attempt + t)%nat end /\
   rt_sleeps res = (sleeps ++ delays fn r attempt todo)%list).
Proof.
  induction todo as [|todo IH]; intros attempt last sleeps res.
  - right. subst res. cbn. rewrite Nat.add_0_r, app_nil_r.
    repeat split; [intros j Hj; lia | by destruct last].
  - subst res. cbn [retry_loop].
    destruct (fn attempt) as [payload status] eqn:Hfn.
    destruct (String.eqb_spec status "SUCCESS") as [->|Hne].
    + left. exists attempt. cbn. rewrite Hfn, Nat.sub_diag. cbn.
      rewrite app_nil_r. repeat split; [lia | lia | intros j Hj; lia].
    + specialize (IH (S attempt) (payload, status)
                     (sleeps ++ [backoff_delay r attempt status])%list).
      cbn zeta in IH.
      assert (Hhead : forall n, (sleeps ++ [backoff_delay r attempt status])%list
                                ++ delays fn r (S attempt) n
                      = (sleeps ++ delays fn r attempt (S n))%list).
      { intros n. unfold delays. cbn [seq map]. rewrite Hfn. cbn [snd].
        by rewrite <- app_assoc. }
      destruct IH as [(k & Hk & Hs & Hfirst & Hcalls & Hres & Hsl) | (Hall & Hcalls & Hres & Hsl)].
      * left. exists k. repeat split; try done; try lia.
        -- intros j Hj. destruct (decide (j = attempt)) as [->|Hja].
           ++ by rewrite Hfn.
           ++ apply Hfirst. lia.
        -- rewrite Hsl. replace (k - attempt)%nat with (S (k - S attempt)) by lia.
           apply Hhead.
      * right. repeat split.
        -- intros j Hj. destruct (decide (j = attempt)) as [->|Hja].
           ++ by rewrite Hfn.
           ++ apply Hall. lia.
        -- rewrite Hcalls. lia.
        -- rewrite Hres. destruct todo as [|t]; [by rewrite Nat.add_0_r|].
           f_equal. lia.
        -- rewrite Hsl. apply Hhead.
Qed.

Lemma backoff_plain (r : rng) (attempt : nat) (status : string) :
  status <> "BLOCKED_403" ->
  backoff_delay r attempt status
  = ((BACKOFF_BASE_S * (1 + inject_Z (Z.of_nat attempt))) * uniform_08_16 r attempt)%Q.
Proof.
  intros H. unfold backoff_delay.
  by destruct (String.eqb_spec status "BLOCKED_403").
Qed.

(** After a block the plain delay (at most 4 * 1.6 seconds) is below the
    floor, so the floor is what is slept. *)
Lemma backoff_blocked (r : rng) (attempt : nat) :
  (attempt < MAX_RETRIES)%nat ->
  (8 # 10 <= uniform_08_16 r attempt <= 16 # 10)%Q ->
  (0 <= uniform_0_5 r attempt <= 5)%Q ->
  backoff_delay r attempt "BLOCKED_403" = (10 + uniform_0_5 r attempt)%Q /\
  (10 <= backoff_delay r attempt "BLOCKED_403" <= 15)%Q.
Proof.
  intros Ha [Hu1 Hu2] [Hv1 Hv2]. unfold backoff_delay. cbn [String.eqb Ascii.eqb Bool.eqb].
  cbn match.
  set (d := ((BACKOFF_BASE_S * (1 + inject_Z (Z.of_nat attempt))) * uniform_08_16 r attempt)%Q).
  assert (Hd : (d < 10 + uniform_0_5 r attempt)%Q).
  { subst d. unfold MAX_RETRIES, BACKOFF_BASE_S in *.
    destruct attempt as [|[|[|[|?]]]]; [| | | |lia];
      unfold inject_Z;
      match goal with
      | |- context [Z.of_nat ?n] =>
          let v := eval vm_compute in (Z.of_nat n) in change (Z.of_nat n) with v
      end; lra. }
  assert (Hmax : Qmax d (10 + uniform_0_5 r attempt) = (10 + uniform_0_5 r attempt)%Q).
  { unfold Qmax, GenericMinMax.gmax. by rewrite (proj1 (Qlt_alt _ _) Hd). }
  rewrite Hmax. split; [done|]. split; lra.
Qed.

Lemma delays_lookup (fn : nat -> json * string) (r : rng) (n i : nat) (d : Q) :
  delays fn r 0 n !! i = Some d ->
  (i < n)%nat /\ d = backoff_delay r i (snd (fn i)).
Proof.
  unfold delays. rewrite list_lookup_fmap. intros H.
  destruct (seq 0 n !! i) as [j|] eqn:Hj; [|discriminate].
  apply lookup_seq in Hj as [-> Hlt]. cbn in H. split; [done | congruence].
Qed.

(** C4. [with_retries] calls the request at least once and at most
    [MAX_RETRIES] = 4 times; it returns the first [SUCCESS] at once, having
    slept once after each failed attempt before it; when no attempt succeeds
    it returns what the last attempt returned, a failure status, as a value.
    The delay slept after the failed attempt [i] is
    [BACKOFF_BASE_S * (1 + i) * uniform(0.8, 1.6)], except after
    [BLOCKED_403], where it is the larger of that and [10 + uniform(0, 5)],
    that is, [10 + uniform(0, 5)], between 10 and 15 seconds. (The loop
    sleeps after the last failed attempt too.) *)
Theorem with_retries_contract (fn : nat -> json * string) (r : rng)
    (Hu : forall a, (8 # 10 <= uniform_08_16 r a <= 16 # 10)%Q)
    (Hv : forall a, (0 <= uniform_0_5 r a <= 5)%Q) :
  let res := with_retries fn r in
  (1 <= rt_calls res <= MAX_RETRIES)%nat /\
  (forall k, (k < MAX_RETRIES)%nat -> snd (fn k) = "SUCCESS" ->
     (forall j, (j < k)%nat -> snd (fn j) <> "SUCCESS") ->
     rt_calls res = S k /\ (rt_payload res, rt_status res) = fn k /\
     length (rt_sleeps res) = k) /\
  ((forall j, (j < MAX_RETRIES)%nat -> snd (fn j) <> "SUCCESS") ->
     rt_calls res = MAX_RETRIES /\
     (rt_payload res, rt_status res) = fn (MAX_RETRIES - 1)%nat /\
     rt_status res <> "SUCCESS" /\
     length (rt_sleeps res) = MAX_RETRIES) /\
  (forall i d, rt_sleeps res !! i = Some d ->
     (i < rt_calls res)%nat /\
     snd (fn i) <> "SUCCESS" /\
     d = backoff_delay r i (snd (fn i)) /\
     (snd (fn i) <> "BLOCKED_403" ->
        d = ((BACKOFF_BASE_S * (1 + inject_Z (Z.of_nat i))) * uniform_08_16 r i)%Q) /\
     (snd (fn i) = "BLOCKED_403" ->
        d = (10 + uniform_0_5 r i)%Q /\ (10 <= d <= 15)%Q)).
Proof.
  intros res.
  pose proof (retry_loop_spec fn r MAX_RETRIES 0 (JNull, "UNKNOWN") []) as Hspec.
  cbn zeta in Hspec. fold (with_retries fn r) in Hspec. fold res in Hspec.
  rewrite !app_nil_l, !Nat.add_0_l in Hspec.
  assert (Hsleep : forall n i d, (n <= MAX_RETRIES)%nat ->
            (forall j, (j < n)%nat -> snd (fn j) <> "SUCCESS") ->
            delays fn r 0 n !! i = Some d ->
            (i < n)%nat /\ snd (fn i) <> "SUCCESS" /\
            d = backoff_delay r i (snd (fn i)) /\
            (snd (fn i) <> "BLOCKED_403" ->
               d = ((BACKOFF_BASE_S * (1 + inject_Z (Z.of_nat i))) * uniform_08_16 r i)%Q) /\
            (snd (fn i) = "BLOCKED_403" ->
               d = (10 + uniform_0_5 r i)%Q /\ (10 <= d <= 15)%Q)).
  { intros n i d Hn Hfail Hd. apply delays_lookup in Hd as [Hi ->].
    repeat split; try done.
    - by apply Hfail.
    - apply backoff_plain.
    - rewrite H. apply backoff_blocked; [lia | apply Hu | apply Hv].
    - rewrite H. apply backoff_blocked; [lia | apply Hu | apply Hv].
    - rewrite H. apply backoff_blocked; [lia | apply Hu | apply Hv]. }
  destruct Hspec as [(k & Hk & Hs & Hfirst & Hcalls & Hres & Hsl) | (Hall & Hcalls & Hres & Hsl)].
  - rewrite Nat.sub_0_r in Hsl. cbn [app] in Hsl.
    assert (Hfirst' : forall j, (j < k)%nat -> snd (fn j) <> "SUCCESS")
      by (intros j Hj; apply Hfirst; lia).
    repeat apply conj.
    + lia.
    + lia.
    + intros k' Hk' Hs' Hfirst''.
      assert (k' = k) as ->.
      { destruct (Nat.lt_trichotomy k' k) as [Hlt|[->|Hgt]]; [|done|].
        - exfalso. by apply (Hfirst' k').
        - exfalso. by apply (Hfirst'' k). }
      repeat split; [done | by rewrite <- Hres |].
      rewrite Hsl. unfold delays. by rewrite length_map, length_seq.
    + intros Hnone. exfalso. apply (Hnone k); [lia | done].
    + intros i d Hd. rewrite Hsl in Hd.
      destruct (Hsleep k i d) as (Hi & ?); [lia | done | done |].
      split; [lia | done].
  - cbn [app] in Hsl. repeat apply conj.
    + unfold MAX_RETRIES in *. lia.
    + lia.
    + intros k Hk Hs _. exfalso. apply (Hall k); [lia | done].
    + intros _. cbn in Hres.
      pose proof (Hall 3%nat ltac:(unfold MAX_RETRIES; lia)) as H3.
      split; [done|]. split; [done|]. split.
      * by rewrite <- Hres in H3.
      * rewrite Hsl. unfold delays. by rewrite length_map, length_seq.
    + intros i d Hd. rewrite Hsl in Hd.
      destruct (Hsleep MAX_RETRIES i d) as (Hi & ?); [lia | intros j Hj; apply Hall; lia | done |].
      split; [lia | done].
Qed.

(** A fetch returns what one of its at most [MAX_RETRIES] requests
    returned. *)
Lemma retrying_server_response (http : nat -> string -> Z -> nat -> http_outcome)
    (draws : nat -> rng) (n : nat) (brand : string) (skip : Z) :
  exists k, (k < MAX_RETRIES)%nat /\
    retrying_server http draws n brand skip = request_json (http n brand skip k).
Proof.
  unfold retrying_server, fetch_search_page, with_retries.
  destruct (retry_loop_spec (fun k => request_json (http n brand skip k)) (draws n)
              MAX_RETRIES 0 (JNull, "UNKNOWN") [])
    as [(k & Hk & _ & _ & _ & Hres & _) | (_ & _ & Hres & _)]; cbn zeta.
  - exists k. split; [lia | exact Hres].
  - exists 3%nat. split; [unfold MAX_RETRIES; lia | exact Hres].
Qed.

Lemma sample_rng_in_range :
  (forall a, (8 # 10 <= uniform_08_16 sample_rng a <= 16 # 10)%Q) /\
  (forall a, (0 <= uniform_0_5 sample_rng a <= 5)%Q).
Proof. split; intros a; cbn; split; by vm_compute. Qed.

(** The contract at a closure blocked twice before it succeeds: three
    calls. *)
Lemma with_retries_contract_witness :
  (1 <= rt_calls (with_retries sample_fn sample_rng) <= MAX_RETRIES)%nat.
Proof.
  exact (proj1 (with_retries_contract sample_fn sample_rng
                  (proj1 sample_rng_in_range) (proj2 sample_rng_in_range))).
Defined.

Example with_retries_sample :
  rt_calls (with_retries sample_fn sample_rng) = 3%nat /\
  rt_status (with_retries sample_fn sample_rng) = "SUCCESS" /\
  rt_sleeps (with_retries sample_fn sample_rng) = [12%Q; 12%Q].
Proof. by vm_compute. Qed.

(** ** The image downloader *)

Lemma string_length_append (a b : string) :
  String.length (a ++ b)%string = (String.length a + String.length b)%nat.
Proof. induction a as [|c a IH]; [done|]. simpl. by rewrite IH. Qed.

Lemma image_tmp_path_fresh (sku : string) : image_tmp_path sku <> image_local_path sku.
Proof.
  unfold image_tmp_path. intros H. apply (f_equal String.length) in H.
  rewrite string_length_append in H. cbn in H. lia.
Qed.



Example download_image_fresh :
  let out := download_image_if_needed sample_download "https://img/8.jpg" "8" sample_io in
  fst out = (true, "images/iga/8.jpg", "iga/8.jpg") /\
  io_fs (snd out) !! "images/iga/8.jpg" = Some "JFIFdata" /\
  io_fs (snd out) !! "images/iga/8.jpg.part" = None /\
  io_calls (snd out) = 1%nat.
Proof. by vm_compute. Qed.

(** A 404 answer writes nothing: the files, a temporary file left by an
    earlier interrupted process among them, stay as they were. *)
Example download_image_not_found :
  let env := {| resp_code := 404; resp_chunks := []; dl_fault := NoFault |} in
  let st := {| io_fs := {[ image_tmp_path "9" := "half" ]}; io_calls := 0 |} in
  let out := download_image_if_needed env "https://img/9.jpg" "9" st in
  fst out = (false, "", "") /\ io_fs (snd out) = io_fs st /\ io_calls (snd out) = 1%nat.
Proof. by vm_compute. Qed.

(** ** Strings *)

Lemma is_space_lower (c : ascii) : is_space (lower_char c) = is_space c.
Proof. destruct c as [[] [] [] [] [] [] [] []]; reflexivity. Qed.

Lemma is_space_upper (c : ascii) : is_space (upper_char c) = is_space c.
Proof. destruct c as [[] [] [] [] [] [] [] []]; reflexivity. Qed.

Lemma lower_lower (c : ascii) : lower_char (lower_char c) = lower_char c.
Proof. destruct c as [[] [] [] [] [] [] [] []]; reflexivity. Qed.

Lemma lower_upper (c : ascii) : lower_char (upper_char c) = lower_char c.
Proof. destruct c as [[] [] [] [] [] [] [] []]; reflexivity. Qed.

Lemma rstrip_cons_char (c : ascii) (r : list ascii) :
  is_space c = false -> rstrip_chars (c :: r) = c :: rstrip_chars r.
Proof. intros Hc. cbn. rewrite Hc. by destruct (rstrip_chars r). Qed.

Lemma rstrip_cons_space (c : ascii) (r : list ascii) :
  is_space c = true ->
  rstrip_chars (c :: r) = match rstrip_chars r with [] => [] | r' => c :: r' end.
Proof. intros Hc. cbn. by rewrite Hc. Qed.

Lemma rstrip_idem (l : list ascii) : rstrip_chars (rstrip_chars l) = rstrip_chars l.
Proof.
  induction l as [|c r IH]; [done|].
  destruct (is_space c) eqn:Hc.
  - rewrite (rstrip_cons_space c r Hc).
    destruct (rstrip_chars r) as [|d r'] eqn:Hr; [done|].
    rewrite (rstrip_cons_space c _ Hc), IH. done.
  - rewrite (rstrip_cons_char c r Hc), (rstrip_cons_char c _ Hc). by rewrite IH.
Qed.

Lemma lstrip_head (l : list ascii) :
  lstrip_chars l = [] \/ exists c r, lstrip_chars l = c :: r /\ is_space c = false.
Proof.
  induction l as [|c r IH]; [by left|]. cbn.
  destruct (is_space c) eqn:Hc; [done|]. right. by exists c, r.
Qed.

Lemma strip_chars_idem (l : list ascii) : strip_chars (strip_chars l) = strip_chars l.
Proof.
  unfold strip_chars.
  destruct (lstrip_head l) as [->|(c & r & -> & Hc)]; [done|].
  rewrite (rstrip_cons_char c r Hc). cbn [lstrip_chars]. rewrite Hc.
  rewrite <- (rstrip_cons_char c r Hc). apply rstrip_idem.
Qed.

(** The three parts of the one-pass reading of [norm_key], by induction on
    what follows a character. *)
Lemma collapse_rstrip (r : list ascii) :
  (rstrip_chars r = [] -> squeeze_from true r = [] /\ squeeze_from false r = []) /\
  collapse_ws false (map lower_char (rstrip_chars r)) = squeeze_from false r /\
  (rstrip_chars r <> [] ->
     " "%char :: collapse_ws true (map lower_char (rstrip_chars r)) = squeeze_from true r).
Proof.
  induction r as [|c r (IH1 & IH2 & IH3)]; [done|].
  destruct (is_space c) eqn:Hc.
  - rewrite (rstrip_cons_space c r Hc). cbn [squeeze_from]. rewrite Hc.
    destruct (rstrip_chars r) as [|d r'] eqn:Hr.
    + destruct (IH1 eq_refl) as [E1 E2]. by rewrite E1.
    + split; [done|].
      assert (Hne : d :: r' <> []) by done. specialize (IH3 Hne).
      cbn [map collapse_ws]. rewrite is_space_lower, Hc.
      split; [exact IH3 | intros _; exact IH3].
  - rewrite (rstrip_cons_char c r Hc). cbn [squeeze_from map collapse_ws].
    rewrite is_space_lower, Hc, IH2. done.
Qed.

Lemma norm_chars_squeeze (l : list ascii) :
  collapse_ws false (map lower_char (strip_chars l)) = squeeze l.
Proof.
  unfold strip_chars. induction l as [|c r IH]; [done|]. cbn [lstrip_chars squeeze].
  destruct (is_space c) eqn:Hc; [done|].
  rewrite (rstrip_cons_char c r Hc). cbn [map collapse_ws].
  rewrite is_space_lower, Hc. f_equal. apply collapse_rstrip.
Qed.

Lemma norm_key_squeeze (s : string) :
  norm_key s = string_of_list_ascii (squeeze (list_ascii_of_string s)).
Proof.
  unfold norm_key, sub_ws, lower, strip, on_chars.
  rewrite !list_ascii_of_string_of_list_ascii. by rewrite norm_chars_squeeze.
Qed.

Lemma strip_idem (s : string) : strip (strip s) = strip s.
Proof.
  unfold strip, on_chars. rewrite list_ascii_of_string_of_list_ascii.
  by rewrite strip_chars_idem.
Qed.

(** *** What [norm_key] does not see: case and the amount of whitespace *)

Lemma squeeze_from_map (f : ascii -> ascii) (p : bool) (l : list ascii) :
  (forall c, is_space (f c) = is_space c /\ lower_char (f c) = lower_char c) ->
  squeeze_from p (map f l) = squeeze_from p l.
Proof.
  intros Hf. revert p. induction l as [|c r IH]; intros p; [done|]. cbn.
  destruct (Hf c) as [-> ->]. rewrite !IH. done.
Qed.

Lemma squeeze_map (f : ascii -> ascii) (l : list ascii) :
  (forall c, is_space (f c) = is_space c /\ lower_char (f c) = lower_char c) ->
  squeeze (map f l) = squeeze l.
Proof.
  intros Hf. induction l as [|c r IH]; [done|]. cbn.
  destruct (Hf c) as [-> ->]. by rewrite IH, squeeze_from_map.
Qed.

Lemma squeeze_from_blank (p : bool) (w : list ascii) :
  blank_chars w -> squeeze_from p w = [].
Proof.
  intros Hw. revert p. induction Hw as [|c w Hc _ IH]; intros p; [done|].
  cbn. by rewrite Hc.
Qed.

Lemma squeeze_from_blank_app (p : bool) (w l : list ascii) :
  blank_chars w -> w <> [] -> squeeze_from p (w ++ l) = squeeze_from true l.
Proof.
  intros Hw. revert p. induction Hw as [|c w Hc Hw IH]; intros p Hne; [done|].
  cbn. rewrite Hc. destruct w as [|d w]; [done|]. by apply IH.
Qed.

Lemma squeeze_blank_app (w l : list ascii) :
  blank_chars w -> squeeze (w ++ l) = squeeze l.
Proof. intros Hw. induction Hw as [|c w Hc _ IH]; [done|]. cbn. by rewrite Hc. Qed.

Lemma squeeze_from_app_blank (p : bool) (l w : list ascii) :
  blank_chars w -> squeeze_from p (l ++ w) = squeeze_from p l.
Proof.
  intros Hw. revert p. induction l as [|c r IH]; intros p.
  - cbn. by apply squeeze_from_blank.
  - cbn. by rewrite !IH.
Qed.

Lemma squeeze_app_blank (l w : list ascii) :
  blank_chars w -> squeeze (l ++ w) = squeeze l.
Proof.
  intros Hw. induction l as [|c r IH].
  - cbn. rewrite <- (app_nil_r w). by rewrite squeeze_blank_app.
  - cbn. by rewrite IH, squeeze_from_app_blank.
Qed.

Lemma squeeze_from_inner (p : bool) (a w1 w2 b : list ascii) :
  blank_chars w1 -> blank_chars w2 -> w1 <> [] -> w2 <> [] ->
  squeeze_from p (a ++ w1 ++ b) = squeeze_from p (a ++ w2 ++ b).
Proof.
  intros H1 H2 N1 N2. revert p. induction a as [|c r IH]; intros p.
  - cbn. by rewrite !squeeze_from_blank_app.
  - cbn. by rewrite !IH.
Qed.

Lemma squeeze_inner (a w1 w2 b : list ascii) :
  blank_chars w1 -> blank_chars w2 -> w1 <> [] -> w2 <> [] ->
  squeeze (a ++ w1 ++ b) = squeeze (a ++ w2 ++ b).
Proof.
  intros H1 H2 N1 N2. induction a as [|c r IH].
  - cbn. by rewrite !squeeze_blank_app.
  - cbn. rewrite IH. by rewrite (squeeze_from_inner false r w1 w2 b).
Qed.

Lemma chars_append (a b : string) :
  list_ascii_of_string (a ++ b)%string = list_ascii_of_string a ++ list_ascii_of_string b.
Proof. induction a as [|c a IH]; [done|]. simpl. by rewrite IH. Qed.

Lemma chars_nonempty (s : string) : s <> "" -> list_ascii_of_string s <> [].
Proof. by destruct s. Qed.

Lemma norm_key_lower (s : string) : norm_key (lower s) = norm_key s.
Proof.
  rewrite !norm_key_squeeze. unfold lower, on_chars.
  rewrite list_ascii_of_string_of_list_ascii. f_equal. apply squeeze_map.
  intros c. split; [apply is_space_lower | apply lower_lower].
Qed.

Lemma norm_key_upper (s : string) : norm_key (upper s) = norm_key s.
Proof.
  rewrite !norm_key_squeeze. unfold upper, on_chars.
  rewrite list_ascii_of_string_of_list_ascii. f_equal. apply squeeze_map.
  intros c. split; [apply is_space_upper | apply lower_upper].
Qed.

Lemma norm_key_padding (w1 s w2 : string) :
  blank w1 -> blank w2 -> norm_key (w1 ++ s ++ w2)%string = norm_key s.
Proof.
  intros H1 H2. rewrite !norm_key_squeeze, !chars_append. f_equal.
  rewrite squeeze_blank_app by done. by apply squeeze_app_blank.
Qed.

Lemma norm_key_inner (a w1 w2 b : string) :
  blank w1 -> blank w2 -> w1 <> "" -> w2 <> "" ->
  norm_key (a ++ w1 ++ b)%string = norm_key (a ++ w2 ++ b)%string.
Proof.
  intros H1 H2 N1 N2. rewrite !norm_key_squeeze, !chars_append. f_equal.
  apply squeeze_inner; auto using chars_nonempty.
Qed.

Example norm_key_sample :
  norm_key "  Coca   COLA " = "coca cola" /\ norm_key "coca cola" = "coca cola" /\
  strip "  Coca   COLA " = "Coca   COLA".
Proof. by vm_compute. Qed.

(** ** The brand list loader *)

Lemma find_first {A : Type} (P : A -> bool) (l : list A) (x : A) :
  find P l = Some x ->
  exists i, l !! i = Some x /\ P x = true /\
            forall j y, (j < i)%nat -> l !! j = Some y -> P y = false.
Proof.
  induction l as [|a l IH]; [done|]. cbn.
  destruct (P a) eqn:Ha.
  - intros [= ->]. exists 0%nat. repeat split; [done|]. intros j y Hj. lia.
  - intros Hx. destruct (IH Hx) as (i & Hi & HP & Hbefore).
    exists (S i). repeat split; [done | done |].
    intros [|j] y Hj Hy; cbn in Hy; [by simplify_eq|]. apply (Hbefore j); [lia | done].
Qed.

(** What the deduplicating loop appends to [out]: a sublist of the brands it
    is given, with pairwise distinct keys outside [seen], that represents
    every key and holds, for each key, its first bearer. *)
Lemma dedupe_brands_spec (l : list string) :
  forall seen out, exists kept,
    dedupe_brands l seen out = out ++ kept /\
    sublist kept l /\
    NoDup (map norm_key kept) /\
    (forall b, b ∈ kept -> norm_key b ∉ seen) /\
    (forall v, v ∈ l -> norm_key v ∈ seen \/ exists b, b ∈ kept /\ norm_key b = norm_key v) /\
    (forall b, b ∈ kept -> exists i, l !! i = Some b /\
       forall j v, (j < i)%nat -> l !! j = Some v -> norm_key v <> norm_key b).
Proof.
  induction l as [|a l IH]; intros seen out.
  - exists []. cbn. rewrite app_nil_r. split_and!.
    + done.
    + done.
    + constructor.
    + intros b Hb. by apply elem_of_nil in Hb.
    + intros v Hv. by apply elem_of_nil in Hv.
    + intros b Hb. by apply elem_of_nil in Hb.
  - cbn [dedupe_brands]. destruct (decide (norm_key a ∈ seen)) as [Hin|Hnin].
    + destruct (IH seen out) as (kept & -> & Hsub & Hnd & Hout & Hrep & Hfirst).
      exists kept. split_and!.
      * done.
      * by apply sublist_cons.
      * done.
      * done.
      * intros v [->|Hv]%elem_of_cons; [by left | by apply Hrep].
      * intros b Hb. destruct (Hfirst b Hb) as (i & Hi & Hbefore).
        exists (S i). split; [done|].
        intros [|j] v Hj Hv; cbn in Hv.
        -- simplify_eq. intros E. apply (Hout b Hb). by rewrite <- E.
        -- apply (Hbefore j); [lia | done].
    + destruct (IH ({[norm_key a]} ∪ seen) (out ++ [a]))
        as (kept & -> & Hsub & Hnd & Hout & Hrep & Hfirst).
      exists (a :: kept). split_and!.
      * by rewrite <- app_assoc.
      * by apply sublist_skip.
      * cbn. apply NoDup_cons. split; [|done].
        intros (b & Hb & Hbk)%list_elem_of_fmap.
        apply (Hout b Hbk). rewrite <- Hb. set_solver.
      * intros b [->|Hb]%elem_of_cons; [done|].
        intros Hs. apply (Hout b Hb). set_solver.
      * intros v [->|Hv]%elem_of_cons.
        -- right. exists a. split; [apply list_elem_of_here | done].
        -- destruct (Hrep v Hv) as [[Hs|Hs]%elem_of_union | (b & Hb & E)].
           ++ apply elem_of_singleton in Hs. right. exists a.
              split; [apply list_elem_of_here | done].
           ++ by left.
           ++ right. exists b. split; [by apply list_elem_of_further | done].
      * intros b [->|Hb]%elem_of_cons.
        -- exists 0%nat. split; [done|]. intros j v Hj. lia.
        -- destruct (Hfirst b Hb) as (i & Hi & Hbefore).
           exists (S i). split; [done|].
           intros [|j] v Hj Hv; cbn in Hv.
           ++ simplify_eq. intros E. apply (Hout b Hb). rewrite <- E. set_solver.
           ++ apply (Hbefore j); [lia | done].
Qed.

(** Brands with pairwise distinct unseen keys are all kept, in order. *)
Lemma dedupe_brands_distinct (l : list string) :
  forall seen out,
    NoDup (map norm_key l) -> (forall b, b ∈ l -> norm_key b ∉ seen) ->
    dedupe_brands l seen out = out ++ l.
Proof.
  induction l as [|a l IH]; intros seen out Hnd Hout; cbn.
  - by rewrite app_nil_r.
  - cbn in Hnd. apply NoDup_cons in Hnd as [Ha Hnd].
    destruct (decide (norm_key a ∈ seen)) as [Hin|_].
    + exfalso. apply (Hout a); [apply list_elem_of_here | done].
    + rewrite IH; [by rewrite <- app_assoc | done |].
      intros b Hb [Hs|Hs]%elem_of_union.
      * apply elem_of_singleton in Hs. apply Ha. rewrite <- Hs.
        apply list_elem_of_fmap. by exists b.
      * apply (Hout b); [by apply list_elem_of_further | done].
Qed.

Lemma brand_values_elem (cells : list (option string)) (v : string) :
  v ∈ brand_values cells <-> v <> "" /\ exists s, Some s ∈ cells /\ v = strip s.
Proof.
  unfold brand_values. rewrite list_elem_of_filter, list_elem_of_fmap.
  split.
  - intros (Hv & s & -> & Hs). split; [done|]. exists s. split; [|done].
    apply list_elem_of_omap in Hs as (o & Ho & Hid). cbn in Hid. by subst.
  - intros (Hv & s & Hs & ->). split; [done|]. exists s. split; [done|].
    apply list_elem_of_omap. by exists (Some s).
Qed.

(** Values that are stripped and not blank pass [brand_values] unchanged. *)
Lemma omap_id_Some {A : Type} (l : list A) : omap id (map Some l) = l.
Proof. induction l as [|a l IH]; [done|]. cbn. by f_equal. Qed.

Lemma brand_values_fixed (l : list string) :
  (forall b, b ∈ l -> strip b = b /\ b <> "") ->
  brand_values (map Some l) = l.
Proof.
  unfold brand_values. rewrite omap_id_Some.
  induction l as [|a l IH]; intros H; [done|].
  destruct (H a (list_elem_of_here _ _)) as [Hs Hne].
  change (map strip (a :: l)) with (strip a :: map strip l).
  rewrite Hs. rewrite filter_cons_True by done. f_equal.
  apply IH. intros b Hb. apply H. by apply list_elem_of_further.
Qed.

Lemma brand_column_single (c : column) : brand_column [c] = Returns c.
Proof.
  unfold brand_column.
  destruct (find (has_column [c]) BRAND_COLUMN_CANDIDATES) as [name|] eqn:Hf; [|done].
  apply find_some in Hf as [_ Hhas]. unfold has_column in Hhas. cbn in Hhas.
  rewrite orb_false_r in Hhas. unfold df_column. cbn. by rewrite Hhas.
Qed.


Example load_brands_sample :
  load_brands_from_csv sample_frame = Returns ["Coca  Cola"; "Arnott's"] /\
  load_brands_from_csv [] = Raises.
Proof. by vm_compute. Qed.

(** ** The scraper: properties kept by every step *)

Section Stable.
Context {RT : Runtime}.
Variable run_id : string.
Variable P : world -> Prop.
Hypothesis P_autosave : forall bi w, P w -> P (autosave run_id bi w).
Hypothesis P_set_brand : forall bkey st w, P w -> P (set_brand bkey st w).
Hypothesis P_process_item : forall brand w it, P w -> P (process_item run_id brand w it).
Hypothesis P_count_fetch : forall w, P w -> P (count_fetch w).

Lemma process_items_stable (brand : string) (items : list json) (w : world) :
  P w -> P (process_items run_id brand items w).
Proof.
  unfold process_items. revert w.
  induction items as [|it items IH]; intros w Hw; [done|].
  cbn. apply IH. by apply P_process_item.
Qed.

Lemma paginate_stable (srv : server) (bi : Z) (brand bkey : string) (fuel : nat) :
  forall skip total page_count w r,
    P w ->
    paginate srv run_id bi brand bkey fuel skip total page_count w = Some r ->
    P (paged_world r).
Proof.
  induction fuel as [|fuel IH]; intros skip total page_count w r Hw; [done|].
  cbn [paginate].
  destruct (srv (fetches w) brand skip) as [payload status].
  destruct (negb (truthy payload) || negb (String.eqb status "SUCCESS")).
  { intros [= <-]. cbn. auto. }
  destruct (match total with JNull => extract_total payload | _ => Returns total end)
    as [total'|]; [|intros [= <-]; cbn; auto].
  destruct (extract_items payload) as [[|it items]|]; [| |intros [= <-]; cbn; auto].
  { intros [= <-]. cbn. auto. }
  set (w1 := process_items run_id brand (it :: items) (count_fetch w)).
  assert (Hw1 : P w1) by (apply process_items_stable; auto).
  set (w2 := set_brand bkey _ w1). assert (Hw2 : P w2) by (apply P_set_brand; auto).
  set (w3 := if _ =? 0 then autosave run_id bi w2 else w2).
  assert (Hw3 : P w3) by (subst w3; destruct (_ =? 0); auto).
  destruct (Z.of_nat (length (it :: items)) <? TAKE); [intros [= <-]; cbn; auto|].
  destruct (total_reached total' (skip + TAKE)); [intros [= <-]; cbn; auto|].
  by apply IH.
Qed.

Lemma brand_step_stable (srv : server) (last : Z) (fuel : nat) (bi : Z) (brand : string)
    (w : world) (r : stepped) :
  P w -> brand_step srv run_id last fuel bi brand w = Some r -> P (stepped_world r).
Proof.
  intros Hw. unfold brand_step.
  destruct (bi <=? last); [by intros [= <-]|].
  destruct (String.eqb (strip brand) ""); [intros [= <-]; cbn; auto|].
  destruct (bs_done _); [intros [= <-]; cbn; auto|].
  destruct (paginate _ _ _ _ _ _ _ _ _ _) as [[e w'|w']|] eqn:Hp; [| |done].
  - apply paginate_stable in Hp; [|done]. intros [= <-]. cbn in *.
    destruct (_ =? 0); auto.
  - apply paginate_stable in Hp; [|done]. by intros [= <-].
Qed.

Lemma brands_loop_stable (srv : server) (last : Z) (fuel : nat)
    (ibrands : list (Z * string)) :
  forall w r,
    P w -> brands_loop srv run_id last fuel ibrands w = Some r -> P (stepped_world r).
Proof.
  induction ibrands as [|[bi brand] rest IH]; intros w r Hw; cbn [brands_loop].
  - by intros [= <-].
  - destruct (brand_step srv run_id last fuel bi brand w) as [[w'|w']|] eqn:Hs; [| |done].
    + apply brand_step_stable in Hs; [|done]. by apply IH.
    + apply brand_step_stable in Hs; [|done]. by intros [= <-].
Qed.

End Stable.

(** ** The run document *)

Section RunDocument.
Context {RT : Runtime}.

Lemma init_run_progress_file (run_id : string) (n : Z) (file : run_doc) :
  rd_run_id (snd (init_run_progress run_id n file)) = Some run_id.
Proof.
  unfold init_run_progress.
  destruct (bool_decide (rd_status file = Some "RUNNING")); [|done].
  by destruct (bool_decide_reflect (rd_run_id file = Some run_id)).
Qed.

Lemma names_run_autosave (run_id : string) (bi : Z) (w : world) :
  names_run run_id w -> names_run run_id (autosave run_id bi w).
Proof.
  unfold names_run, autosave. intros H. cbn.
  by destruct (bool_decide (rd_run_id (run_progress_json w) = Some run_id)).
Qed.

Lemma names_run_process_item (run_id brand : string) (w : world) (it : json) :
  names_run run_id w -> names_run run_id (process_item run_id brand w it).
Proof.
  unfold names_run, process_item. intros H.
  destruct (String.eqb _ ""); [done|]. by destruct (decide _).
Qed.

Lemma brands_loop_names_run (srv : server) (run_id : string) (last : Z) (fuel : nat)
    (ibrands : list (Z * string)) (w : world) (r : stepped) :
  names_run run_id w ->
  brands_loop srv run_id last fuel ibrands w = Some r ->
  names_run run_id (stepped_world r).
Proof.
  apply (brands_loop_stable run_id (names_run run_id)).
  - apply names_run_autosave.
  - done.
  - intros brand w' it. apply names_run_process_item.
  - done.
Qed.

(** C6. [load_or_create_run_id] returns the run id of the persisted run
    document when that document has status [RUNNING] and a non-empty run id
    (so [snapshot_paths] names the same files again), and a stamp of the
    current time in every other case. When the brand loop has run through
    all brands without an exception, the invocation finishes, and the run
    document it leaves for that run id has status [DONE] and the current
    time as [finished_at] (the image pass and the CSV rebuild that stand
    between the loop and [mark_run_done] are taken to return). *)
Theorem run_id_lifecycle :
  (forall rp id, rd_status rp = Some "RUNNING" -> rd_run_id rp = Some id -> id <> "" ->
     load_or_create_run_id rp = id /\
     snapshot_paths (load_or_create_run_id rp) = snapshot_paths id) /\
  (forall rp, ~ (rd_status rp = Some "RUNNING" /\ exists id, rd_run_id rp = Some id /\ id <> "") ->
     load_or_create_run_id rp = now_stamp) /\
  (forall run_id file, rd_run_id file = Some run_id ->
     rd_status (mark_run_done run_id file) = Some "DONE" /\
     rd_finished_at (mark_run_done run_id file) = Some now_ts /\
     rd_run_id (mark_run_done run_id file) = Some run_id) /\
  (forall srv fuel brands d,
     let run_id := load_or_create_run_id (disk_run_progress d) in
     let started := init_run_progress run_id (Z.of_nat (length brands)) (disk_run_progress d) in
     let last := default (-1) (rd_last_brand_index (fst started)) in
     forall w0,
       brands_loop srv run_id last fuel (enumerate brands) (start_world (snd started) d)
         = Some (Continues w0) ->
       exists w, scrape_weekly_snapshot_by_brands srv fuel brands d = Some (Finished w) /\
         rd_status (run_progress_json w) = Some "DONE" /\
         rd_run_id (run_progress_json w) = Some run_id /\
         rd_finished_at (run_progress_json w) = Some now_ts) /\
  (forall srv fuel brands d w,
     scrape_weekly_snapshot_by_brands srv fuel brands d = Some (Finished w) ->
     rd_status (run_progress_json w) = Some "DONE" /\
     rd_run_id (run_progress_json w) = Some (load_or_create_run_id (disk_run_progress d)) /\
     rd_finished_at (run_progress_json w) = Some now_ts).
Proof.
  assert (Hdone : forall run_id file, rd_run_id file = Some run_id ->
            rd_status (mark_run_done run_id file) = Some "DONE" /\
            rd_finished_at (mark_run_done run_id file) = Some now_ts /\
            rd_run_id (mark_run_done run_id file) = Some run_id).
  { intros run_id file Hid. unfold mark_run_done.
    destruct (bool_decide_reflect (rd_run_id file = Some run_id)); [done|contradiction]. }
  assert (Hloop : forall srv fuel brands d w0,
            let run_id := load_or_create_run_id (disk_run_progress d) in
            let started := init_run_progress run_id (Z.of_nat (length brands))
                             (disk_run_progress d) in
            brands_loop srv run_id (default (-1) (rd_last_brand_index (fst started))) fuel
              (enumerate brands) (start_world (snd started) d) = Some (Continues w0) ->
            names_run run_id w0).
  { intros srv fuel brands d w0 run_id started Hl.
    assert (H0 : names_run run_id (start_world (snd started) d))
      by apply init_run_progress_file.
    apply (brands_loop_names_run _ _ _ _ _ _ _ H0 Hl). }
  split_and!.
  - intros rp id Hs Hid Hne. unfold load_or_create_run_id. rewrite Hs, Hid. cbn.
    destruct (String.eqb_spec id ""); [contradiction|]. done.
  - intros rp Hnot. unfold load_or_create_run_id.
    destruct (rd_status rp) as [status|]; [|done].
    destruct (rd_run_id rp) as [id|]; [|done].
    destruct (String.eqb_spec status "RUNNING") as [->|]; [|done].
    destruct (String.eqb_spec id "") as [->|Hne]; [done|].
    exfalso. apply Hnot. split; [done|]. by exists id.
  - exact Hdone.
  - intros srv fuel brands d run_id started last w0 Hl.
    specialize (Hloop srv fuel brands d w0 Hl).
    exists (finish_run run_id w0). split.
    + unfold scrape_weekly_snapshot_by_brands. fold run_id. fold started.
      destruct started as [rp file]. cbn [fst snd] in *. subst last. by rewrite Hl.
    + cbn. destruct (Hdone run_id (run_progress_json w0) Hloop) as (? & ? & ?).
      by split_and!.
  - intros srv fuel brands d w. unfold scrape_weekly_snapshot_by_brands.
    set (run_id := load_or_create_run_id (disk_run_progress d)).
    pose proof (Hloop srv fuel brands d) as Hl. cbn zeta in Hl. fold run_id in Hl.
    destruct (init_run_progress run_id _ _) as [rp file]. cbn [fst snd] in Hl.
    destruct (brands_loop _ _ _ _ _ _) as [[w0|w0]|]; [|done|done].
    intros [= <-]. cbn.
    destruct (Hdone run_id (run_progress_json w0) (Hl w0 eq_refl)) as (? & ? & ?).
    by split_and!.
Qed.

End RunDocument.

Example run_lifecycle_sample :
  exists w,
    scrape_weekly_snapshot_by_brands (RT := sample_runtime) sample_server 5
      ["Acme"; "Bolt"] empty_disk = Some (Finished w) /\
    rd_status (run_progress_json w) = Some "DONE" /\
    rd_run_id (run_progress_json w) = Some "20250106_090000" /\
    rd_finished_at (run_progress_json w) = Some "2025-01-06 09:00:00" /\
    rd_last_brand_index (run_progress_json w) = Some 1 /\
    fetches w = 2%nat /\
    length (rows w) = 3%nat.
Proof. eexists. split; [by vm_compute|]. by vm_compute. Qed.

(** ** Resume at the brand index *)

Section Resume.
Context {RT : Runtime}.

Lemma brand_step_skipped (srv : server) (run_id : string) (last : Z) (fuel : nat)
    (bi : Z) (brand : string) (w : world) :
  bi <= last -> brand_step srv run_id last fuel bi brand w = Some (Continues w).
Proof. intros H. unfold brand_step. by destruct (Z.leb_spec bi last); [|lia]. Qed.

Lemma brands_loop_skip_prefix (srv : server) (run_id : string) (last : Z) (fuel : nat)
    (skipped rest : list (Z * string)) (w : world) :
  (forall bi brand, (bi, brand) ∈ skipped -> bi <= last) ->
  brands_loop srv run_id last fuel (skipped ++ rest) w
  = brands_loop srv run_id last fuel rest w.
Proof.
  induction skipped as [|[bi brand] skipped IH]; intros H; [done|].
  cbn [app brands_loop]. rewrite brand_step_skipped.
  - apply IH. intros bi' brand' Hin. apply (H bi' brand'). by apply list_elem_of_further.
  - apply (H bi brand). apply list_elem_of_here.
Qed.

Lemma enumerate_lookup (brands : list string) (i : nat) (bi : Z) (brand : string) :
  enumerate brands !! i = Some (bi, brand) -> bi = Z.of_nat i /\ brands !! i = Some brand.
Proof.
  unfold enumerate. rewrite list_lookup_imap.
  destruct (brands !! i) as [b|]; cbn; [|done]. by intros [= <- <-].
Qed.

(** C5. On resume (the persisted run document is [RUNNING] and names a run
    id) the brand loop uses the [last_brand_index] of that document and
    nothing else to decide what to skip: a brand whose index is at most that
    value is passed over with no fetch and no change of any state, whatever
    its own entry in the brand progress says (done or not), so the
    invocation is the one that runs the remaining brands only. *)
Theorem resume_skips_by_run_index (srv : server) (fuel : nat) (brands : list string)
    (d : disk) (run_id : string) (k : Z)
    (Hstatus : rd_status (disk_run_progress d) = Some "RUNNING")
    (Hid : rd_run_id (disk_run_progress d) = Some run_id)
    (Hne : run_id <> "")
    (Hlast : rd_last_brand_index (disk_run_progress d) = Some k) :
  (forall fuel' bi brand w, bi <= k ->
     brand_step srv run_id k fuel' bi brand w = Some (Continues w)) /\
  scrape_weekly_snapshot_by_brands srv fuel brands d
  = match brands_loop srv run_id k fuel (drop (Z.to_nat (k + 1)) (enumerate brands))
            (start_world (disk_run_progress d) d) with
    | None => None
    | Some (Aborts w) => Some (Failed (autosave run_id k w))
    | Some (Continues w) => Some (Finished (finish_run run_id w))
    end.
Proof.
  split; [intros; by apply brand_step_skipped|].
  unfold scrape_weekly_snapshot_by_brands, load_or_create_run_id, init_run_progress.
  rewrite Hstatus, Hid. cbn [String.eqb Ascii.eqb Bool.eqb andb].
  destruct (String.eqb_spec run_id ""); [contradiction|]. cbn [negb].
  rewrite !bool_decide_eq_true_2 by done. cbn [andb].
  rewrite Hlast. cbn [default from_option]. unfold id.
  rewrite <- (take_drop (Z.to_nat (k + 1)) (enumerate brands)) at 1.
  rewrite brands_loop_skip_prefix; [done|].
  intros bi brand Hin. apply list_elem_of_lookup in Hin as [i Hi].
  apply lookup_take_Some in Hi as [Hi Hlt].
  apply enumerate_lookup in Hi as [-> _]. lia.
Qed.

End Resume.

(** The resume at a run interrupted after brand 0 was checkpointed, with
    that brand's own entry not done. *)
Lemma resume_skips_by_run_index_witness :
  scrape_weekly_snapshot_by_brands (RT := sample_runtime) sample_server 5
    ["Acme"; "Bolt"] sample_resume_disk
  = match brands_loop (RT := sample_runtime) sample_server "20250101_000000" 0 5
            (drop (Z.to_nat (0 + 1)) (enumerate ["Acme"; "Bolt"]))
            (start_world (disk_run_progress sample_resume_disk) sample_resume_disk) with
    | None => None
    | Some (Aborts w) => Some (Failed (autosave (RT := sample_runtime) "20250101_000000" 0 w))
    | Some (Continues w) => Some (Finished (finish_run (RT := sample_runtime) "20250101_000000" w))
    end.
Proof.
  apply (resume_skips_by_run_index (RT := sample_runtime) sample_server 5 ["Acme"; "Bolt"]
           sample_resume_disk "20250101_000000" 0);
    [reflexivity | reflexivity | discriminate | reflexivity].
Defined.

(** In that run the unfinished brand is never fetched: one fetch is made,
    for the other brand, and the entry of the skipped brand stays as it was,
    not done. *)
Example resume_sample :
  exists w,
    scrape_weekly_snapshot_by_brands (RT := sample_runtime) sample_server 5
      ["Acme"; "Bolt"] sample_resume_disk = Some (Finished w) /\
    fetches w = 1%nat /\
    bp w !! "acme" = disk_brand_progress sample_resume_disk !! "acme" /\
    (bs_done <$> bp w !! "acme") = Some false /\
    (bs_done <$> bp w !! "bolt") = Some true /\
    rd_status (run_progress_json w) = Some "DONE".
Proof. eexists. split; [by vm_compute|]. by vm_compute. Qed.

(** ** Deduplication by SKU *)

Section Dedup.
Context {RT : Runtime}.
Variable run_id : string.
Variable files0 : gmap string (list row).
Variable seen0 : gset string.

Lemma update_sku_index_dom (index : gmap string sku_entry) (sku brand : string) :
  dom index ⊆ dom (update_sku_index index sku brand) /\
  (sku <> "" -> sku ∈ dom (update_sku_index index sku brand)).
Proof.
  unfold update_sku_index.
  destruct (String.eqb_spec sku "") as [->|Hne]; [by split|].
  destruct (index !! sku); rewrite dom_insert_L; split; set_solver.
Qed.

Lemma fresh_rows_process_item (brand : string) (w : world) (it : json) :
  fresh_rows run_id files0 seen0 w ->
  fresh_rows run_id files0 seen0 (process_item run_id brand w it).
Proof.
  intros (Hfile & Hother & Hnd & Hseen & Hrows). unfold process_item.
  destruct (String.eqb_spec (extract_sku_from_item it) "") as [|Hsku]; [done|].
  set (sku := extract_sku_from_item it) in *.
  destruct (update_sku_index_dom (si w) sku brand) as [Hdom Hnew].
  destruct (decide (sku ∈ seen_skus w)) as [Hin|Hnin].
  { unfold fresh_rows. cbn [snapshot_jsonl rows seen_skus si]. split_and!; try done.
    intros r' Hr'. destruct (Hrows r' Hr') as (? & ? & ?). split_and!; try done.
    by apply Hdom. }
  unfold fresh_rows. cbn [snapshot_jsonl rows seen_skus si].
  set (r := item_to_row it brand run_id).
  assert (Hr : row_sku r = sku) by done.
  split_and!.
  - unfold jsonl_rows at 1. rewrite lookup_insert_eq. cbn.
    rewrite Hfile. by rewrite <- app_assoc.
  - intros rid Hrid. rewrite lookup_insert_ne by done. by apply Hother.
  - rewrite map_app. cbn [map]. rewrite Hr. apply NoDup_app. split_and!.
    + done.
    + intros x Hx [->|[]%elem_of_nil]%elem_of_cons. apply Hnin. rewrite Hseen.
      apply elem_of_union_r. by apply elem_of_list_to_set.
    + apply NoDup_singleton.
  - rewrite Hseen, map_app, list_to_set_app_L. cbn [map list_to_set]. rewrite Hr.
    set_solver.
  - intros r' [Hr'|Hr']%elem_of_app.
    + destruct (Hrows r' Hr') as (? & ? & ?). split_and!; try done. by apply Hdom.
    + apply list_elem_of_singleton in Hr' as ->. rewrite Hr. split_and!.
      * intros H0. apply Hnin. rewrite Hseen. by apply elem_of_union_l.
      * done.
      * by apply Hnew.
Qed.

Lemma fresh_rows_brands_loop (srv : server) (last : Z) (fuel : nat)
    (ibrands : list (Z * string)) (w : world) (r : stepped) :
  fresh_rows run_id files0 seen0 w ->
  brands_loop srv run_id last fuel ibrands w = Some r ->
  fresh_rows run_id files0 seen0 (stepped_world r).
Proof.
  apply (brands_loop_stable run_id (fresh_rows run_id files0 seen0)).
  - done.
  - done.
  - intros brand w' it. apply fresh_rows_process_item.
  - done.
Qed.

End Dedup.

Section Saved.
Context {RT : Runtime}.

(** Every exit of the page loop leaves the checkpoint files saved. *)
Lemma paginate_exit_saved (srv : server) (run_id : string) (bi : Z) (brand bkey : string)
    (fuel : nat) :
  forall skip total page_count w e w',
    paginate srv run_id bi brand bkey fuel skip total page_count w = Some (Exited e w') ->
    saved w'.
Proof.
  induction fuel as [|fuel IH]; intros skip total page_count w e w'; [done|].
  cbn [paginate].
  destruct (srv (fetches w) brand skip) as [payload status].
  destruct (negb (truthy payload) || negb (String.eqb status "SUCCESS")).
  { by intros [= <- <-]. }
  destruct (match total with JNull => extract_total payload | _ => Returns total end)
    as [total'|]; [|done].
  destruct (extract_items payload) as [[|it items]|]; [| |done].
  { by intros [= <- <-]. }
  destruct (Z.of_nat (length (it :: items)) <? TAKE); [by intros [= <- <-]|].
  destruct (total_reached total' (skip + TAKE)); [by intros [= <- <-]|].
  apply IH.
Qed.

Lemma brands_loop_saved (srv : server) (run_id : string) (last : Z) (fuel : nat)
    (ibrands : list (Z * string)) :
  forall w w', saved w ->
    brands_loop srv run_id last fuel ibrands w = Some (Continues w') -> saved w'.
Proof.
  induction ibrands as [|[bi brand] rest IH]; intros w w' Hw; cbn [brands_loop].
  - by intros [= <-].
  - destruct (brand_step srv run_id last fuel bi brand w) as [[w1|w1]|] eqn:Hs; [|done|done].
    apply IH. revert Hs. unfold brand_step.
    destruct (bi <=? last); [by intros [= <-]|].
    destruct (String.eqb (strip brand) ""); [by intros [= <-]|].
    destruct (bs_done _); [by intros [= <-]|].
    destruct (paginate _ _ _ _ _ _ _ _ _ _) as [[e w2|w2]|] eqn:Hp; [|done|done].
    apply paginate_exit_saved in Hp. intros [= <-]. by destruct (_ =? 0).
Qed.

End Saved.

Section DedupRun.
Context {RT : Runtime}.


End DedupRun.

(** One SKU offered three times in a page, and once more under another
    brand: one row. *)
Example sku_once_sample :
  exists w,
    scrape_weekly_snapshot_by_brands (RT := sample_runtime)
      (fun _ _ _ => (JDict [("items", JList [sample_item 7; sample_item 7; sample_item 8;
                                             sample_item 7])], "SUCCESS"))
      5 ["Acme"; "Bolt"] empty_disk = Some (Finished w) /\
    map row_sku (rows w) = ["7"; "8"] /\
    map row_brand_query (rows w) = ["Acme"; "Acme"] /\
    (seen_brands <$> si w !! "7") = Some ["Acme"; "Bolt"] /\
    jsonl_rows (snapshot_jsonl w) "20250106_090000" = rows w.
Proof. eexists. split; [by vm_compute|]. by vm_compute. Qed.

(** ** The page loop, one turn at a time *)

Lemma extract_items_object (payload : json) (items : list json) :
  extract_items payload = Returns items ->
  is_dict payload = true /\ exists t, extract_total payload = Returns t.
Proof. destruct payload; try done. intros _. split; [done|]. by eexists. Qed.

Lemma extract_total_object (payload t : json) :
  extract_total payload = Returns t -> is_dict payload = true.
Proof. by destruct payload. Qed.

Lemma extract_not_object (payload : json) :
  is_dict payload = false -> extract_items payload = Raises /\ extract_total payload = Raises.
Proof. by destruct payload. Qed.

Lemma extract_total_int_or_none (payload t : json) :
  extract_total payload = Returns t -> is_int t = true \/ t = JNull.
Proof.
  destruct payload; try done. unfold extract_total. cbn.
  destruct (is_int (assoc_get "total" d)) eqn:Hi; intros [= <-]; auto.
Qed.

Section PageLoop.
Context {RT : Runtime}.
Variables (srv : server) (run_id : string) (bi : Z) (brand bkey : string).

Local Abbreviation paginate' := (paginate srv run_id bi brand bkey).

Lemma paginate_fetch_failed (fuel : nat) (skip : Z) (total : json) (pc : Z) (w : world)
    (payload : json) (status : string) :
  srv (fetches w) brand skip = (payload, status) ->
  truthy payload = false \/ status <> "SUCCESS" ->
  paginate' (S fuel) skip total pc w
  = Some (Exited FetchFailed (close_brand run_id bi brand bkey skip false total (count_fetch w))).
Proof.
  intros Hsrv Hfail. cbn [paginate]. rewrite Hsrv.
  assert (negb (truthy payload) || negb (String.eqb status "SUCCESS") = true) as ->; [|done].
  destruct Hfail as [->|Hne]; [done|].
  destruct (String.eqb_spec status "SUCCESS"); [contradiction|]. apply orb_true_r.
Qed.

Lemma paginate_crashes (fuel : nat) (skip : Z) (total : json) (pc : Z) (w : world)
    (payload : json) :
  srv (fetches w) brand skip = (payload, "SUCCESS") ->
  truthy payload = true -> is_dict payload = false ->
  paginate' (S fuel) skip total pc w = Some (Crashed (count_fetch w)).
Proof.
  intros Hsrv Ht Hd. cbn [paginate]. rewrite Hsrv, Ht. cbn [negb orb String.eqb Ascii.eqb Bool.eqb].
  destruct (extract_not_object payload Hd) as [-> ->]. by destruct total.
Qed.

Lemma paginate_empty_page (fuel : nat) (skip : Z) (total : json) (pc : Z) (w : world)
    (payload t0 : json) :
  srv (fetches w) brand skip = (payload, "SUCCESS") ->
  truthy payload = true ->
  extract_total payload = Returns t0 ->
  extract_items payload = Returns [] ->
  paginate' (S fuel) skip total pc w
  = Some (Exited EmptyPage
            (close_brand run_id bi brand bkey skip true (learn_total total t0) (count_fetch w))).
Proof.
  intros Hsrv Ht Htot Hit. cbn [paginate]. rewrite Hsrv, Ht.
  cbn [negb orb String.eqb Ascii.eqb Bool.eqb]. rewrite Hit.
  by destruct total; rewrite ?Htot.
Qed.

Lemma paginate_short_page (fuel : nat) (skip : Z) (total : json) (pc : Z) (w : world)
    (payload t0 : json) (items : list json) :
  srv (fetches w) brand skip = (payload, "SUCCESS") ->
  truthy payload = true ->
  extract_total payload = Returns t0 ->
  extract_items payload = Returns items ->
  items <> [] -> Z.of_nat (length items) < TAKE ->
  paginate' (S fuel) skip total pc w
  = Some (Exited ShortPage
            (close_brand run_id bi brand bkey (skip + TAKE) true (learn_total total t0)
               (after_page run_id bi brand bkey skip (learn_total total t0) pc items w))).
Proof.
  intros Hsrv Ht Htot Hit Hne Hlen. cbn [paginate]. rewrite Hsrv, Ht.
  cbn [negb orb String.eqb Ascii.eqb Bool.eqb]. rewrite Hit.
  destruct items as [|it items]; [done|].
  destruct (Z.ltb_spec (Z.of_nat (length (it :: items))) TAKE); [|lia].
  by destruct total; rewrite ?Htot.
Qed.

Lemma paginate_total_reached (fuel : nat) (skip : Z) (total : json) (pc : Z) (w : world)
    (payload t0 : json) (items : list json) :
  srv (fetches w) brand skip = (payload, "SUCCESS") ->
  truthy payload = true ->
  extract_total payload = Returns t0 ->
  extract_items payload = Returns items ->
  TAKE <= Z.of_nat (length items) ->
  total_reached (learn_total total t0) (skip + TAKE) = true ->
  paginate' (S fuel) skip total pc w
  = Some (Exited TotalReached
            (close_brand run_id bi brand bkey (skip + TAKE) true (learn_total total t0)
               (after_page run_id bi brand bkey skip (learn_total total t0) pc items w))).
Proof.
  intros Hsrv Ht Htot Hit Hlen Hreach. cbn [paginate]. rewrite Hsrv, Ht.
  cbn [negb orb String.eqb Ascii.eqb Bool.eqb]. rewrite Hit.
  destruct items as [|it items]; [cbn in Hlen; unfold TAKE in Hlen; lia|].
  destruct (Z.ltb_spec (Z.of_nat (length (it :: items))) TAKE); [lia|].
  by destruct total; rewrite ?Htot; cbn [learn_total] in Hreach; rewrite Hreach.
Qed.

Lemma paginate_continues (fuel : nat) (skip : Z) (total : json) (pc : Z) (w : world)
    (payload t0 : json) (items : list json) :
  srv (fetches w) brand skip = (payload, "SUCCESS") ->
  truthy payload = true ->
  extract_total payload = Returns t0 ->
  extract_items payload = Returns items ->
  TAKE <= Z.of_nat (length items) ->
  total_reached (learn_total total t0) (skip + TAKE) = false ->
  paginate' (S fuel) skip total pc w
  = paginate' fuel (skip + TAKE) (learn_total total t0) (pc + 1)
      (after_page run_id bi brand bkey skip (learn_total total t0) pc items w).
Proof.
  intros Hsrv Ht Htot Hit Hlen Hreach. cbn [paginate]. rewrite Hsrv, Ht.
  cbn [negb orb String.eqb Ascii.eqb Bool.eqb]. rewrite Hit.
  destruct items as [|it items]; [cbn in Hlen; unfold TAKE in Hlen; lia|].
  destruct (Z.ltb_spec (Z.of_nat (length (it :: items))) TAKE); [lia|].
  by destruct total; rewrite ?Htot; cbn [learn_total] in Hreach; rewrite Hreach.
Qed.

(** *** What the helpers leave untouched *)

Lemma process_items_fetches (items : list json) (w : world) :
  fetches (process_items run_id brand items w) = fetches w /\
  bp (process_items run_id brand items w) = bp w /\
  brand_progress_json (process_items run_id brand items w) = brand_progress_json w.
Proof.
  unfold process_items. revert w. induction items as [|it items IH]; intros w; [done|].
  cbn [fold_left]. destruct (IH (process_item run_id brand w it)) as (-> & -> & ->).
  unfold process_item. destruct (String.eqb _ ""); [done|]. by destruct (decide _).
Qed.

Lemma after_page_fetches (skip : Z) (total : json) (pc : Z) (items : list json) (w : world) :
  fetches (after_page run_id bi brand bkey skip total pc items w) = S (fetches w).
Proof.
  unfold after_page. destruct (_ =? 0); cbn; by rewrite (proj1 (process_items_fetches _ _)).
Qed.

Lemma close_brand_entry (skip : Z) (done : bool) (total : json) (w : world) :
  let w' := close_brand run_id bi brand bkey skip done total w in
  fetches w' = fetches w /\
  bp w' !! bkey = Some (brand_record skip done total brand) /\
  brand_progress_json w' !! bkey = Some (brand_record skip done total brand) /\
  rows w' = rows w /\ seen_skus w' = seen_skus w /\ snapshot_jsonl w' = snapshot_jsonl w.
Proof. cbn. by rewrite lookup_insert_eq. Qed.

End PageLoop.

(** ** The page loop: how it ends *)

Lemma response_cases (payload : json) (status : string) :
  (truthy payload = false \/ status <> "SUCCESS") \/
  (status = "SUCCESS" /\ truthy payload = true /\ is_dict payload = false) \/
  (status = "SUCCESS" /\ truthy payload = true /\
   exists t0 items, extract_total payload = Returns t0 /\
                    extract_items payload = Returns items).
Proof.
  destruct (truthy payload) eqn:Ht; [|by left; left].
  destruct (String.eqb_spec status "SUCCESS") as [->|Hne]; [|by left; right].
  right. destruct payload; try (by left). right. split_and!; try done. by eexists _, _.
Qed.

Lemma learn_total_known (total t0 : json) :
  is_int total = true -> learn_total total t0 = total.
Proof. by destruct total. Qed.

Section PageLoopEnds.
Context {RT : Runtime}.
Variables (srv : server) (run_id : string) (bi : Z) (brand bkey : string).

Local Abbreviation paginate' := (paginate srv run_id bi brand bkey).

(** Whatever exit the loop takes, the last response and the brand's entry
    justify it. *)
Lemma paginate_exit_justified (fuel : nat) :
  forall skip total pc w e w',
    paginate' fuel skip total pc w = Some (Exited e w') ->
    exit_justified srv brand bkey e w'.
Proof.
  induction fuel as [|fuel IH]; intros skip total pc w e w' Hrun; [done|].
  destruct (srv (fetches w) brand skip) as [payload status] eqn:Hsrv.
  destruct (response_cases payload status)
    as [Hfail | [(-> & Ht & Hd) | (-> & Ht & t0 & items & Htot & Hit)]].
  - rewrite (paginate_fetch_failed _ _ _ _ _ _ _ _ _ _ _ _ Hsrv Hfail) in Hrun.
    injection Hrun as <- <-.
    destruct (close_brand_entry run_id bi brand bkey skip false total (count_fetch w))
      as (Hf & Hbp & Hfile & _).
    exists (brand_record skip false total brand), (fetches w), payload, status.
    by split_and!.
  - by rewrite (paginate_crashes _ _ _ _ _ _ _ _ _ _ _ Hsrv Ht Hd) in Hrun.
  - destruct items as [|it items'] eqn:Hitems.
    { rewrite (paginate_empty_page _ _ _ _ _ _ _ _ _ _ _ _ Hsrv Ht Htot Hit) in Hrun.
      injection Hrun as <- <-.
      destruct (close_brand_entry run_id bi brand bkey skip true (learn_total total t0)
                  (count_fetch w)) as (Hf & Hbp & Hfile & _).
      exists (brand_record skip true (learn_total total t0) brand), (fetches w), payload,
        "SUCCESS".
      by split_and!. }
    rewrite <- Hitems in *. assert (Hne : items <> []) by (by subst items).
    clear Hitems it items'.
    set (total' := learn_total total t0) in *.
    set (w1 := after_page run_id bi brand bkey skip total' pc items w).
    assert (Hf1 : fetches w1 = S (fetches w)) by apply after_page_fetches.
    assert (Hback : skip + TAKE - TAKE = skip) by lia.
    destruct (Z.lt_ge_cases (Z.of_nat (length items)) TAKE) as [Hshort|Hfull].
    { rewrite (paginate_short_page _ _ _ _ _ _ _ _ _ _ _ _ _ Hsrv Ht Htot Hit Hne Hshort)
        in Hrun.
      injection Hrun as <- <-.
      destruct (close_brand_entry run_id bi brand bkey (skip + TAKE) true total' w1)
        as (Hf & Hbp & Hfile & _).
      exists (brand_record (skip + TAKE) true total' brand), (fetches w), payload, "SUCCESS".
      cbn [brand_record bs_skip bs_done bs_total]. rewrite Hback.
      split_and!; try done; try congruence; by exists items. }
    destruct (total_reached total' (skip + TAKE)) eqn:Hreach.
    { rewrite (paginate_total_reached _ _ _ _ _ _ _ _ _ _ _ _ _ Hsrv Ht Htot Hit Hfull Hreach)
        in Hrun.
      injection Hrun as <- <-.
      destruct (close_brand_entry run_id bi brand bkey (skip + TAKE) true total' w1)
        as (Hf & Hbp & Hfile & _).
      exists (brand_record (skip + TAKE) true total' brand), (fetches w), payload, "SUCCESS".
      cbn [brand_record bs_skip bs_done bs_total]. rewrite Hback.
      split_and!; try done; try congruence; by exists items. }
    rewrite (paginate_continues _ _ _ _ _ _ _ _ _ _ _ _ _ Hsrv Ht Htot Hit Hfull Hreach)
      in Hrun.
    by apply IH in Hrun.
Qed.

Local Abbreviation ends_with := (loop_ends_with srv run_id bi brand bkey).

Lemma ends_with_after_turn (skip skip' : Z) (total total' : json) (pc pc' : Z)
    (w w1 : world) (e : loop_exit) (w' : world) :
  (forall fuel, paginate' (S fuel) skip total pc w = paginate' fuel skip' total' pc' w1) ->
  ends_with skip' total' pc' w1 e w' -> ends_with skip total pc w e w'.
Proof.
  intros Hturn [fuel0 Hend]. exists (S fuel0). intros [|fuel] Hfuel; [lia|].
  rewrite Hturn. apply Hend. lia.
Qed.

Hypothesis Hobjects : sends_objects srv brand.

(** One turn: the loop is left, or it goes on after a full page that left
    the total unreached. *)
Lemma one_turn (skip : Z) (total : json) (pc : Z) (w : world) :
  (exists e w', forall fuel, paginate' (S fuel) skip total pc w = Some (Exited e w')) \/
  (exists payload t0 items,
     srv (fetches w) brand skip = (payload, "SUCCESS") /\
     truthy payload = true /\
     extract_total payload = Returns t0 /\
     extract_items payload = Returns items /\
     TAKE <= Z.of_nat (length items) /\
     total_reached (learn_total total t0) (skip + TAKE) = false /\
     forall fuel,
       paginate' (S fuel) skip total pc w
       = paginate' fuel (skip + TAKE) (learn_total total t0) (pc + 1)
           (after_page run_id bi brand bkey skip (learn_total total t0) pc items w)).
Proof.
  destruct (srv (fetches w) brand skip) as [payload status] eqn:Hsrv.
  destruct (response_cases payload status)
    as [Hfail | [(-> & Ht & Hd) | (-> & Ht & t0 & items & Htot & Hit)]].
  - left. eexists _, _. intros fuel. by apply (paginate_fetch_failed _ _ _ _ _ _ _ _ _ _ payload status).
  - exfalso. pose proof (Hobjects (fetches w) skip) as Ho. rewrite Hsrv in Ho.
    cbn in Ho. rewrite Ho in Hd; done.
  - destruct (decide (items = [])) as [->|Hne].
    { left. eexists _, _. intros fuel. by apply (paginate_empty_page _ _ _ _ _ _ _ _ _ _ payload t0). }
    destruct (Z.lt_ge_cases (Z.of_nat (length items)) TAKE) as [Hshort|Hfull].
    { left. eexists _, _. intros fuel.
      by apply (paginate_short_page _ _ _ _ _ _ _ _ _ _ payload t0 items). }
    destruct (total_reached (learn_total total t0) (skip + TAKE)) eqn:Hreach.
    { left. eexists _, _. intros fuel.
      by apply (paginate_total_reached _ _ _ _ _ _ _ _ _ _ payload t0 items). }
    right. exists payload, t0, items. split_and!; try done.
    intros fuel. by apply (paginate_continues _ _ _ _ _ _ _ _ _ _ payload t0 items).
Qed.

Lemma ends_now (skip : Z) (total : json) (pc : Z) (w : world) (e : loop_exit) (w' : world) :
  (forall fuel, paginate' (S fuel) skip total pc w = Some (Exited e w')) ->
  ends_with skip total pc w e w'.
Proof. intros H. exists 1%nat. intros [|fuel] Hfuel; [lia | apply H]. Qed.

(** With a known total the offset, which grows by [TAKE] each turn, reaches
    it. *)
Lemma ends_known_total (m : nat) :
  forall skip total pc w t,
    int_value total = Some t -> (Z.to_nat (t - skip) <= m)%nat ->
    exists e w', ends_with skip total pc w e w'.
Proof.
  induction m as [|m IH]; intros skip total pc w t Hint Hm;
    (destruct (one_turn skip total pc w)
      as [(e & w' & Hend) | (payload & t0 & items & _ & _ & _ & _ & _ & Hreach & Hturn)];
     [exists e, w'; by apply ends_now|]);
    assert (Hknown : learn_total total t0 = total)
      by (apply learn_total_known; by destruct total);
    rewrite Hknown in *; unfold total_reached in Hreach; rewrite Hint in Hreach;
    apply Z.leb_gt in Hreach; unfold TAKE in *.
  - lia.
  - destruct (IH (skip + 50) total (pc + 1)
               (after_page run_id bi brand bkey skip total pc items w) t Hint)
      as (e & w' & Hend); [lia|].
    exists e, w'. by apply (ends_with_after_turn _ _ _ _ _ _ _ _ _ _ Hturn).
Qed.

(** The loop ends when the [n]-th response from here stops it, or tells the
    total while none is known. *)
Lemma ends_at (n : nat) :
  forall skip total pc w,
    stops_loop (srv (fetches w + n)%nat brand (skip + TAKE * Z.of_nat n)) \/
    (total = JNull /\ tells_total (srv (fetches w + n)%nat brand (skip + TAKE * Z.of_nat n))) ->
    exists e w', ends_with skip total pc w e w'.
Proof.
  induction n as [|n IH]; intros skip total pc w Hstop;
    (destruct (one_turn skip total pc w)
      as [(e & w' & Hend) | (payload & t0 & items & Hsrv & Ht & Htot & Hit & Hfull & Hreach & Hturn)];
     [exists e, w'; by apply ends_now|]).
  - rewrite Nat.add_0_r, Z.mul_0_r, Z.add_0_r, Hsrv in Hstop.
    unfold stops_loop, tells_total in Hstop. cbn [fst snd] in Hstop.
    destruct Hstop as [[Hf|[Hf|(items' & Hit' & Hshort)]] | (-> & t & Htot' & Hint)].
    + congruence.
    + done.
    + rewrite Hit in Hit'. injection Hit' as <-. lia.
    + rewrite Htot in Htot'. injection Htot' as <-. cbn [learn_total] in *.
      destruct (int_value t0) as [z|] eqn:Hz; [|by destruct t0].
      destruct (ends_known_total (Z.to_nat (z - (skip + TAKE))) (skip + TAKE) t0 (pc + 1)
                  (after_page run_id bi brand bkey skip t0 pc items w) z Hz)
        as (e & w' & Hend); [lia|].
      exists e, w'. by apply (ends_with_after_turn _ _ _ _ _ _ _ _ _ _ Hturn).
  - set (w1 := after_page run_id bi brand bkey skip (learn_total total t0) pc items w) in *.
    assert (Hf1 : fetches w1 = S (fetches w)) by apply after_page_fetches.
    assert (Hidx : (fetches w + S n = fetches w1 + n)%nat) by lia.
    assert (Hoff : skip + TAKE * Z.of_nat (S n) = skip + TAKE + TAKE * Z.of_nat n) by lia.
    rewrite Hidx, Hoff in Hstop.
    destruct Hstop as [Hstop | (-> & Htell)].
    + destruct (IH (skip + TAKE) (learn_total total t0) (pc + 1) w1 (or_introl Hstop))
        as (e & w' & Hend).
      exists e, w'. by apply (ends_with_after_turn _ _ _ _ _ _ _ _ _ _ Hturn).
    + cbn [learn_total] in *.
      destruct (extract_total_int_or_none _ _ Htot) as [Hint | ->].
      * destruct (int_value t0) as [z|] eqn:Hz; [|by destruct t0].
        destruct (ends_known_total (Z.to_nat (z - (skip + TAKE))) (skip + TAKE) t0 (pc + 1)
                    w1 z Hz) as (e & w' & Hend); [lia|].
        exists e, w'. by apply (ends_with_after_turn _ _ _ _ _ _ _ _ _ _ Hturn).
      * destruct (IH (skip + TAKE) JNull (pc + 1) w1 (or_intror (conj eq_refl Htell)))
          as (e & w' & Hend).
        exists e, w'. by apply (ends_with_after_turn _ _ _ _ _ _ _ _ _ _ Hturn).
Qed.

End PageLoopEnds.

(** ** The page loop ends, and how *)

Section PageLoopTheorem.
Context {RT : Runtime}.


(** With a server that always sends a full page and never a total, the loop
    goes on whatever the fuel. *)
Lemma endless_pages (run_id : string) (bi : Z) (brand bkey : string) (fuel : nat) :
  forall skip pc w,
    paginate endless_server run_id bi brand bkey fuel skip JNull pc w = None.
Proof.
  induction fuel as [|fuel IH]; intros skip pc w; [done|].
  rewrite (paginate_continues endless_server run_id bi brand bkey fuel skip JNull pc w
             (sample_page 1 50 JNull) JNull (map sample_item (seq 1 50)));
    [apply IH | done | done | done | done | by vm_compute | done].
Qed.

End PageLoopTheorem.



Lemma process_items_cons {RT : Runtime} (run_id brand : string) (it : json)
    (items : list json) (w : world) :
  process_items run_id brand (it :: items) w
  = process_items run_id brand items (process_item run_id brand w it).
Proof. reflexivity. Qed.

(** The step for a new SKU, for reuse. *)
Lemma sku_step {RT : Runtime} (run_id brand : string) (w : world) (it : json) :
  extract_sku_from_item it ∉ seen_skus w -> extract_sku_from_item it <> "" ->
  let w' := process_item run_id brand w it in
  rows w' = rows w ++ [item_to_row it brand run_id] /\
  jsonl_rows (snapshot_jsonl w') run_id
    = jsonl_rows (snapshot_jsonl w) run_id ++ [item_to_row it brand run_id] /\
  seen_skus w' = {[extract_sku_from_item it]} ∪ seen_skus w.
Proof.
  intros Hnin Hne. unfold process_item. cbn zeta.
  destruct (String.eqb_spec (extract_sku_from_item it) ""); [contradiction|].
  destruct (decide _); [contradiction|]. cbn. split_and!; try done.
  unfold jsonl_rows at 1. by rewrite lookup_insert_eq.
Qed.

(** ** Two pages, then done *)

Lemma extract_items_truthy (payload : json) (items : list json) :
  extract_items payload = Returns items -> items <> [] -> truthy payload = true.
Proof.
  destruct payload as [| | | | | |d]; try done. destruct d; [|done].
  cbn. by intros [= <-].
Qed.

Section TwoPages.
Context {RT : Runtime}.
Variables (run_id brand : string).

Local Abbreviation row_of := (fun it => item_to_row it brand run_id).

(** Items with new, non-empty, pairwise distinct SKUs are all written, in
    order. *)
Lemma process_items_novel (items : list json) :
  forall w,
    NoDup (map extract_sku_from_item items) ->
    (forall it, it ∈ items ->
       extract_sku_from_item it <> "" /\ extract_sku_from_item it ∉ seen_skus w) ->
    let w' := process_items run_id brand items w in
    rows w' = rows w ++ map row_of items /\
    seen_skus w' = seen_skus w ∪ list_to_set (map extract_sku_from_item items) /\
    jsonl_rows (snapshot_jsonl w') run_id
      = jsonl_rows (snapshot_jsonl w) run_id ++ map row_of items.
Proof.
  induction items as [|it items IH]; intros w Hnd Hnew.
  - cbn. rewrite !app_nil_r. split_and!; [done | set_solver | done].
  - cbn [map] in Hnd. apply NoDup_cons in Hnd as [Hit Hnd].
    destruct (Hnew it (list_elem_of_here _ _)) as [Hne Hnin].
    destruct (sku_step run_id brand w it Hnin Hne) as (Hrows & Hfile & Hseen).
    cbn zeta. rewrite process_items_cons.
    destruct (IH (process_item run_id brand w it) Hnd) as (IHrows & IHseen & IHfile).
    { intros it' Hin. destruct (Hnew it' (list_elem_of_further _ _ _ Hin)) as [Hne' Hnin'].
      split; [done|]. rewrite Hseen. intros [Hs|Hs]%elem_of_union; [|done].
      apply elem_of_singleton in Hs. apply Hit. rewrite <- Hs.
      apply list_elem_of_fmap. by exists it'. }
    rewrite IHrows, IHseen, IHfile, Hrows, Hfile, Hseen. cbn [map list_to_set].
    rewrite <- !app_assoc. split_and!; [done | set_solver | done].
Qed.

End TwoPages.

Section TwoPagesTheorem.
Context {RT : Runtime}.

Lemma after_page_rows (run_id : string) (bi : Z) (brand bkey : string) (skip : Z)
    (total : json) (pc : Z) (items : list json) (w : world) :
  let w1 := after_page run_id bi brand bkey skip total pc items w in
  let w0 := process_items run_id brand items (count_fetch w) in
  rows w1 = rows w0 /\ seen_skus w1 = seen_skus w0 /\ snapshot_jsonl w1 = snapshot_jsonl w0.
Proof. cbn zeta. unfold after_page. by destruct (_ =? 0). Qed.

(** C2, as amended. A brand entered at offset 0 with no total known, whose
    first page has exactly [TAKE] = 50 items and tells no total at or below 50,
    and whose second page has 12 items, is marked done by the short-page
    exit after exactly 2 fetches; the offset checkpoint it leaves, in memory
    and on disk, is 100 (the offset advances by the page size for each
    page, not by the number of items); and when the 62 SKUs are non-empty,
    pairwise distinct and unseen, the 62 rows of those items are appended, in
    order. *)
Theorem two_pages_then_done (srv : server) (run_id : string) (bi : Z)
    (brand bkey : string) (w : world) (page1 page2 : json) (items1 items2 : list json)
    (H1 : srv (fetches w) brand 0 = (page1, "SUCCESS"))
    (H2 : srv (S (fetches w)) brand TAKE = (page2, "SUCCESS"))
    (Hi1 : extract_items page1 = Returns items1) (Hl1 : length items1 = 50%nat)
    (Hi2 : extract_items page2 = Returns items2) (Hl2 : length items2 = 12%nat)
    (Htot : forall t, extract_total page1 = Returns t -> total_reached t TAKE = false) :
  exists w' total,
    (forall fuel, (2 <= fuel)%nat ->
       paginate srv run_id bi brand bkey fuel 0 JNull 0 w = Some (Exited ShortPage w')) /\
    fetches w' = (fetches w + 2)%nat /\
    bp w' !! bkey = Some (brand_record 100 true total brand) /\
    brand_progress_json w' !! bkey = Some (brand_record 100 true total brand) /\
    (NoDup (map extract_sku_from_item (items1 ++ items2)) ->
     (forall it, it ∈ items1 ++ items2 ->
        extract_sku_from_item it <> "" /\ extract_sku_from_item it ∉ seen_skus w) ->
     rows w' = rows w ++ map (fun it => item_to_row it brand run_id) (items1 ++ items2) /\
     length (rows w') = (length (rows w) + 62)%nat /\
     jsonl_rows (snapshot_jsonl w') run_id
       = jsonl_rows (snapshot_jsonl w) run_id
         ++ map (fun it => item_to_row it brand run_id) (items1 ++ items2)).
Proof.
  assert (Hne1 : items1 <> []) by (by destruct items1).
  assert (Hne2 : items2 <> []) by (by destruct items2).
  pose proof (extract_items_truthy _ _ Hi1 Hne1) as Ht1.
  pose proof (extract_items_truthy _ _ Hi2 Hne2) as Ht2.
  destruct (extract_items_object _ _ Hi1) as [_ [t1 Htot1]].
  destruct (extract_items_object _ _ Hi2) as [_ [t2 Htot2]].
  set (w1 := after_page run_id bi brand bkey 0 t1 0 items1 w).
  set (w2 := after_page run_id bi brand bkey (0 + TAKE) (learn_total t1 t2) (0 + 1) items2 w1).
  set (w' := close_brand run_id bi brand bkey (0 + TAKE + TAKE) true (learn_total t1 t2) w2).
  assert (Hf1 : fetches w1 = S (fetches w)) by apply after_page_fetches.
  assert (Hf2 : fetches w2 = S (fetches w1)) by apply after_page_fetches.
  destruct (close_brand_entry run_id bi brand bkey (0 + TAKE + TAKE) true
              (learn_total t1 t2) w2) as (Hf & Hbp & Hfile & Hrows & Hseen & Hjsonl).
  fold w' in Hf, Hbp, Hfile, Hrows, Hseen, Hjsonl.
  exists w', (learn_total t1 t2). split_and!.
  - intros [|[|fuel]] Hfuel; [lia | lia |].
    rewrite (paginate_continues srv run_id bi brand bkey (S fuel) 0 JNull 0 w page1 t1 items1);
      [| done | done | done | done | rewrite Hl1; unfold TAKE; lia | by apply Htot].
    cbn [learn_total]. fold w1.
    rewrite (paginate_short_page srv run_id bi brand bkey fuel (0 + TAKE) t1 (0 + 1) w1
               page2 t2 items2);
      [done | by rewrite Hf1 | done | done | done | done | rewrite Hl2; unfold TAKE; lia].
  - rewrite Hf, Hf2, Hf1. lia.
  - exact Hbp.
  - exact Hfile.
  - intros Hnd Hnew. rewrite map_app in Hnd. apply NoDup_app in Hnd as (Hnd1 & Hcross & Hnd2).
    destruct (after_page_rows run_id bi brand bkey 0 t1 0 items1 w) as (R1 & S1 & J1).
    destruct (after_page_rows run_id bi brand bkey (0 + TAKE) (learn_total t1 t2) (0 + 1)
                items2 w1) as (R2 & S2 & J2).
    fold w1 in R1, S1, J1. fold w2 in R2, S2, J2.
    destruct (process_items_novel run_id brand items1 (count_fetch w) Hnd1)
      as (P1 & Q1 & F1).
    { intros it Hin. apply Hnew. apply elem_of_app. by left. }
    destruct (process_items_novel run_id brand items2 (count_fetch w1) Hnd2)
      as (P2 & Q2 & F2).
    { intros it Hin. destruct (Hnew it) as [Hne Hnin]; [apply elem_of_app; by right|].
      split; [done|]. change (seen_skus (count_fetch w1)) with (seen_skus w1).
      rewrite S1, Q1. intros [Hs|Hs]%elem_of_union; [done|].
      apply elem_of_list_to_set in Hs. apply (Hcross _ Hs).
      apply list_elem_of_fmap. by exists it. }
    cbn zeta in *.
    assert (Hall : rows w' = rows w ++ map (fun it => item_to_row it brand run_id)
                                         (items1 ++ items2)).
    { rewrite Hrows, R2, P2. change (rows (count_fetch w1)) with (rows w1).
      rewrite R1, P1. change (rows (count_fetch w)) with (rows w).
      by rewrite map_app, app_assoc. }
    split_and!.
    + exact Hall.
    + rewrite Hall, length_app, length_map, length_app, Hl1, Hl2. lia.
    + rewrite Hjsonl, J2, F2. change (snapshot_jsonl (count_fetch w1)) with (snapshot_jsonl w1).
      rewrite J1, F1. change (snapshot_jsonl (count_fetch w)) with (snapshot_jsonl w).
      by rewrite map_app, app_assoc.
Qed.

End TwoPagesTheorem.

Lemma two_pages_then_done_witness :
  exists w' total,
    (forall fuel, (2 <= fuel)%nat ->
       paginate (RT := sample_runtime) two_page_server "r" 0 "Acme" "acme" fuel 0 JNull 0
         (start_world empty_run_doc empty_disk) = Some (Exited ShortPage w')) /\
    fetches w' = (fetches (start_world empty_run_doc empty_disk) + 2)%nat /\
    bp w' !! "acme" = Some (brand_record (RT := sample_runtime) 100 true total "Acme") /\
    brand_progress_json w' !! "acme"
      = Some (brand_record (RT := sample_runtime) 100 true total "Acme") /\
    (NoDup (map (extract_sku_from_item (RT := sample_runtime))
              (map sample_item (seq 1 50) ++ map sample_item (seq 51 12))) ->
     (forall it, it ∈ map sample_item (seq 1 50) ++ map sample_item (seq 51 12) ->
        extract_sku_from_item (RT := sample_runtime) it <> "" /\
        extract_sku_from_item (RT := sample_runtime) it ∉ seen_skus (start_world empty_run_doc empty_disk)) ->
     rows w' = rows (start_world empty_run_doc empty_disk)
               ++ map (fun it => item_to_row (RT := sample_runtime) it "Acme" "r")
                    (map sample_item (seq 1 50) ++ map sample_item (seq 51 12)) /\
     length (rows w') = (length (rows (start_world empty_run_doc empty_disk)) + 62)%nat /\
     jsonl_rows (snapshot_jsonl w') "r"
       = jsonl_rows (snapshot_jsonl (start_world empty_run_doc empty_disk)) "r"
         ++ map (fun it => item_to_row (RT := sample_runtime) it "Acme" "r")
              (map sample_item (seq 1 50) ++ map sample_item (seq 51 12))).
Proof.
  apply (two_pages_then_done (RT := sample_runtime) two_page_server "r" 0 "Acme" "acme"
           (start_world empty_run_doc empty_disk)
           (sample_page 1 50 (JInt 62)) (sample_page 51 12 (JInt 62))
           (map sample_item (seq 1 50)) (map sample_item (seq 51 12)));
    [reflexivity | reflexivity | reflexivity | reflexivity | reflexivity | reflexivity |].
  intros t [= <-]. reflexivity.
Defined.

(** C2 as stated fails on the offset: after the page of 50 and the page of
    12, all SKUs new, the brand is done after 2 fetches with 62 rows
    appended, and the offset checkpoint is 100, not 62. *)
Lemma two_pages_checkpoint_is_100 :
  exists w',
    paginate (RT := sample_runtime) two_page_server "r" 0 "Acme" "acme" 5 0 JNull 0
      (start_world empty_run_doc empty_disk) = Some (Exited ShortPage w') /\
    fetches w' = 2%nat /\
    length (rows w') = 62%nat /\
    length (jsonl_rows (snapshot_jsonl w') "r") = 62%nat /\
    (bs_done <$> brand_progress_json w' !! "acme") = Some true /\
    (bs_skip <$> brand_progress_json w' !! "acme") = Some 100 /\
    (bs_skip <$> brand_progress_json w' !! "acme") <> Some 62.
Proof. eexists. split; [by vm_compute|]. by vm_compute. Qed.

(** * Further properties *)

(** ** Brand keys are canonical *)

Lemma squeeze_from_idem (r : list ascii) :
  forall p, squeeze_from false (squeeze_from p r) = squeeze_from p r.
Proof.
  induction r as [|c r IH]; intros p; [done|]. cbn [squeeze_from].
  destruct (is_space c) eqn:Hc; [apply IH|].
  destruct p; cbn [squeeze_from].
  - change (is_space " "%char) with true. cbn [squeeze_from].
    rewrite is_space_lower, Hc, lower_lower. by rewrite IH.
  - rewrite is_space_lower, Hc, lower_lower. by rewrite IH.
Qed.

Lemma squeeze_idem (l : list ascii) : squeeze (squeeze l) = squeeze l.
Proof.
  induction l as [|c r IH]; [done|]. cbn [squeeze].
  destruct (is_space c) eqn:Hc; [done|]. cbn [squeeze].
  by rewrite is_space_lower, Hc, lower_lower, squeeze_from_idem.
Qed.


(** ** Column names *)

Section Runs.
Variable P : ascii -> bool.

Lemma sub_runs_separated (rep : ascii) (l : list ascii) :
  P rep = true -> forall b, separated P b (sub_runs P rep b l) = true.
Proof.
  intros Hrep. induction l as [|c r IH]; intros b; [done|]. cbn [sub_runs].
  destruct (P c) eqn:Hc.
  - destruct b; [apply IH|]. cbn [separated]. rewrite Hrep. cbn. apply IH.
  - cbn [separated]. rewrite Hc. apply IH.
Qed.

Lemma sub_runs_Forall (Q : ascii -> Prop) (rep : ascii) (l : list ascii) :
  Q rep -> Forall Q l -> forall b, Forall Q (sub_runs P rep b l).
Proof.
  intros Hrep Hl. induction Hl as [|c r Hc _ IH]; intros b; [constructor|].
  cbn [sub_runs]. destruct (P c); [destruct b|]; auto.
Qed.

(** A run of one [rep] is left as it is. *)
Lemma sub_runs_fixed (rep : ascii) (l : list ascii) :
  (forall c, P c = true -> c = rep) ->
  forall b, separated P b l = true -> sub_runs P rep b l = l.
Proof.
  intros Hrep. induction l as [|c r IH]; intros b Hs; [done|].
  cbn [sub_runs separated] in *. destruct (P c) eqn:Hc.
  - apply andb_true_iff in Hs as [Hb Hs]. destruct b; [done|].
    f_equal; [symmetry; by apply Hrep | by apply IH].
  - f_equal. by apply IH.
Qed.

Lemma separated_none (l : list ascii) :
  Forall (fun c => P c = false) l -> forall b, separated P b l = true.
Proof.
  intros Hl. induction Hl as [|c r Hc _ IH]; intros b; [done|].
  cbn. rewrite Hc. apply IH.
Qed.

Lemma lstrip_by_Forall (Q : ascii -> Prop) (l : list ascii) :
  Forall Q l -> Forall Q (lstrip_by P l).
Proof.
  intros Hl. induction Hl as [|c r Hc Hr IH]; [constructor|].
  cbn. destruct (P c); [done | by constructor].
Qed.

Lemma rstrip_by_Forall (Q : ascii -> Prop) (l : list ascii) :
  Forall Q l -> Forall Q (rstrip_by P l).
Proof.
  intros Hl. induction Hl as [|c r Hc Hr IH]; [constructor|].
  cbn. destruct (rstrip_by P r); [destruct (P c); by repeat constructor | by constructor].
Qed.

Lemma lstrip_by_separated (l : list ascii) :
  forall b, separated P b l = true -> separated P false (lstrip_by P l) = true.
Proof.
  induction l as [|c r IH]; intros b Hs; [done|]. cbn [lstrip_by separated] in *.
  destruct (P c) eqn:Hc.
  - apply andb_true_iff in Hs as [_ Hs]. by apply (IH true).
  - cbn [separated]. by rewrite Hc.
Qed.

Lemma rstrip_by_separated (l : list ascii) :
  forall b, separated P b l = true -> separated P b (rstrip_by P l) = true.
Proof.
  induction l as [|c r IH]; intros b Hs; [done|]. cbn [rstrip_by separated] in *.
  destruct (P c) eqn:Hc.
  - apply andb_true_iff in Hs as [Hb Hs]. specialize (IH true Hs).
    destruct (rstrip_by P r) as [|d r']; [done|].
    cbn [separated]. rewrite Hc, Hb. exact IH.
  - specialize (IH false Hs).
    destruct (rstrip_by P r) as [|d r']; cbn [separated]; rewrite Hc; [done | exact IH].
Qed.

Lemma rstrip_by_cons_keep (c : ascii) (r : list ascii) :
  P c = false -> rstrip_by P (c :: r) = c :: rstrip_by P r.
Proof. intros Hc. cbn. rewrite Hc. by destruct (rstrip_by P r). Qed.

Lemma rstrip_by_cons_drop (c : ascii) (r : list ascii) :
  P c = true ->
  rstrip_by P (c :: r) = match rstrip_by P r with [] => [] | r' => c :: r' end.
Proof. intros Hc. cbn. by rewrite Hc. Qed.

Lemma rstrip_by_idem (l : list ascii) : rstrip_by P (rstrip_by P l) = rstrip_by P l.
Proof.
  induction l as [|c r IH]; [done|].
  destruct (P c) eqn:Hc.
  - rewrite (rstrip_by_cons_drop c r Hc).
    destruct (rstrip_by P r) as [|d r'] eqn:Hr; [done|].
    by rewrite (rstrip_by_cons_drop c _ Hc), IH.
  - by rewrite (rstrip_by_cons_keep c r Hc), (rstrip_by_cons_keep c _ Hc), IH.
Qed.

Lemma lstrip_by_head (l : list ascii) :
  lstrip_by P l = [] \/ exists c r, lstrip_by P l = c :: r /\ P c = false.
Proof.
  induction l as [|c r IH]; [by left|]. cbn.
  destruct (P c) eqn:Hc; [done|]. right. by exists c, r.
Qed.

Lemma strip_by_idem (l : list ascii) : strip_by P (strip_by P l) = strip_by P l.
Proof.
  unfold strip_by.
  destruct (lstrip_by_head l) as [->|(c & r & -> & Hc)]; [done|].
  rewrite (rstrip_by_cons_keep c r Hc). cbn [lstrip_by]. rewrite Hc.
  rewrite <- (rstrip_by_cons_keep c r Hc). apply rstrip_by_idem.
Qed.

(** What [strip_by] returns neither starts nor ends with a character of the
    class. *)
Lemma strip_by_first (l : list ascii) (c : ascii) (r : list ascii) :
  strip_by P l = c :: r -> P c = false.
Proof.
  unfold strip_by.
  destruct (lstrip_by_head l) as [->|(d & r' & -> & Hd)]; [done|].
  rewrite (rstrip_by_cons_keep d r' Hd). by intros [= <- _].
Qed.

Lemma rstrip_by_last (l : list ascii) :
  forall r c, rstrip_by P l = r ++ [c] -> P c = false.
Proof.
  induction l as [|d l IH]; intros r c; [by destruct r|]. cbn [rstrip_by].
  destruct (rstrip_by P l) as [|e l'] eqn:Hl.
  - destruct (P d) eqn:Hd; [by destruct r|].
    destruct r as [|? [|? ?]]; [|done|done]. by intros [= <-].
  - destruct r as [|d' r]; [done|]. intros [= <- Hr]. by apply (IH r c).
Qed.

Lemma strip_by_last (l r : list ascii) (c : ascii) :
  strip_by P l = r ++ [c] -> P c = false.
Proof. apply rstrip_by_last. Qed.

Lemma strip_by_map (f : ascii -> ascii) (l : list ascii) :
  (forall c, P (f c) = P c) -> strip_by P (map f l) = map f (strip_by P l).
Proof.
  intros Hf. unfold strip_by.
  assert (Hl : forall l, lstrip_by P (map f l) = map f (lstrip_by P l)).
  { induction l0 as [|c r IH]; [done|]. cbn. rewrite Hf. by destruct (P c). }
  assert (Hr : forall l, rstrip_by P (map f l) = map f (rstrip_by P l)).
  { induction l0 as [|c r IH]; [done|]. cbn. rewrite Hf, IH.
    destruct (rstrip_by P r); cbn; [by destruct (P c) | done]. }
  by rewrite Hl, Hr.
Qed.

Lemma separated_map (f : ascii -> ascii) (l : list ascii) :
  (forall c, P (f c) = P c) -> forall b, separated P b (map f l) = separated P b l.
Proof.
  intros Hf. induction l as [|c r IH]; intros b; [done|]. cbn.
  rewrite Hf. by rewrite !IH.
Qed.

(** A list with a doubled character of the class is not [separated]. *)
Lemma separated_no_double (a b : list ascii) (c d : ascii) :
  P c = true -> P d = true -> forall prev, separated P prev (a ++ c :: d :: b) = false.
Proof.
  intros Hc Hd. induction a as [|e a IH]; intros prev; cbn.
  - rewrite Hc, Hd. cbn. apply andb_false_r.
  - rewrite !IH. by destruct (P e), prev.
Qed.

End Runs.

Lemma sub_runs_none (P : ascii -> bool) (rep : ascii) (l : list ascii) :
  Forall (fun c => P c = false) l -> forall b, sub_runs P rep b l = l.
Proof.
  intros Hl. induction Hl as [|c r Hc _ IH]; intros b; [done|].
  cbn. rewrite Hc. by rewrite IH.
Qed.

(** What [sub_runs] returns holds [rep] and characters outside the class. *)
Lemma sub_runs_class (P : ascii -> bool) (rep : ascii) (l : list ascii) :
  forall b, Forall (fun c => c = rep \/ P c = false) (sub_runs P rep b l).
Proof.
  induction l as [|c r IH]; intros b; [constructor|]. cbn [sub_runs].
  destruct (P c) eqn:Hc; [destruct b|]; auto.
Qed.

Lemma strip_by_none (P : ascii -> bool) (l : list ascii) :
  Forall (fun c => P c = false) l -> strip_by P l = l.
Proof.
  intros Hl. unfold strip_by.
  assert (lstrip_by P l = l) as -> by (destruct Hl as [|c r Hc _]; [done | by cbn; rewrite Hc]).
  induction Hl as [|c r Hc _ IH]; [done|].
  by rewrite (rstrip_by_cons_keep P c r Hc), IH.
Qed.

Lemma strip_chars_strip_by (l : list ascii) : strip_chars l = strip_by is_space l.
Proof.
  unfold strip_chars, strip_by.
  assert (lstrip_chars l = lstrip_by is_space l) as ->.
  { induction l as [|c r IH]; [done|]. cbn. by rewrite IH. }
  generalize (lstrip_by is_space l). intros m.
  induction m as [|c r IH]; [done|]. cbn. by rewrite IH.
Qed.

Lemma is_word_lower (c : ascii) : is_word c = true -> is_lower_word (lower_char c) = true.
Proof. destruct c as [[] [] [] [] [] [] [] []]; cbv; congruence. Qed.

Lemma is_underscore_lower (c : ascii) : is_underscore (lower_char c) = is_underscore c.
Proof. destruct c as [[] [] [] [] [] [] [] []]; reflexivity. Qed.

Lemma is_lower_word_plain (c : ascii) :
  is_lower_word c = true ->
  is_space c = false /\ is_dot c = false /\ is_word c = true /\ lower_char c = c.
Proof. destruct c as [[] [] [] [] [] [] [] []]; cbv; intros H; try done. Qed.

Lemma is_underscore_eq (c : ascii) : is_underscore c = true <-> c = underscore.
Proof. unfold is_underscore. apply Ascii.eqb_eq. Qed.

(** The column name before its last two steps: word characters only, and
    no two underscores in a row. *)
Lemma standardise_chars_core (l : list ascii) :
  exists y, standardise_chars l = map lower_char (strip_by is_underscore y) /\
    Forall (fun c => is_word c = true) y /\ separated is_underscore false y = true.
Proof.
  unfold standardise_chars. eexists. split; [reflexivity|]. split.
  - apply sub_runs_Forall; [reflexivity|].
    eapply Forall_impl; [apply sub_runs_class|].
    intros c [->|Hc]; [reflexivity|]. cbn beta in Hc. by apply negb_false_iff in Hc.
  - by apply sub_runs_separated.
Qed.

Lemma strip_by_word (y : list ascii) :
  Forall (fun c => is_word c = true) y -> separated is_underscore false y = true ->
  Forall (fun c => is_lower_word c = true) (map lower_char (strip_by is_underscore y)) /\
  separated is_underscore false (map lower_char (strip_by is_underscore y)) = true.
Proof.
  intros Hy Hs. split.
  - apply Forall_map. unfold strip_by.
    apply rstrip_by_Forall, lstrip_by_Forall.
    eapply Forall_impl; [exact Hy|]. intros c. apply is_word_lower.
  - rewrite (separated_map _ _ _ is_underscore_lower). unfold strip_by.
    apply rstrip_by_separated. by apply (lstrip_by_separated _ _ false).
Qed.

(** X2. A standardised column name is written in [a-z0-9_], neither starts
    nor ends with an underscore and has no two underscores in a row,
    whatever the name was. *)
Theorem standardise_col_name_shape (name : string) :
  Forall (fun c => is_lower_word c = true)
    (list_ascii_of_string (standardise_col_name name)) /\
  (forall c r, list_ascii_of_string (standardise_col_name name) = c :: r ->
     c <> underscore) /\
  (forall r c, list_ascii_of_string (standardise_col_name name) = r ++ [c] ->
     c <> underscore) /\
  (forall a b, list_ascii_of_string (standardise_col_name name)
     <> a ++ underscore :: underscore :: b).
Proof.
  unfold standardise_col_name, on_chars. rewrite list_ascii_of_string_of_list_ascii.
  destruct (standardise_chars_core (list_ascii_of_string name)) as (y & -> & Hy & Hs).
  destruct (strip_by_word y Hy Hs) as [Hw Hsep].
  rewrite <- (strip_by_map _ _ _ is_underscore_lower) in *.
  split_and!.
  - exact Hw.
  - intros c r Hc Hu. apply strip_by_first in Hc.
    apply is_underscore_eq in Hu. congruence.
  - intros r c Hc Hu. apply strip_by_last in Hc.
    apply is_underscore_eq in Hu. congruence.
  - intros a b Hab. rewrite Hab in Hsep.
    by rewrite separated_no_double in Hsep.
Qed.

(** X3. Standardising a column name twice is standardising it once: the
    names of a table that was rebuilt already are left as they are. *)
Theorem standardise_col_name_idem (name : string) :
  standardise_col_name (standardise_col_name name) = standardise_col_name name.
Proof.
  unfold standardise_col_name, on_chars. rewrite list_ascii_of_string_of_list_ascii.
  f_equal.
  destruct (standardise_chars_core (list_ascii_of_string name)) as (y & -> & Hy & Hs).
  destruct (strip_by_word y Hy Hs) as [Hw Hsep].
  set (o := map lower_char (strip_by is_underscore y)) in *.
  assert (Hsp : Forall (fun c => is_space c = false) o)
    by (eapply Forall_impl; [exact Hw|]; intros c Hc; by apply is_lower_word_plain).
  assert (Hnw : Forall (fun c => negb (is_word c) = false) o).
  { eapply Forall_impl; [exact Hw|]. intros c Hc.
    apply negb_false_iff. by apply is_lower_word_plain. }
  assert (Hdot : map (fun c => if is_dot c then underscore else c) o = o).
  { clear -Hw. induction Hw as [|c r Hc _ IH]; [done|]. cbn.
    destruct (is_lower_word_plain c Hc) as (_ & -> & _). by rewrite IH. }
  assert (Hlow : map lower_char o = o).
  { clear -Hw. induction Hw as [|c r Hc _ IH]; [done|]. cbn.
    destruct (is_lower_word_plain c Hc) as (_ & _ & _ & ->). by rewrite IH. }
  unfold standardise_chars.
  rewrite strip_chars_strip_by, (strip_by_none _ _ Hsp), Hdot.
  rewrite (sub_runs_none _ _ _ Hsp), (sub_runs_none _ _ _ Hnw).
  rewrite (sub_runs_fixed is_underscore underscore o
             (fun c H => proj1 (is_underscore_eq c) H) false Hsep).
  subst o. rewrite (strip_by_map _ _ _ is_underscore_lower), strip_by_idem.
  by rewrite map_map, (map_ext _ _ lower_lower).
Qed.

(** ** Column names of a table *)

Lemma occurrences_snoc (c x : string) (l : list string) :
  occurrences c (l ++ [x]) = (occurrences c l + (if decide (x = c) then 1 else 0))%nat.
Proof.
  unfold occurrences. rewrite filter_app, length_app. f_equal.
  rewrite filter_cons, filter_nil. by destruct (decide (x = c)).
Qed.

(** The loop of [standardise_dataframe_columns] when [seen] counts the names
    met so far, [done]. *)
Lemma fix_columns_spec (raw : list string) :
  forall (done : list string) (seen : gmap string Z) (fixed : list string),
  (forall c, seen !! c =
     if (occurrences c done =? 0)%nat then None else Some (Z.of_nat (occurrences c done))) ->
  fix_columns raw seen fixed =
    fixed ++ imap (fun i c => numbered c (occurrences c (done ++ take (S i) raw))) raw.
Proof.
  induction raw as [|c rest IH]; intros done seen fixed Hseen.
  - cbn. by rewrite app_nil_r.
  - cbn [fix_columns imap].
    assert (Hnext : forall v, v = Z.of_nat (S (occurrences c done)) ->
      forall c', <[c := v]> seen !! c' =
        if (occurrences c' (done ++ [c]) =? 0)%nat then None
        else Some (Z.of_nat (occurrences c' (done ++ [c])))).
    { intros v -> c'. rewrite occurrences_snoc. destruct (decide (c = c')) as [<-|Hne].
      - rewrite lookup_insert_eq. rewrite Nat.add_1_r. done.
      - rewrite lookup_insert_ne by done. rewrite Nat.add_0_r. apply Hseen. }
    assert (Htail : forall i : nat,
      done ++ take (S (S i)) (c :: rest) = (done ++ [c]) ++ take (S i) rest).
    { intros i. by rewrite <- app_assoc. }
    assert (Hhead : occurrences c (done ++ take 1 (c :: rest)) = S (occurrences c done)).
    { cbn [take]. rewrite occurrences_snoc, decide_True by done. lia. }
    rewrite Hhead. rewrite (Hseen c).
    destruct (occurrences c done) as [|k] eqn:Hk.
    + cbn [Nat.eqb]. rewrite (IH (done ++ [c])) by (apply Hnext; rewrite ?Hk; lia).
      rewrite <- app_assoc. cbn [app]. f_equal. f_equal.
      apply imap_ext. intros i x _. unfold compose. by rewrite Htail.
    + cbn [Nat.eqb].
      rewrite (IH (done ++ [c])) by (apply Hnext; rewrite ?Hk; lia).
      rewrite <- app_assoc. cbn [app]. f_equal. f_equal.
      * unfold numbered. cbn [Nat.eqb]. do 3 f_equal. lia.
      * apply imap_ext. intros i x _. unfold compose. by rewrite Htail.
Qed.

Lemma fix_columns_distinct (raw : list string) :
  forall (seen : gmap string Z) (fixed : list string),
  NoDup raw -> (forall c, c ∈ raw -> seen !! c = None) ->
  fix_columns raw seen fixed = fixed ++ raw.
Proof.
  induction raw as [|c rest IH]; intros seen fixed Hnd Hseen.
  - cbn. by rewrite app_nil_r.
  - cbn [fix_columns]. rewrite (Hseen c) by left.
    apply NoDup_cons in Hnd as [Hc Hnd]. rewrite IH; [by rewrite <- app_assoc | done |].
    intros c' Hc'. rewrite lookup_insert_ne by (intros ->; done).
    apply Hseen. by right.
Qed.

(** X4. The names that [standardise_dataframe_columns] gives: as many as
    the table has columns; the column whose standardised name [c] occurs
    for the [k]-th time gets [c] when [k] is 1 and [c_k] otherwise; when the
    standardised names are distinct they are the names. The numbering
    does not make the names distinct in general: a numbered name can be
    the standardised name of another column. *)
Theorem standardise_dataframe_columns_names (columns : list string) :
  length (standardise_dataframe_columns columns) = length columns /\
  (forall i c, map standardise_col_name columns !! i = Some c ->
     standardise_dataframe_columns columns !! i =
       Some (numbered c (occurrences c (take (S i) (map standardise_col_name columns))))) /\
  (NoDup (map standardise_col_name columns) ->
     standardise_dataframe_columns columns = map standardise_col_name columns) /\
  (exists other, NoDup other /\ ~ NoDup (standardise_dataframe_columns other)).
Proof.
  unfold standardise_dataframe_columns.
  assert (Hspec : fix_columns (map standardise_col_name columns) ∅ [] =
    imap (fun i c => numbered c
            (occurrences c (take (S i) (map standardise_col_name columns))))
      (map standardise_col_name columns)).
  { rewrite (fix_columns_spec _ [] ∅ []); [done|]. intros c. by rewrite lookup_empty. }
  split_and!.
  - by rewrite Hspec, length_imap, length_map.
  - intros i c Hc. by rewrite Hspec, list_lookup_imap, Hc.
  - intros Hnd. by rewrite fix_columns_distinct.
  - exists ["a"; "A"; "a_2"]%string. split.
    + repeat constructor; not_in_list.
    + vm_compute. intros Hnd. apply NoDup_cons in Hnd as [_ Hnd].
      apply NoDup_cons in Hnd as [Hin _]. apply Hin. left.
Qed.

(** ** Flattened items *)

Lemma dict_set_keys (k : string) (v : json) (d : list (string * json)) :
  (dict_set k v d).*1 = if decide (k ∈ d.*1) then d.*1 else d.*1 ++ [k].
Proof.
  induction d as [|[k' v'] r IH]; [done|]. cbn [dict_set].
  destruct (String.eqb_spec k k') as [<-|Hne].
  - cbn. by rewrite decide_True by left.
  - cbn. rewrite IH. destruct (decide (k ∈ r.*1)) as [Hin|Hout].
    + by rewrite decide_True by (by right).
    + rewrite decide_False; [done|]. intros [?|?]%elem_of_cons; done.
Qed.

Lemma dict_set_NoDup (k : string) (v : json) (d : list (string * json)) :
  NoDup d.*1 -> NoDup (dict_set k v d).*1.
Proof.
  intros Hd. rewrite dict_set_keys. destruct (decide (k ∈ d.*1)); [done|].
  apply NoDup_app. split_and!; [done | | apply NoDup_singleton].
  intros x Hx ->%list_elem_of_singleton. done.
Qed.

Lemma dict_set_Forall (Q : string * json -> Prop) (k : string) (v : json)
    (d : list (string * json)) :
  Q (k, v) -> Forall Q d -> Forall Q (dict_set k v d).
Proof.
  intros Hkv Hd. induction Hd as [|[k' v'] r Hh Hr IH]; cbn [dict_set].
  - by repeat constructor.
  - destruct (String.eqb k k'); by constructor.
Qed.

Lemma dict_update_keeps (Q : string * json -> Prop) (other : list (string * json)) :
  forall d, Forall Q other -> NoDup d.*1 -> Forall Q d ->
  NoDup (dict_update d other).*1 /\ Forall Q (dict_update d other).
Proof.
  unfold dict_update. induction other as [|[k v] r IH]; intros d Ho Hnd Hd; [done|].
  apply Forall_cons in Ho as [Hkv Ho]. cbn [fold_left fst snd].
  apply IH; [done | by apply dict_set_NoDup | by apply dict_set_Forall].
Qed.

Lemma string_append_assoc (a b c : string) :
  ((a ++ b) ++ c = a ++ (b ++ c))%string.
Proof.
  induction a as [|x a IH]; [done|].
  change (String x ((a ++ b) ++ c) = String x (a ++ (b ++ c)))%string. by rewrite IH.
Qed.

Lemma string_append_empty (a : string) : (a ++ "" = a)%string.
Proof.
  induction a as [|x a IH]; [done|].
  change (String x (a ++ "") = String x a)%string. by rewrite IH.
Qed.

Section FlattenFacts.
Variable json_dumps : json -> string.

Lemma flatten_dict (d : list (string * json)) (parent_key sep : string)
    (max_depth _depth : nat) :
  flatten_any_simple json_dumps (JDict d) parent_key sep max_depth _depth =
    if (max_depth <? _depth)%nat
    then [(parent_key, JStr (json_dumps (JDict d)))]
    else flatten_items json_dumps d parent_key sep max_depth _depth [].
Proof.
  cbn [flatten_any_simple]. destruct (max_depth <? _depth)%nat; [done|].
  generalize (@nil (string * json)).
  induction d as [|[k v] r IH]; intros out; [done|]. cbn [flatten_items]. apply IH.
Qed.

Lemma flat_under_longer (parent_key more : string) (kv : string * json) :
  flat_under (parent_key ++ more)%string kv -> flat_under parent_key kv.
Proof.
  intros [Hs [rest Hk]]. split; [done|]. exists (more ++ rest)%string.
  by rewrite Hk, string_append_assoc.
Qed.

Lemma flatten_flat (sep : string) (max_depth : nat) (n : nat) :
  forall (obj : json) (parent_key : string) (_depth : nat),
  (S max_depth - _depth = n)%nat ->
  NoDup (flatten_any_simple json_dumps obj parent_key sep max_depth _depth).*1 /\
  Forall (flat_under parent_key)
    (flatten_any_simple json_dumps obj parent_key sep max_depth _depth).
Proof.
  assert (Hone : forall pk v, is_scalar v = true ->
    NoDup [(pk, v)].*1 /\ Forall (flat_under pk) [(pk, v)]).
  { intros pk v Hv. split; [apply NoDup_singleton|]. repeat constructor; [done|].
    exists ""%string. cbn [fst]. by rewrite string_append_empty. }
  induction n as [|n IH]; intros obj parent_key _depth Hn.
  - assert (Hd : (max_depth <? _depth)%nat = true) by (apply Nat.ltb_lt; lia).
    destruct obj; cbn [flatten_any_simple]; rewrite Hd; by apply Hone.
  - assert (Hd : (max_depth <? _depth)%nat = false) by (apply Nat.ltb_ge; lia).
    destruct obj as [| | | | |l|d];
      try (cbn [flatten_any_simple]; rewrite Hd; by apply Hone).
    rewrite flatten_dict, Hd.
    assert (Hloop : forall d out, NoDup out.*1 -> Forall (flat_under parent_key) out ->
      NoDup (flatten_items json_dumps d parent_key sep max_depth _depth out).*1 /\
      Forall (flat_under parent_key)
        (flatten_items json_dumps d parent_key sep max_depth _depth out)).
    { clear d. induction d as [|[k v] r IHd]; intros out Hnd Hout; [done|].
      cbn [flatten_items]. cbn zeta.
      set (nk := if String.eqb parent_key "" then k else (parent_key ++ sep ++ k)%string).
      destruct (IH v nk (S _depth) ltac:(lia)) as [_ Hsub].
      assert (Hsub' : Forall (flat_under parent_key)
        (flatten_any_simple json_dumps v nk sep max_depth (S _depth))).
      { eapply Forall_impl; [exact Hsub|]. intros kv Hkv. subst nk.
        destruct (String.eqb_spec parent_key "") as [->|_].
        - destruct Hkv as [Hs _]. split; [done|]. by exists kv.1.
        - by apply (flat_under_longer _ (sep ++ k)). }
      destruct (dict_update_keeps _ _ out Hsub' Hnd Hout) as [Hnd' Hout'].
      by apply IHd. }
    apply Hloop; [apply NoDup_nil_2 | constructor].
Qed.

End FlattenFacts.

(** X5. What [flatten_any_simple] returns is a flat record, for every
    value, separator and depth bound: no key occurs twice, no value is a
    dictionary or a list, and every key starts with [parent_key]. So the
    flattened columns of a row all start with [iga]. *)
Theorem flatten_any_simple_flat (json_dumps : json -> string) (obj : json)
    (parent_key sep : string) (max_depth _depth : nat) :
  NoDup (flatten_any_simple json_dumps obj parent_key sep max_depth _depth).*1 /\
  (forall k v, (k, v) ∈ flatten_any_simple json_dumps obj parent_key sep max_depth _depth ->
     is_dict v = false /\ is_list v = false /\
     exists rest, k = (parent_key ++ rest)%string).
Proof.
  destruct (flatten_flat json_dumps sep max_depth _ obj parent_key _depth eq_refl)
    as [Hnd Hall].
  split; [done|]. intros k v Hkv.
  destruct (proj1 (Forall_forall _ _) Hall _ Hkv) as [Hs Hk]. cbn [fst snd] in *.
  unfold is_scalar in Hs. apply andb_true_iff in Hs as [?%negb_true_iff ?%negb_true_iff].
  done.
Qed.

(** ** The SKU of an item *)

Lemma strip_blank (s : string) : blank s -> strip s = "".
Proof.
  unfold blank, strip, on_chars, strip_chars, blank_chars. intros Hb.
  assert (lstrip_chars (list_ascii_of_string s) = []) as ->; [|done].
  induction Hb as [|c r Hc _ IH]; [done|]. cbn. by rewrite Hc.
Qed.


(** ** The SKU index *)

Lemma update_sku_index_keys {RT : Runtime} (index : gmap string sku_entry)
    (sku brand : string) :
  sku <> "" -> dom (update_sku_index index sku brand) = {[sku]} ∪ dom index.
Proof.
  intros Hne. unfold update_sku_index.
  destruct (String.eqb_spec sku ""); [done|].
  destruct (index !! sku); by rewrite dom_insert_L.
Qed.

Lemma update_sku_index_other {RT : Runtime} (index : gmap string sku_entry)
    (sku brand k : string) :
  k <> sku -> update_sku_index index sku brand !! k = index !! k.
Proof.
  intros Hk. unfold update_sku_index.
  destruct (String.eqb sku ""); [done|].
  destruct (index !! sku); by rewrite lookup_insert_ne.
Qed.

Lemma update_sku_index_empty {RT : Runtime} (index : gmap string sku_entry)
    (brand : string) : update_sku_index index "" brand = index.
Proof. done. Qed.

(** The entry of an observed SKU: a new one for a SKU the index lacks, the
    old one with the brand appended, unless it is there, for another. *)
Lemma update_sku_index_at {RT : Runtime} (index : gmap string sku_entry)
    (sku brand : string) :
  sku <> "" ->
  update_sku_index index sku brand !! sku =
    Some match index !! sku with
         | None => {| first_seen := now_ts; last_seen := now_ts; seen_brands := [brand] |}
         | Some old =>
             {| first_seen := first_seen old; last_seen := now_ts;
                seen_brands := if bool_decide (brand ∈ seen_brands old)
                               then seen_brands old else seen_brands old ++ [brand] |}
         end.
Proof.
  intros Hne. unfold update_sku_index.
  destruct (String.eqb_spec sku ""); [done|].
  destruct (index !! sku); by rewrite lookup_insert_eq.
Qed.

(** X7. [update_sku_index] on a non-empty SKU touches the entry of that SKU
    only, and leaves it with the current time as [last_seen] and the brand
    among its brands. An entry that was there keeps its [first_seen] and
    its brands, in order, with the brand added at the end if it is new: the
    brands of the entry are the old ones and this one, and stay free of
    repetitions. On the empty SKU the index is left as it is. *)
Theorem update_sku_index_entry {RT : Runtime} (index : gmap string sku_entry)
    (sku brand : string) :
  update_sku_index index "" brand = index /\
  (sku <> "" ->
   (forall k, k <> sku -> update_sku_index index sku brand !! k = index !! k) /\
   dom (update_sku_index index sku brand) = {[sku]} ∪ dom index /\
   exists e, update_sku_index index sku brand !! sku = Some e /\
     last_seen e = now_ts /\ brand ∈ seen_brands e /\
     match index !! sku with
     | None => first_seen e = now_ts /\ seen_brands e = [brand]
     | Some old =>
         first_seen e = first_seen old /\
         seen_brands old `prefix_of` seen_brands e /\
         (forall b, b ∈ seen_brands e <-> b ∈ seen_brands old \/ b = brand) /\
         (NoDup (seen_brands old) -> NoDup (seen_brands e))
     end).
Proof.
  split; [done|]. intros Hne. split_and!.
  - intros k Hk. by apply update_sku_index_other.
  - by apply update_sku_index_keys.
  - eexists. split; [by apply update_sku_index_at|].
    destruct (index !! sku) as [old|]; cbn [first_seen last_seen seen_brands].
    + destruct (bool_decide_reflect (brand ∈ seen_brands old)) as [Hin|Hnin].
      * split_and!; try done. intros b. split; [by left | by intros [?| ->]].
      * split_and!; try done.
        -- apply elem_of_app. right. by left.
        -- by apply prefix_app_r.
        -- intros b. rewrite elem_of_app, list_elem_of_singleton. done.
        -- intros Hnd. apply NoDup_app. split_and!; [done | | apply NoDup_singleton].
           intros b Hb ->%list_elem_of_singleton. done.
    + split_and!; try done. by left.
Qed.

(** X8. Seeing a SKU again under the same brand changes [last_seen] only,
    whatever the clock shows by then; and observations of two different
    SKUs can be recorded in either order. *)
Theorem update_sku_index_again (RT1 RT2 : Runtime) (index : gmap string sku_entry)
    (sku brand sku' brand' : string) :
  (sku <> "" ->
   exists e, update_sku_index (RT := RT1) index sku brand !! sku = Some e /\
     update_sku_index (RT := RT2) (update_sku_index (RT := RT1) index sku brand) sku brand
       = <[sku := {| first_seen := first_seen e; last_seen := now_ts (Runtime := RT2);
                     seen_brands := seen_brands e |}]>
           (update_sku_index (RT := RT1) index sku brand)) /\
  (sku <> sku' ->
   update_sku_index (RT := RT2) (update_sku_index (RT := RT1) index sku brand) sku' brand'
   = update_sku_index (RT := RT1) (update_sku_index (RT := RT2) index sku' brand') sku brand).
Proof.
  split.
  - intros Hne. eexists. split; [by apply update_sku_index_at|].
    set (e := match index !! sku with None => _ | Some old => _ end).
    assert (He : update_sku_index (RT := RT1) index sku brand !! sku = Some e)
      by (by apply update_sku_index_at).
    assert (Hin : brand ∈ seen_brands e).
    { subst e. destruct (index !! sku) as [old|]; cbn; [|by left].
      destruct (bool_decide_reflect (brand ∈ seen_brands old)); [done|].
      apply elem_of_app. right. by left. }
    unfold update_sku_index at 1.
    destruct (String.eqb_spec sku ""); [done|]. rewrite He. cbn zeta.
    by rewrite bool_decide_eq_true_2.
  - intros Hne. apply map_eq. intros k.
    destruct (decide (k = sku)) as [->|Hk]; [|destruct (decide (k = sku')) as [->|Hk']].
    + rewrite update_sku_index_other by done.
      destruct (String.eqb_spec sku "") as [->|Hs].
      { rewrite !update_sku_index_empty. by rewrite update_sku_index_other. }
      rewrite !update_sku_index_at by done.
      by rewrite (update_sku_index_other (RT := RT2)) by done.
    + rewrite (update_sku_index_other (RT := RT1) _ sku) by done.
      destruct (String.eqb_spec sku' "") as [->|Hs].
      { rewrite !update_sku_index_empty. by rewrite update_sku_index_other. }
      rewrite !update_sku_index_at by done.
      by rewrite (update_sku_index_other (RT := RT1)) by done.
    + by rewrite !update_sku_index_other by done.
Qed.

(** ** What an invocation leaves on disk *)

Section Checkpoint.
Context {RT : Runtime}.

Lemma index_grows_process_item (index0 : gmap string sku_entry) (run_id brand : string)
    (w : world) (it : json) :
  index_grows index0 w -> index_grows index0 (process_item run_id brand w it).
Proof.
  intros [Hseen Hold]. unfold process_item.
  destruct (String.eqb_spec (extract_sku_from_item it) "") as [|Hsku]; [done|].
  set (sku := extract_sku_from_item it) in *.
  assert (Hkeep : forall k e0, index0 !! k = Some e0 ->
    exists e, update_sku_index (si w) sku brand !! k = Some e /\
      first_seen e = first_seen e0 /\ seen_brands e0 `prefix_of` seen_brands e).
  { intros k e0 Hk. destruct (Hold k e0 Hk) as (e & He & Hf & Hp).
    destruct (decide (k = sku)) as [->|Hne].
    - rewrite update_sku_index_at, He by done. eexists. split; [done|].
      cbn [first_seen seen_brands]. split; [done|].
      destruct (bool_decide (brand ∈ seen_brands e)); [done|].
      etrans; [exact Hp | by apply prefix_app_r].
    - rewrite update_sku_index_other by done. by exists e. }
  pose proof (update_sku_index_keys (si w) sku brand Hsku) as Hdom.
  destruct (decide (sku ∈ seen_skus w)) as [Hin|Hnin];
    split; cbn [seen_skus si]; try done.
  - rewrite Hdom, <- Hseen. set_solver.
  - by rewrite Hdom, Hseen.
Qed.

Lemma index_grows_brands_loop (index0 : gmap string sku_entry) (srv : server)
    (run_id : string) (last : Z) (fuel : nat) (ibrands : list (Z * string))
    (w : world) (r : stepped) :
  index_grows index0 w ->
  brands_loop srv run_id last fuel ibrands w = Some r ->
  index_grows index0 (stepped_world r).
Proof.
  apply (brands_loop_stable run_id (index_grows index0)); try done.
  intros brand w' it. apply index_grows_process_item.
Qed.


End Checkpoint.


(** ** Image tasks *)

Section ImageTasks.
Context {RT : Runtime}.

Lemma row_tasks_snoc (l : list row) (r : row) :
  row_tasks (l ++ [r]) =
    row_tasks l ++ (if String.eqb (row_primary_image_url r) "" then []
                    else [(row_sku r, row_primary_image_url r)]).
Proof.
  unfold row_tasks. rewrite filter_app, map_app. f_equal.
  rewrite filter_cons, filter_nil.
  destruct (String.eqb_spec (row_primary_image_url r) "") as [He|Hne].
  - by rewrite decide_False by (intros H; by apply H).
  - by rewrite decide_True.
Qed.

Lemma image_tasks_process_item (run_id brand : string) (w : world) (it : json) :
  image_tasks w = (if DOWNLOAD_IMAGES then row_tasks (rows w) else []) ->
  image_tasks (process_item run_id brand w it)
  = (if DOWNLOAD_IMAGES then row_tasks (rows (process_item run_id brand w it)) else []).
Proof.
  intros Hw. unfold process_item.
  destruct (String.eqb (extract_sku_from_item it) ""); [done|].
  destruct (decide _); [done|]. cbn [image_tasks rows].
  rewrite row_tasks_snoc, Hw. cbn [item_to_row row_primary_image_url row_sku].
  destruct DOWNLOAD_IMAGES; [|done]. cbn [andb].
  destruct (String.eqb _ ""); cbn [negb]; [by rewrite app_nil_r | done].
Qed.

(** X10. The image tasks an invocation has queued when the brand loop is
    over, however it ended: none when [DOWNLOAD_IMAGES] is off; otherwise
    one for each row it wrote whose [PrimaryImageUrl] is not empty, in the
    order of the rows, made of the row's SKU and that URL. So no SKU has two
    tasks, and a SKU that was in the index at startup has none, whether
    its image is on disk or not. *)
Theorem image_tasks_of_rows (srv : server) (fuel : nat) (brands : list string) (d : disk)
    (o : outcome) :
  scrape_weekly_snapshot_by_brands srv fuel brands d = Some o ->
  image_tasks (outcome_world o)
    = (if DOWNLOAD_IMAGES then row_tasks (rows (outcome_world o)) else []) /\
  NoDup (image_tasks (outcome_world o)).*1 /\
  (forall sku url, (sku, url) ∈ image_tasks (outcome_world o) ->
     sku <> "" /\ url <> "" /\ (sku ∉ dom (disk_sku_index d)) /\
     exists r, r ∈ rows (outcome_world o) /\ row_sku r = sku /\
               row_primary_image_url r = url).
Proof.
  unfold scrape_weekly_snapshot_by_brands.
  set (run_id := load_or_create_run_id (disk_run_progress d)).
  destruct (init_run_progress run_id _ _) as [rp run_file].
  set (w0 := start_world run_file d).
  assert (H0 : fresh_rows run_id (disk_jsonl d) (dom (disk_sku_index d)) w0).
  { unfold fresh_rows. cbn. rewrite app_nil_r. split_and!; try done.
    - constructor.
    - set_solver.
    - intros r Hr. by apply elem_of_nil in Hr. }
  assert (T0 : image_tasks w0 = if DOWNLOAD_IMAGES then row_tasks (rows w0) else [])
    by (cbn; by destruct DOWNLOAD_IMAGES).
  destruct (brands_loop _ _ _ _ _ _) as [r|] eqn:Hl; [|done].
  pose proof (fresh_rows_brands_loop _ _ _ _ _ _ _ _ _ H0 Hl) as (_ & _ & Hnd & _ & Hrows).
  assert (HT : image_tasks (stepped_world r)
               = if DOWNLOAD_IMAGES then row_tasks (rows (stepped_world r)) else []).
  { revert T0 Hl.
    apply (brands_loop_stable run_id
             (fun w => image_tasks w = if DOWNLOAD_IMAGES then row_tasks (rows w) else []));
      try done.
    intros brand w it. apply image_tasks_process_item. }
  assert (Hw : forall w, rows w = rows (stepped_world r) ->
    image_tasks w = image_tasks (stepped_world r) ->
    image_tasks w = (if DOWNLOAD_IMAGES then row_tasks (rows w) else []) /\
    NoDup (image_tasks w).*1 /\
    (forall sku url, (sku, url) ∈ image_tasks w ->
       sku <> "" /\ url <> "" /\ (sku ∉ dom (disk_sku_index d)) /\
       exists r, r ∈ rows w /\ row_sku r = sku /\ row_primary_image_url r = url)).
  { intros w -> ->. split; [done|]. rewrite HT.
    destruct DOWNLOAD_IMAGES; [|split; [constructor | intros ? ? []%elem_of_nil]].
    unfold row_tasks. split.
    - rewrite <- list_fmap_compose.
      apply (sublist_NoDup _ (map row_sku (rows (stepped_world r)))); [done|].
      change (row_sku <$> filter (fun r => row_primary_image_url r <> "")
                (rows (stepped_world r)) `sublist_of` row_sku <$> rows (stepped_world r)).
      apply fmap_sublist, sublist_filter.
    - intros sku url Hin. apply list_elem_of_fmap in Hin as (r0 & [= -> ->] & Hr0).
      apply list_elem_of_filter in Hr0 as [Hurl Hr0].
      destruct (Hrows r0 Hr0) as (? & ? & ?). split_and!; try done. by exists r0. }
  destruct r as [w|w]; intros [= <-]; by apply Hw.
Qed.

End ImageTasks.

Lemma image_tasks_of_rows_witness :
  exists o,
    scrape_weekly_snapshot_by_brands (RT := sample_runtime) sample_server 5
      ["Acme"; "Bolt"] empty_disk = Some o /\
    image_tasks (outcome_world o)
      = (if DOWNLOAD_IMAGES (Runtime := sample_runtime)
         then row_tasks (rows (outcome_world o)) else []) /\
    NoDup (image_tasks (outcome_world o)).*1 /\
    (forall sku url, (sku, url) ∈ image_tasks (outcome_world o) ->
       sku <> "" /\ url <> "" /\ (sku ∉ dom (disk_sku_index empty_disk)) /\
       exists r, r ∈ rows (outcome_world o) /\ row_sku r = sku /\
                 row_primary_image_url r = url).
Proof.
  eexists. split; [by vm_compute|].
  apply (image_tasks_of_rows (RT := sample_runtime) sample_server 5 ["Acme"; "Bolt"]
           empty_disk).
  by vm_compute.
Defined.

(** ** The run document after a failure *)

Section FailedRun.
Context {RT : Runtime}.

(** The run document on disk is that of the running run [run_id]. *)
Local Abbreviation running run_id w :=
  (rd_status (run_progress_json w) = Some "RUNNING" /\
   rd_run_id (run_progress_json w) = Some run_id).

Lemma running_brands_loop (srv : server) (run_id : string) (last : Z) (fuel : nat)
    (ibrands : list (Z * string)) (w : world) (r : stepped) :
  running run_id w ->
  brands_loop srv run_id last fuel ibrands w = Some r ->
  running run_id (stepped_world r).
Proof.
  apply (brands_loop_stable run_id (fun w => running run_id w)); try done.
  - intros bi w' [Hs Hid]. unfold autosave. cbn [run_progress_json].
    by rewrite bool_decide_eq_true_2.
  - intros brand w' it H. unfold process_item.
    destruct (String.eqb _ ""); [done|]. by destruct (decide _).
Qed.

Lemma init_run_progress_running (run_id : string) (n : Z) (file : run_doc) :
  rd_status (snd (init_run_progress run_id n file)) = Some "RUNNING" /\
  rd_run_id (snd (init_run_progress run_id n file)) = Some run_id /\
  fst (init_run_progress run_id n file) = snd (init_run_progress run_id n file).
Proof.
  unfold init_run_progress.
  destruct (bool_decide_reflect (rd_status file = Some "RUNNING")); [|done].
  by destruct (bool_decide_reflect (rd_run_id file = Some run_id)).
Qed.

Lemma load_or_create_run_id_nonempty (rp : run_doc) :
  now_stamp <> "" -> load_or_create_run_id rp <> "".
Proof.
  intros Hstamp. unfold load_or_create_run_id.
  destruct (rd_status rp) as [status|]; [|done].
  destruct (rd_run_id rp) as [id|]; [|done].
  destruct (String.eqb status "RUNNING"); [|done].
  by destruct (String.eqb_spec id "").
Qed.

(** The document the handler leaves. *)
Lemma failed_run_document (srv : server) (fuel : nat) (brands : list string) (d : disk)
    (w : world) :
  now_stamp <> "" ->
  scrape_weekly_snapshot_by_brands srv fuel brands d = Some (Failed w) ->
  let run_id := load_or_create_run_id (disk_run_progress d) in
  let started := fst (init_run_progress run_id (Z.of_nat (length brands))
                        (disk_run_progress d)) in
  run_id <> "" /\
  rd_status (run_progress_json w) = Some "RUNNING" /\
  rd_run_id (run_progress_json w) = Some run_id /\
  rd_last_brand_index (run_progress_json w)
    = Some (default (-1) (rd_last_brand_index started)) /\
  (started <> disk_run_progress d -> rd_last_brand_index started = Some (-1)).
Proof.
  intros Hstamp. unfold scrape_weekly_snapshot_by_brands.
  pose proof (load_or_create_run_id_nonempty (disk_run_progress d) Hstamp) as Hne.
  set (run_id := load_or_create_run_id (disk_run_progress d)) in *.
  pose proof (init_run_progress_running run_id (Z.of_nat (length brands))
                (disk_run_progress d)) as (Hs0 & Hid0 & Hsame).
  assert (Hfresh : fst (init_run_progress run_id (Z.of_nat (length brands))
                          (disk_run_progress d)) <> disk_run_progress d ->
                   rd_last_brand_index
                     (fst (init_run_progress run_id (Z.of_nat (length brands))
                             (disk_run_progress d))) = Some (-1)).
  { unfold init_run_progress.
    by destruct (bool_decide (rd_status (disk_run_progress d) = Some "RUNNING") &&
                 bool_decide (rd_run_id (disk_run_progress d) = Some run_id)). }
  destruct (init_run_progress run_id _ _) as [rp run_file]. cbn [fst snd] in *.
  assert (H0 : running run_id (start_world run_file d)) by done.
  destruct (brands_loop _ _ _ _ _ _) as [[w0|w0]|] eqn:Hl; [done| |done].
  intros [= <-]. cbn zeta.
  destruct (running_brands_loop _ _ _ _ _ _ _ H0 Hl) as [Hs Hid]. cbn in Hs, Hid.
  unfold autosave. cbn [run_progress_json]. by rewrite bool_decide_eq_true_2.
Qed.

End FailedRun.

(** X11. When an exception ends the invocation, the handler leaves the run
    document [RUNNING] under the run id of the invocation, with
    [last_brand_index] set back to the value the invocation started from
    ([-1] for a run that was not resumed), not the index it had reached. The
    next invocation, whenever it starts, takes that document as it is: it
    gets the same run id, so the same snapshot files, and the same
    [last_brand_index]. *)
Theorem failed_run_resumes (RT RT' : Runtime) (srv : server) (fuel : nat)
    (brands brands' : list string) (d : disk) (w : world) :
  now_stamp (Runtime := RT) <> "" ->
  scrape_weekly_snapshot_by_brands (RT := RT) srv fuel brands d = Some (Failed w) ->
  let run_id := load_or_create_run_id (RT := RT) (disk_run_progress d) in
  let started := fst (init_run_progress (RT := RT) run_id (Z.of_nat (length brands))
                        (disk_run_progress d)) in
  rd_status (run_progress_json w) = Some "RUNNING" /\
  rd_run_id (run_progress_json w) = Some run_id /\
  rd_last_brand_index (run_progress_json w)
    = Some (default (-1) (rd_last_brand_index started)) /\
  (started <> disk_run_progress d -> rd_last_brand_index (run_progress_json w) = Some (-1)) /\
  load_or_create_run_id (RT := RT') (run_progress_json w) = run_id /\
  snapshot_paths (load_or_create_run_id (RT := RT') (run_progress_json w))
    = snapshot_paths run_id /\
  init_run_progress (RT := RT') run_id (Z.of_nat (length brands')) (run_progress_json w)
    = (run_progress_json w, run_progress_json w).
Proof.
  intros Hstamp Hrun run_id started.
  destruct (failed_run_document (RT := RT) srv fuel brands d w Hstamp Hrun)
    as (Hne & Hs & Hid & Hlast & Hfresh).
  fold run_id in Hne, Hid, Hlast, Hfresh. fold started in Hlast, Hfresh.
  assert (Hagain : load_or_create_run_id (RT := RT') (run_progress_json w) = run_id).
  { unfold load_or_create_run_id at 1. rewrite Hs, Hid. cbn.
    by destruct (String.eqb_spec run_id ""). }
  split_and!; try done.
  - intros Hnew. rewrite Hlast. by rewrite (Hfresh Hnew).
  - by rewrite Hagain.
  - unfold init_run_progress. by rewrite !bool_decide_eq_true_2.
Qed.

Lemma failed_run_resumes_witness :
  exists w,
    scrape_weekly_snapshot_by_brands (RT := sample_runtime) array_server 5
      ["Acme"; "Bolt"] sample_resume_disk = Some (Failed w) /\
    rd_status (run_progress_json w) = Some "RUNNING" /\
    rd_run_id (run_progress_json w) = Some "20250101_000000" /\
    rd_last_brand_index (run_progress_json w) = Some 0 /\
    load_or_create_run_id (RT := sample_runtime) (run_progress_json w) = "20250101_000000".
Proof.
  eexists. split; [by vm_compute|].
  pose proof (failed_run_resumes sample_runtime sample_runtime array_server 5
                ["Acme"; "Bolt"] ["Acme"; "Bolt"] sample_resume_disk _
                ltac:(discriminate) ltac:(by vm_compute))
    as (Hs & Hid & Hlast & _ & Hnext & _).
  split_and!; [exact Hs | exact Hid | exact Hlast | exact Hnext].
Defined.

(** ** The brand progress *)

(** What the page loop of one brand keeps: a property kept by the writes to
    the entry of that brand, and by the other steps. *)
Section StableAt.
Context {RT : Runtime}.
Variables (run_id bkey : string).
Variable P : world -> Prop.
Hypothesis P_autosave : forall bi w, P w -> P (autosave run_id bi w).
Hypothesis P_set_brand : forall st w, P w -> P (set_brand bkey st w).
Hypothesis P_process_item : forall brand w it, P w -> P (process_item run_id brand w it).
Hypothesis P_count_fetch : forall w, P w -> P (count_fetch w).

Lemma process_items_stable_at (brand : string) (items : list json) (w : world) :
  P w -> P (process_items run_id brand items w).
Proof.
  unfold process_items. revert w.
  induction items as [|it items IH]; intros w Hw; [done|].
  cbn. apply IH. by apply P_process_item.
Qed.

Lemma paginate_stable_at (srv : server) (bi : Z) (brand : string) (fuel : nat) :
  forall skip total page_count w r,
    P w ->
    paginate srv run_id bi brand bkey fuel skip total page_count w = Some r ->
    P (paged_world r).
Proof.
  induction fuel as [|fuel IH]; intros skip total page_count w r Hw; [done|].
  cbn [paginate].
  destruct (srv (fetches w) brand skip) as [payload status].
  destruct (negb (truthy payload) || negb (String.eqb status "SUCCESS")).
  { intros [= <-]. cbn. auto. }
  destruct (match total with JNull => extract_total payload | _ => Returns total end)
    as [total'|]; [|intros [= <-]; cbn; auto].
  destruct (extract_items payload) as [[|it items]|]; [| |intros [= <-]; cbn; auto].
  { intros [= <-]. cbn. auto. }
  set (w1 := process_items run_id brand (it :: items) (count_fetch w)).
  assert (Hw1 : P w1) by (apply process_items_stable_at; auto).
  set (w2 := set_brand bkey _ w1). assert (Hw2 : P w2) by (apply P_set_brand; auto).
  set (w3 := if _ =? 0 then autosave run_id bi w2 else w2).
  assert (Hw3 : P w3) by (subst w3; destruct (_ =? 0); auto).
  destruct (Z.of_nat (length (it :: items)) <? TAKE); [intros [= <-]; cbn; auto|].
  destruct (total_reached total' (skip + TAKE)); [intros [= <-]; cbn; auto|].
  by apply IH.
Qed.

End StableAt.

Section BrandProgress.
Context {RT : Runtime}.

Lemma bp_process_item (run_id brand : string) (w : world) (it : json) :
  bp (process_item run_id brand w it) = bp w.
Proof.
  unfold process_item. destruct (String.eqb _ ""); [done|]. by destruct (decide _).
Qed.

(** The page loop of a brand writes the entry of that brand only. *)
Lemma paginate_bp_other (srv : server) (run_id : string) (bi : Z) (brand bkey : string)
    (fuel : nat) (skip : Z) (total : json) (pc : Z) (w : world) (r : paged) (k : string) :
  k <> bkey ->
  paginate srv run_id bi brand bkey fuel skip total pc w = Some r ->
  bp (paged_world r) !! k = bp w !! k.
Proof.
  intros Hk.
  apply (paginate_stable_at run_id bkey (fun w' => bp w' !! k = bp w !! k)); try done.
  - intros st w' Hw'. cbn. by rewrite lookup_insert_ne.
  - intros b w' it Hw'. by rewrite bp_process_item.
Qed.

(** One brand of the list: the entry of a key is left as it is when the
    brand has another key, and when the entry is done. *)
Lemma brand_step_bp_kept (srv : server) (run_id : string) (last : Z) (fuel : nat)
    (bi : Z) (brand : string) (w : world) (r : stepped) (k : string) :
  (norm_key (strip brand) = k -> exists st, bp w !! k = Some st /\ bs_done st = true) ->
  brand_step srv run_id last fuel bi brand w = Some r ->
  bp (stepped_world r) !! k = bp w !! k.
Proof.
  intros Hdone. unfold brand_step.
  destruct (bi <=? last); [by intros [= <-]|].
  destruct (String.eqb (strip brand) ""); [by intros [= <-]|].
  destruct (decide (norm_key (strip brand) = k)) as [Hk|Hk].
  { destruct (Hdone Hk) as (st & Hst & Hd). rewrite Hk, Hst. cbn [default from_option].
    unfold id. rewrite Hd. by intros [= <-]. }
  destruct (bs_done _); [by intros [= <-]|].
  destruct (paginate _ _ _ _ _ _ _ _ _ _) as [[e w'|w']|] eqn:Hp; [| |done].
  - apply (paginate_bp_other _ _ _ _ _ _ _ _ _ _ _ k) in Hp; [|done].
    intros [= <-]. cbn in *. by destruct (_ =? 0).
  - apply (paginate_bp_other _ _ _ _ _ _ _ _ _ _ _ k) in Hp; [|done].
    by intros [= <-].
Qed.

Lemma brands_loop_bp_kept (srv : server) (run_id : string) (last : Z) (fuel : nat)
    (k : string) (ibrands : list (Z * string)) :
  forall w r,
    (forall bi b, (bi, b) ∈ ibrands -> norm_key (strip b) = k ->
       exists st, bp w !! k = Some st /\ bs_done st = true) ->
    brands_loop srv run_id last fuel ibrands w = Some r ->
    bp (stepped_world r) !! k = bp w !! k.
Proof.
  induction ibrands as [|[bi brand] rest IH]; intros w r Hdone; cbn [brands_loop].
  - by intros [= <-].
  - destruct (brand_step srv run_id last fuel bi brand w) as [[w'|w']|] eqn:Hs; [| |done].
    + apply (brand_step_bp_kept _ _ _ _ _ _ _ _ k) in Hs;
        [|intros Hk; apply (Hdone bi brand); [by left | done]].
      cbn in Hs. intros Hl. rewrite <- Hs. apply IH; [|done].
      intros bi' b' Hin Hk. rewrite Hs. apply (Hdone bi' b'); [by right | done].
    + apply (brand_step_bp_kept _ _ _ _ _ _ _ _ k) in Hs;
        [|intros Hk; apply (Hdone bi brand); [by left | done]].
      by intros [= <-].
Qed.

(** X12. The entry of a key in the brand progress is never rewritten once
    it is done, and never by another brand: if every brand of the list
    that has the key [k] (there may be none) finds the entry of [k] done at
    startup, the invocation leaves that entry, in memory and on disk, as it
    found it, however it ends. Nothing in the program sets a done entry
    back: a brand that is done stays done for the later runs. *)
Theorem done_brand_stays (srv : server) (fuel : nat) (brands : list string) (d : disk)
    (o : outcome) (k : string) :
  (forall b, b ∈ brands -> norm_key (strip b) = k ->
     exists st, disk_brand_progress d !! k = Some st /\ bs_done st = true) ->
  scrape_weekly_snapshot_by_brands srv fuel brands d = Some o ->
  bp (outcome_world o) !! k = disk_brand_progress d !! k /\
  brand_progress_json (outcome_world o) !! k = disk_brand_progress d !! k.
Proof.
  intros Hdone. unfold scrape_weekly_snapshot_by_brands.
  set (run_id := load_or_create_run_id (disk_run_progress d)).
  destruct (init_run_progress run_id _ _) as [rp run_file].
  destruct (brands_loop _ _ _ _ _ _) as [r|] eqn:Hl; [|done].
  assert (S0 : saved (start_world run_file d)) by done.
  assert (Hkept : bp (stepped_world r) !! k = disk_brand_progress d !! k).
  { apply (brands_loop_bp_kept _ _ _ _ k) in Hl; [done|].
    intros bi b Hin Hk. apply (Hdone b); [|done].
    apply list_elem_of_lookup in Hin as [i Hi].
    apply enumerate_lookup in Hi as [_ Hi]. by apply list_elem_of_lookup_2 in Hi. }
  destruct r as [w|w]; intros [= <-]; cbn in *.
  - apply brands_loop_saved in Hl as [_ Hbp]; [|done]. by rewrite Hbp.
  - done.
Qed.

End BrandProgress.

Lemma done_brand_stays_witness :
  exists o,
    scrape_weekly_snapshot_by_brands (RT := sample_runtime) sample_server 5
      ["Acme"; "Bolt"] sample_done_disk = Some o /\
    bp (outcome_world o) !! "acme" = disk_brand_progress sample_done_disk !! "acme" /\
    brand_progress_json (outcome_world o) !! "acme"
      = disk_brand_progress sample_done_disk !! "acme".
Proof.
  eexists. split; [by vm_compute|].
  apply (done_brand_stays (RT := sample_runtime) sample_server 5 ["Acme"; "Bolt"]
           sample_done_disk _ "acme").
  - intros b _ _. eexists. split; by vm_compute.
  - by vm_compute.
Defined.

Section AllDone.
Context {RT : Runtime}.

(** A brand that is blank or done costs no fetch. *)
Lemma brands_loop_all_done (srv : server) (run_id : string) (last : Z) (fuel : nat)
    (ibrands : list (Z * string)) :
  forall w,
    (forall bi b, (bi, b) ∈ ibrands ->
       strip b = "" \/ exists st, bp w !! norm_key (strip b) = Some st /\ bs_done st = true) ->
    exists w', brands_loop srv run_id last fuel ibrands w = Some (Continues w') /\
      fetches w' = fetches w /\ rows w' = rows w /\ image_tasks w' = image_tasks w /\
      bp w' = bp w /\ si w' = si w /\ seen_skus w' = seen_skus w /\
      snapshot_jsonl w' = snapshot_jsonl w /\
      (rd_run_id (run_progress_json w) = Some run_id ->
       rd_run_id (run_progress_json w') = Some run_id) /\
      (saved w -> saved w').
Proof.
  induction ibrands as [|[bi brand] rest IH]; intros w Hdone; cbn [brands_loop].
  - exists w. by split_and!.
  - assert (Hstep : exists w1, brand_step srv run_id last fuel bi brand w = Some (Continues w1) /\
      (w1 = w \/ w1 = autosave run_id bi w)).
    { unfold brand_step. destruct (bi <=? last); [by eexists; split; [|left]|].
      destruct (Hdone bi brand ltac:(by left)) as [Hb|(st & Hst & Hd)].
      - rewrite Hb. cbn. eexists. split; [done | by right].
      - destruct (String.eqb (strip brand) ""); [by eexists; split; [|right]|].
        rewrite Hst. cbn [default from_option]. unfold id. rewrite Hd.
        eexists. split; [done | by right]. }
    destruct Hstep as (w1 & -> & Hw1).
    assert (Hsame : fetches w1 = fetches w /\ rows w1 = rows w /\
              image_tasks w1 = image_tasks w /\ bp w1 = bp w /\ si w1 = si w /\
              seen_skus w1 = seen_skus w /\ snapshot_jsonl w1 = snapshot_jsonl w /\
              (rd_run_id (run_progress_json w) = Some run_id ->
               rd_run_id (run_progress_json w1) = Some run_id) /\
              (saved w -> saved w1)).
    { destruct Hw1 as [->| ->]; [by split_and!|]. split_and!; try done.
      intros Hid. by apply names_run_autosave. }
    destruct Hsame as (Hf & Hr & Hi & Hbp & Hsi & Hseen & Hj & Hid & Hsv).
    destruct (IH w1) as (w' & Hl & Hf' & Hr' & Hi' & Hbp' & Hsi' & Hseen' & Hj' & Hid' & Hsv').
    { intros bi' b' Hin. rewrite Hbp. apply (Hdone bi' b'). by right. }
    exists w'. split; [done|]. split_and!; try congruence; auto.
Qed.


End AllDone.


(** ** Offsets of the page loop *)

Lemma same_answers_first (srv srv' : server) (brand : string) (skip : Z) (from upto : nat) :
  same_answers srv srv' brand skip from upto -> (from < upto)%nat ->
  srv' from brand skip = srv from brand skip.
Proof.
  intros H Hlt. specialize (H 0%nat). rewrite Nat.add_0_r in H.
  replace (skip + TAKE * Z.of_nat 0) with skip in H by lia. apply H. lia.
Qed.

Lemma same_answers_next (srv srv' : server) (brand : string) (skip : Z) (from upto : nat) :
  same_answers srv srv' brand skip from upto ->
  same_answers srv srv' brand (skip + TAKE) (S from) upto.
Proof.
  intros H i Hi. specialize (H (S i)).
  replace (from + S i)%nat with (S from + i)%nat in H by lia.
  replace (skip + TAKE * Z.of_nat (S i)) with (skip + TAKE + TAKE * Z.of_nat i) in H by lia.
  apply H. lia.
Qed.

Section Offsets.
Context {RT : Runtime}.
Variables (run_id : string) (bi : Z) (brand bkey : string).

(** The number of fetches that an exit adds to the pages processed: the
    fetch that failed, or that brought the empty page. *)
Local Abbreviation last_fetch e :=
  (match e with FetchFailed | EmptyPage => 1%nat | _ => 0%nat end).

Lemma paginate_offsets_at (srv : server) (fuel : nat) :
  forall skip total pc w e w',
    paginate srv run_id bi brand bkey fuel skip total pc w = Some (Exited e w') ->
    exists p : nat,
      (bs_skip <$> bp w' !! bkey) = Some (skip + TAKE * Z.of_nat p) /\
      fetches w' = (fetches w + p + last_fetch e)%nat /\
      match e with ShortPage | TotalReached => (1 <= p)%nat | _ => p = p end /\
      (forall srv', same_answers srv srv' brand skip (fetches w) (fetches w') ->
         paginate srv' run_id bi brand bkey fuel skip total pc w = Some (Exited e w')).
Proof.
  induction fuel as [|fuel IH]; intros skip total pc w e w' Hrun; [done|].
  destruct (srv (fetches w) brand skip) as [payload status] eqn:Hsrv.
  assert (Hback : skip + TAKE * Z.of_nat 0 = skip) by lia.
  assert (Hone : skip + TAKE * Z.of_nat 1 = skip + TAKE) by lia.
  destruct (response_cases payload status)
    as [Hfail | [(-> & Ht & Hd) | (-> & Ht & t0 & items & Htot & Hit)]].
  - rewrite (paginate_fetch_failed _ _ _ _ _ _ _ _ _ _ _ _ Hsrv Hfail) in Hrun.
    injection Hrun as <- <-. exists 0%nat. split_and!.
    + cbn. by rewrite lookup_insert_eq, Hback.
    + cbn. lia.
    + done.
    + intros srv' Hag. apply (paginate_fetch_failed _ _ _ _ _ _ _ _ _ _ payload status); [|done].
      rewrite (same_answers_first _ _ _ _ _ _ Hag); [done | cbn; lia].
  - by rewrite (paginate_crashes _ _ _ _ _ _ _ _ _ _ _ Hsrv Ht Hd) in Hrun.
  - destruct items as [|it items'] eqn:Hitems.
    { rewrite (paginate_empty_page _ _ _ _ _ _ _ _ _ _ _ _ Hsrv Ht Htot Hit) in Hrun.
      injection Hrun as <- <-. exists 0%nat. split_and!.
      + cbn. by rewrite lookup_insert_eq, Hback.
      + cbn. lia.
      + done.
      + intros srv' Hag.
        apply (paginate_empty_page _ _ _ _ _ _ _ _ _ _ payload t0); try done.
        rewrite (same_answers_first _ _ _ _ _ _ Hag); [done | cbn; lia]. }
    rewrite <- Hitems in *. assert (Hne : items <> []) by (by subst items).
    clear Hitems it items'.
    set (total' := learn_total total t0) in *.
    assert (Hf1 : fetches (after_page run_id bi brand bkey skip total' pc items w)
                  = S (fetches w)) by apply after_page_fetches.
    pose proof (fun t w0 => close_brand_entry run_id bi brand bkey (skip + TAKE) true t w0)
      as Hclose. cbn zeta in Hclose.
    subst total'.
    destruct (Z.lt_ge_cases (Z.of_nat (length items)) TAKE) as [Hshort|Hfull].
    { rewrite (paginate_short_page _ _ _ _ _ _ _ _ _ _ _ _ _ Hsrv Ht Htot Hit Hne Hshort)
        in Hrun.
      injection Hrun as <- <-.
      exists 1%nat. split_and!.
      + rewrite (proj1 (proj2 (Hclose _ _))). cbn. by rewrite Hone.
      + rewrite (proj1 (Hclose _ _)), Hf1. lia.
      + done.
      + intros srv' Hag.
        apply (paginate_short_page _ _ _ _ _ _ _ _ _ _ payload t0 items); try done.
        rewrite (same_answers_first _ _ _ _ _ _ Hag); [done|].
        rewrite (proj1 (Hclose _ _)), Hf1. lia. }
    destruct (total_reached (learn_total total t0) (skip + TAKE)) eqn:Hreach.
    { rewrite (paginate_total_reached _ _ _ _ _ _ _ _ _ _ _ _ _ Hsrv Ht Htot Hit Hfull Hreach)
        in Hrun.
      injection Hrun as <- <-.
      exists 1%nat. split_and!.
      + rewrite (proj1 (proj2 (Hclose _ _))). cbn. by rewrite Hone.
      + rewrite (proj1 (Hclose _ _)), Hf1. lia.
      + done.
      + intros srv' Hag.
        apply (paginate_total_reached _ _ _ _ _ _ _ _ _ _ payload t0 items); try done.
        rewrite (same_answers_first _ _ _ _ _ _ Hag); [done|].
        rewrite (proj1 (Hclose _ _)), Hf1. lia. }
    rewrite (paginate_continues _ _ _ _ _ _ _ _ _ _ _ _ _ Hsrv Ht Htot Hit Hfull Hreach)
      in Hrun.
    destruct (IH _ _ _ _ _ _ Hrun) as (p & Hskip & Hfetch & Hp & Hext).
    exists (S p). split_and!.
    + rewrite Hskip. f_equal. lia.
    + rewrite Hfetch, Hf1. lia.
    + destruct e; try done; lia.
    + intros srv' Hag.
      rewrite (paginate_continues srv' _ _ _ _ _ _ _ _ _ payload t0 items); try done.
      * apply Hext. rewrite Hf1. by apply same_answers_next.
      * rewrite (same_answers_first _ _ _ _ _ _ Hag); [done|]. rewrite Hfetch, Hf1. lia.
Qed.

End Offsets.

(** X14. When the page loop of a brand ends, the offset it leaves in the
    entry of the brand is the offset it started from plus [TAKE] for each
    page it processed, whatever the pages held; it made one fetch for each
    of these pages, and one more when it ended on a failed fetch or on an
    empty page; it ends on a short page or on the total only after at
    least one page. The fetches it made asked for the offsets [skip],
    [skip + TAKE], [skip + 2 * TAKE], ... in this order and nothing else: a
    server that answers these requests alike leads to the same end. *)
Theorem paginate_offsets {RT : Runtime} (srv : server) (run_id : string) (bi : Z)
    (brand bkey : string) (fuel : nat) (skip : Z) (total : json) (pc : Z)
    (w : world) (e : loop_exit) (w' : world) :
  paginate srv run_id bi brand bkey fuel skip total pc w = Some (Exited e w') ->
  exists p : nat,
    (bs_skip <$> bp w' !! bkey) = Some (skip + TAKE * Z.of_nat p) /\
    (bs_skip <$> brand_progress_json w' !! bkey) = Some (skip + TAKE * Z.of_nat p) /\
    fetches w' = (fetches w + p +
                  match e with FetchFailed | EmptyPage => 1 | _ => 0 end)%nat /\
    match e with ShortPage | TotalReached => (1 <= p)%nat | _ => (0 <= p)%nat end /\
    (forall srv', same_answers srv srv' brand skip (fetches w) (fetches w') ->
       paginate srv' run_id bi brand bkey fuel skip total pc w = Some (Exited e w')).
Proof.
  intros Hrun.
  destruct (paginate_offsets_at run_id bi brand bkey srv fuel _ _ _ _ _ _ Hrun)
    as (p & Hskip & Hfetch & Hp & Hext).
  apply paginate_exit_saved in Hrun as [_ Hbp].
  exists p. split_and!; try done.
  - by rewrite Hbp.
  - destruct e; try done; lia.
Qed.

Lemma paginate_offsets_witness :
  exists w',
    paginate (RT := sample_runtime) sample_server "r" 0 "Acme" "acme" 5 0 JNull 0
      (start_world empty_run_doc empty_disk) = Some (Exited ShortPage w') /\
    (bs_skip <$> bp w' !! "acme") = Some 50 /\ fetches w' = 1%nat.
Proof.
  eexists. split; [by vm_compute|].
  destruct (paginate_offsets (RT := sample_runtime) sample_server "r" 0 "Acme" "acme" 5
              0 JNull 0 (start_world empty_run_doc empty_disk) ShortPage _
              ltac:(by vm_compute)) as (p & _ & _ & _ & _ & _).
  split; by vm_compute.
Defined.

(** ** A fetch: the request under the retry wrapper *)

Lemma request_json_success (o : http_outcome) :
  snd (request_json o) = "SUCCESS" <-> exists p, o = GetResponds 200 (Some p).
Proof.
  split; [|by intros [p ->]].
  destruct o as [e|code body]; unfold request_json.
  - by destruct (isa_Timeout e), (isa_ConnectionError e).
  - destruct (code =? 429); [done|]. destruct (code =? 403); [done|].
    destruct (Z.eqb_spec code 200) as [->|Hne]; cbn [negb].
    + destruct body as [p|]; [|done]. intros _. by exists p.
    + intros H. exfalso. apply (http_status_not_named code). cbn [snd] in H.
      rewrite H. by left.
Qed.

Lemma request_json_failure (o : http_outcome) :
  snd (request_json o) <> "SUCCESS" -> fst (request_json o) = JNull.
Proof.
  destruct o as [e|code body]; unfold request_json.
  - by destruct (isa_Timeout e), (isa_ConnectionError e).
  - destruct (code =? 429); [done|]. destruct (code =? 403); [done|].
    destruct (code =? 200); [|done]. destruct body; [|done]. cbn. congruence.
Qed.

(** X15. A fetch of a page succeeds exactly when one of its first
    [MAX_RETRIES] GETs is answered 200 with a body that parses. It then
    returns the parsed body of the first such answer, having made no GET
    after it, and having slept once for each GET before it. Otherwise it
    has made all its GETs and returns the failure of the last one, with no
    payload. A body that parses is not looked at: an answer 200 with an
    empty object or [null] is returned as a success, without another try. *)
Theorem fetch_search_page_outcome (http : nat -> http_outcome) (r : rng) :
  (rt_status (fetch_search_page http r) = "SUCCESS" <->
     exists k p, (k < MAX_RETRIES)%nat /\ http k = GetResponds 200 (Some p)) /\
  (forall k p, (k < MAX_RETRIES)%nat -> http k = GetResponds 200 (Some p) ->
     (forall j q, (j < k)%nat -> http j <> GetResponds 200 (Some q)) ->
     rt_payload (fetch_search_page http r) = p /\
     rt_status (fetch_search_page http r) = "SUCCESS" /\
     rt_calls (fetch_search_page http r) = S k /\
     length (rt_sleeps (fetch_search_page http r)) = k) /\
  (rt_status (fetch_search_page http r) <> "SUCCESS" ->
     rt_payload (fetch_search_page http r) = JNull /\
     rt_calls (fetch_search_page http r) = MAX_RETRIES /\
     length (rt_sleeps (fetch_search_page http r)) = MAX_RETRIES /\
     rt_status (fetch_search_page http r)
       = snd (request_json (http (MAX_RETRIES - 1)%nat))).
Proof.
  unfold fetch_search_page, with_retries.
  set (fn := fun k => request_json (http k)).
  pose proof (retry_loop_spec fn r MAX_RETRIES 0 (JNull, "UNKNOWN") []) as Hspec.
  cbn zeta in Hspec. set (res := retry_loop fn r 0 MAX_RETRIES (JNull, "UNKNOWN") []) in *.
  rewrite !app_nil_l, !Nat.add_0_l in Hspec.
  assert (Hfn : forall k, snd (fn k) = "SUCCESS" <-> exists p, http k = GetResponds 200 (Some p))
    by (intros k; apply request_json_success).
  destruct Hspec as [(k & Hk & Hs & Hfirst & Hcalls & Hres & Hsl) | (Hall & Hcalls & Hres & Hsl)].
  - assert (Hstatus : rt_status res = "SUCCESS").
    { transitivity (snd (fn k)); [|done]. by rewrite <- Hres. }
    assert (Hlen : length (rt_sleeps res) = k).
    { rewrite Hsl. unfold delays. cbn [app]. rewrite length_map, length_seq. lia. }
    destruct (proj1 (Hfn k) Hs) as [p Hp].
    split_and!.
    + split; [|done]. intros _. exists k, p. split; [lia | done].
    + intros k' p' Hk' Hp' Hbefore.
      assert (k' = k) as ->.
      { destruct (Nat.lt_trichotomy k' k) as [Hlt|[->|Hgt]]; [|done|].
        - exfalso. apply (Hfirst k'); [lia|]. apply Hfn. by exists p'.
        - exfalso. by apply (Hbefore k p). }
      split_and!; try done.
      transitivity (fst (fn k)); [by rewrite <- Hres|]. subst fn. cbn beta.
      by rewrite Hp'.
    + by intros Hne.
  - assert (Hstatus : rt_status res = snd (fn 3%nat)).
    { change (rt_status res) with (snd (rt_payload res, rt_status res)). by rewrite Hres. }
    assert (Hfail : snd (fn 3%nat) <> "SUCCESS") by (apply Hall; unfold MAX_RETRIES; lia).
    split_and!.
    + split.
      * intros Hs. exfalso. apply Hfail. by rewrite <- Hstatus.
      * intros (k & p & Hk & Hp). exfalso. apply (Hall k); [lia|]. apply Hfn. by exists p.
    + intros k p Hk Hp _. exfalso. apply (Hall k); [lia|]. apply Hfn. by exists p.
    + intros _. split_and!.
      * change (rt_payload res) with (fst (rt_payload res, rt_status res)). rewrite Hres.
        by apply request_json_failure.
      * done.
      * rewrite Hsl. unfold delays. cbn [app]. by rewrite length_map, length_seq.
      * done.
Qed.

(** ** The time a fetch spends asleep *)

(** The delay after the failed attempt [i]: at least [0.8 * (1 + i)] seconds,
    at most 15, and at most [1.6 * (1 + i)] when the attempt was not
    blocked. *)
Lemma backoff_range (r : rng) (i : nat) (status : string) :
  (i < MAX_RETRIES)%nat ->
  (8 # 10 <= uniform_08_16 r i <= 16 # 10)%Q ->
  (0 <= uniform_0_5 r i <= 5)%Q ->
  ((8 # 10) * inject_Z (Z.of_nat (S i)) <= backoff_delay r i status)%Q /\
  (backoff_delay r i status <= 15)%Q /\
  (status <> "BLOCKED_403" ->
     (backoff_delay r i status <= (16 # 10) * inject_Z (Z.of_nat (S i)))%Q).
Proof.
  intros Hi Hu Hv.
  destruct (String.eqb_spec status "BLOCKED_403") as [->|Hne].
  - destruct (backoff_blocked r i Hi Hu Hv) as [_ [Hlo Hhi]].
    split_and!; [|done|done].
    unfold MAX_RETRIES in Hi.
    destruct i as [|[|[|[|?]]]]; [| | | |lia];
      unfold inject_Z;
      match goal with
      | |- context [Z.of_nat ?n] =>
          let v := eval vm_compute in (Z.of_nat n) in change (Z.of_nat n) with v
      end; lra.
  - rewrite (backoff_plain r i status Hne). unfold MAX_RETRIES, BACKOFF_BASE_S in *.
    destruct Hu as [Hu1 Hu2].
    destruct i as [|[|[|[|?]]]]; [| | | |lia];
      unfold inject_Z;
      repeat match goal with
      | |- context [Z.of_nat ?n] =>
          let v := eval vm_compute in (Z.of_nat n) in change (Z.of_nat n) with v
      end; (split_and!; [lra | lra | intros _; lra]).
Qed.

(** The sleeps of a fetch are the delays after its failed attempts. *)
Lemma with_retries_sleeps (fn : nat -> json * string) (r : rng) :
  exists n, (n <= MAX_RETRIES)%nat /\
    rt_sleeps (with_retries fn r) = delays fn r 0 n /\
    (rt_status (with_retries fn r) <> "SUCCESS" -> n = MAX_RETRIES).
Proof.
  unfold with_retries.
  destruct (retry_loop_spec fn r MAX_RETRIES 0 (JNull, "UNKNOWN") [])
    as [(k & Hk & Hs & _ & _ & Hres & Hsl) | (_ & _ & _ & Hsl)]; cbn zeta in *.
  - exists k. rewrite Nat.sub_0_r in Hsl. split_and!; [lia | done |].
    intros Hne. exfalso. apply Hne. transitivity (snd (fn k)); [|done]. by rewrite <- Hres.
  - exists MAX_RETRIES. by split_and!.
Qed.



(** ** A brand whose fetch fails *)

Section FailedFetch.
Context {RT : Runtime}.

(** What the page loop sees of a fetch none of whose GETs succeeds, and of a
    fetch whose first GET brings a falsy payload. *)
Lemma retrying_server_fails (http : nat -> string -> Z -> nat -> http_outcome)
    (draws : nat -> rng) (n : nat) (brand : string) (skip : Z) :
  (forall k p, (k < MAX_RETRIES)%nat -> http n brand skip k <> GetResponds 200 (Some p)) \/
  (exists p, http n brand skip 0%nat = GetResponds 200 (Some p) /\ truthy p = false) ->
  truthy (fst (retrying_server http draws n brand skip)) = false \/
  snd (retrying_server http draws n brand skip) <> "SUCCESS".
Proof.
  unfold retrying_server, fetch_search_page, with_retries. cbn [fst snd].
  intros [Hnone|(p & Hp & Hfalsy)].
  - right.
    destruct (retry_loop_spec (fun k => request_json (http n brand skip k)) (draws n)
                MAX_RETRIES 0 (JNull, "UNKNOWN") [])
      as [(k & Hk & Hs & _) | (Hall & _ & Hres & _)]; cbn zeta in *.
    + exfalso. apply request_json_success in Hs as [p Hp]. apply (Hnone k p); [lia | done].
    + intros Hs. apply (Hall 3%nat); [unfold MAX_RETRIES; lia|].
      cbn [MAX_RETRIES Nat.add] in Hres. by rewrite <- Hres.
  - left. cbn [MAX_RETRIES retry_loop]. rewrite Hp. by cbn.
Qed.

(** X17. A brand that is due, whose fetch fails in the eyes of the page
    loop (none of the [MAX_RETRIES] GETs of the fetch is answered 200 with
    a body that parses, or the first is answered 200 with a falsy payload
    such as an empty object) is left at once: its entry keeps the offset
    and the total it had, not done, and is saved with the SKU index; no
    row, no SKU and no other entry changes; one fetch was made; and the
    brand loop goes on with the next brand. The brand is tried again from
    that offset by a later invocation. *)
Theorem failed_fetch_keeps_offset (http : nat -> string -> Z -> nat -> http_outcome)
    (draws : nat -> rng) (run_id : string) (last : Z) (fuel : nat) (bi : Z)
    (brand : string) (w : world) :
  last < bi -> strip brand <> "" -> bs_done (brand_entry (strip brand) w) = false ->
  (forall k p, (k < MAX_RETRIES)%nat ->
     http (fetches w) (strip brand) (bs_skip (brand_entry (strip brand) w)) k
     <> GetResponds 200 (Some p)) \/
  (exists p, http (fetches w) (strip brand) (bs_skip (brand_entry (strip brand) w)) 0%nat
             = GetResponds 200 (Some p) /\ truthy p = false) ->
  exists w',
    brand_step (retrying_server http draws) run_id last (S fuel) bi brand w
      = Some (Continues w') /\
    bp w' !! norm_key (strip brand)
      = Some (brand_record (bs_skip (brand_entry (strip brand) w)) false
                (bs_total (brand_entry (strip brand) w)) (strip brand)) /\
    (forall k, k <> norm_key (strip brand) -> bp w' !! k = bp w !! k) /\
    brand_progress_json w' = bp w' /\ sku_index_json w' = si w' /\
    rows w' = rows w /\ si w' = si w /\ seen_skus w' = seen_skus w /\
    snapshot_jsonl w' = snapshot_jsonl w /\ image_tasks w' = image_tasks w /\
    fetches w' = S (fetches w).
Proof.
  intros Hdue Hne Hnd Hfail. unfold brand_step.
  destruct (Z.leb_spec bi last); [lia|].
  destruct (String.eqb_spec (strip brand) ""); [done|].
  fold (brand_entry (strip brand) w). rewrite Hnd.
  set (st := brand_entry (strip brand) w) in *.
  apply (retrying_server_fails http draws) in Hfail.
  destruct (retrying_server http draws (fetches w) (strip brand) (bs_skip st))
    as [payload status] eqn:Hsrv.
  rewrite (paginate_fetch_failed _ _ _ _ _ _ _ _ _ _ _ _ Hsrv Hfail).
  eexists. split; [done|].
  destruct (_ =? 0); cbn; rewrite lookup_insert_eq; split_and!; try done;
    intros k Hk; by rewrite lookup_insert_ne.
Qed.

End FailedFetch.

Lemma failed_fetch_keeps_offset_witness :
  exists w',
    brand_step (RT := sample_runtime) (retrying_server blocking_http (fun _ => sample_rng))
      "r" (-1) 1 0 "Acme" (start_world empty_run_doc empty_disk) = Some (Continues w') /\
    bp w' !! "acme" = Some (brand_record (RT := sample_runtime) 0 false JNull "Acme") /\
    rows w' = [] /\ fetches w' = 1%nat.
Proof.
  destruct (failed_fetch_keeps_offset (RT := sample_runtime) blocking_http
              (fun _ => sample_rng) "r" (-1) 0 0 "Acme"
              (start_world empty_run_doc empty_disk))
    as (w' & Hstep & Hbp & _ & _ & _ & Hrows & _ & _ & _ & _ & Hf).
  - lia.
  - by vm_compute.
  - by vm_compute.
  - left. intros k p _. discriminate.
  - exists w'. split; [exact Hstep|]. split; [exact Hbp|]. split; [exact Hrows | exact Hf].
Defined.

(** ** Downloads of different SKUs *)

Lemma string_of_chars_inj (a b : string) :
  list_ascii_of_string a = list_ascii_of_string b -> a = b.
Proof.
  intros H. rewrite <- (string_of_list_ascii_of_string a),
    <- (string_of_list_ascii_of_string b). by rewrite H.
Qed.

Lemma image_local_path_chars (sku : string) :
  list_ascii_of_string (image_local_path sku)
  = list_ascii_of_string "images/iga/" ++ list_ascii_of_string sku
    ++ list_ascii_of_string ".jpg".
Proof.
  unfold image_local_path, IMAGES_ROOT_DIR. by rewrite !chars_append.
Qed.

(** The paths of two SKUs are apart: a local path is the local path of one
    SKU and the temporary path of none. *)
Lemma image_paths_apart (sku sku' : string) :
  sku <> sku' ->
  image_local_path sku <> image_local_path sku' /\
  image_tmp_path sku <> image_tmp_path sku' /\
  image_local_path sku <> image_tmp_path sku' /\
  image_tmp_path sku <> image_local_path sku'.
Proof.
  intros Hne.
  assert (Hloc : image_local_path sku <> image_local_path sku').
  { intros H. apply Hne, string_of_chars_inj.
    apply (f_equal list_ascii_of_string) in H. rewrite !image_local_path_chars in H.
    by apply app_inv_head, app_inv_tail in H. }
  assert (Hlast : forall s, last (list_ascii_of_string (image_local_path s)) = Some "g"%char).
  { intros s. rewrite image_local_path_chars, !app_assoc.
    change (list_ascii_of_string ".jpg") with ([("."%char); "j"%char; "p"%char] ++ ["g"%char]).
    by rewrite app_assoc, last_snoc. }
  assert (Hlast' : forall s, last (list_ascii_of_string (image_tmp_path s)) = Some "t"%char).
  { intros s. unfold image_tmp_path. rewrite chars_append.
    change (list_ascii_of_string ".part")
      with ([("."%char); "p"%char; "a"%char; "r"%char] ++ ["t"%char]).
    by rewrite app_assoc, last_snoc. }
  split_and!; try done.
  - intros H. apply Hloc, string_of_chars_inj.
    apply (f_equal list_ascii_of_string) in H. unfold image_tmp_path in H.
    rewrite !chars_append in H. by apply app_inv_tail in H.
  - intros H. pose proof (Hlast sku) as H1. rewrite H, Hlast' in H1. discriminate.
  - intros H. pose proof (Hlast sku') as H1. rewrite <- H, Hlast' in H1. discriminate.
Qed.

Lemma io_state_eq (a b : io_state) :
  io_fs a = io_fs b -> io_calls a = io_calls b -> a = b.
Proof. destruct a, b. cbn. by intros -> ->. Qed.

(** A download touches the two paths of its SKU only. *)
Lemma download_image_frame (env : download_env) (image_url sku : string) (st : io_state)
    (p : string) :
  p <> image_local_path sku -> p <> image_tmp_path sku ->
  io_fs (snd (download_image_if_needed env image_url sku st)) !! p = io_fs st !! p.
Proof.
  intros Hl Ht. unfold download_image_if_needed.
  destruct (String.eqb image_url "" || String.eqb sku ""); [done|].
  destruct (exists_nonempty _ _); [done|]. unfold download_try.
  destruct (dl_fault env); destruct (negb (resp_code env =? 200));
    try destruct (String.eqb (written (resp_chunks env)) "");
    cbn [fst snd io_fs]; by simplify_map_eq.
Qed.

(** What a download returns and leaves at the two paths of its SKU depends
    on the files at these two paths only. *)
Lemma download_image_local (env : download_env) (image_url sku : string)
    (st1 st2 : io_state) :
  io_fs st1 !! image_local_path sku = io_fs st2 !! image_local_path sku ->
  io_fs st1 !! image_tmp_path sku = io_fs st2 !! image_tmp_path sku ->
  fst (download_image_if_needed env image_url sku st1)
    = fst (download_image_if_needed env image_url sku st2) /\
  io_fs (snd (download_image_if_needed env image_url sku st1)) !! image_local_path sku
    = io_fs (snd (download_image_if_needed env image_url sku st2)) !! image_local_path sku /\
  io_fs (snd (download_image_if_needed env image_url sku st1)) !! image_tmp_path sku
    = io_fs (snd (download_image_if_needed env image_url sku st2)) !! image_tmp_path sku /\
  (io_calls (snd (download_image_if_needed env image_url sku st1)) + io_calls st2
   = io_calls (snd (download_image_if_needed env image_url sku st2)) + io_calls st1)%nat.
Proof.
  intros Hl Ht. pose proof (image_tmp_path_fresh sku) as Hfresh.
  unfold download_image_if_needed.
  destruct (String.eqb image_url "" || String.eqb sku "");
    [cbn [fst snd]; split_and!; [done | done | done | lia]|].
  unfold exists_nonempty. rewrite Hl.
  destruct (io_fs st2 !! image_local_path sku) as [c|] eqn:Hc;
    [destruct (negb (String.eqb c ""));
       [cbn [fst snd]; split_and!; [done | by rewrite Hl, Hc | done | lia]|]|];
    unfold download_try;
    destruct (dl_fault env); destruct (negb (resp_code env =? 200));
    try destruct (String.eqb (written (resp_chunks env)) "");
    cbn [fst snd io_fs io_calls].
  all: split_and!; try done; try lia; try (by simplify_map_eq).
  all: rewrite ?lookup_delete_ne, ?lookup_insert_ne by done; by rewrite ?Hl, ?Hc.
Qed.



(** X19. An image that a download reports as written is there, not empty,
    at the local path of the SKU, and was not before the call; from then
    on a download for that SKU makes no request and changes nothing,
    whatever the URL and the server: it is written once. A call without a
    URL or without a SKU does nothing. *)
Theorem download_written_once (env : download_env) (image_url sku : string)
    (st : io_state) :
  fst (fst (fst (download_image_if_needed env image_url sku st))) = true ->
  fst (download_image_if_needed env image_url sku st)
    = (true, image_local_path sku, image_web_rel sku) /\
  exists_nonempty (io_fs st) (image_local_path sku) = false /\
  exists_nonempty (io_fs (snd (download_image_if_needed env image_url sku st)))
    (image_local_path sku) = true /\
  io_fs (snd (download_image_if_needed env image_url sku st)) !! image_tmp_path sku = None /\
  (forall env' url', url' <> "" ->
     download_image_if_needed env' url' sku (snd (download_image_if_needed env image_url sku st))
     = ((false, image_local_path sku, image_web_rel sku),
        snd (download_image_if_needed env image_url sku st))) /\
  (forall env' st', download_image_if_needed env' "" sku st' = ((false, "", ""), st') /\
                    download_image_if_needed env' image_url "" st' = ((false, "", ""), st')).
Proof.
  pose proof (image_tmp_path_fresh sku) as Hfresh.
  intros Hok.
  assert (Hlast : forall env' st',
    download_image_if_needed env' "" sku st' = ((false, "", ""), st') /\
    download_image_if_needed env' image_url "" st' = ((false, "", ""), st')).
  { intros env' st'. unfold download_image_if_needed. cbn [String.eqb orb].
    by rewrite orb_true_r. }
  assert (Heq : download_image_if_needed env image_url sku st
                = ((true, image_local_path sku, image_web_rel sku),
                   {| io_fs := <[image_local_path sku := written (resp_chunks env)]>
                                 (delete (image_tmp_path sku)
                                    (<[image_tmp_path sku := written (resp_chunks env)]>
                                       (io_fs st)));
                      io_calls := S (io_calls st) |}) /\
                exists_nonempty (io_fs st) (image_local_path sku) = false /\
                written (resp_chunks env) <> "").
  { revert Hok. unfold download_image_if_needed.
    destruct (String.eqb_spec image_url "") as [|Hurl]; [done|].
    destruct (String.eqb_spec sku "") as [|Hsku]; [done|]. cbn [orb].
    destruct (exists_nonempty (io_fs st) (image_local_path sku)) eqn:Hex; [done|].
    unfold download_try.
    destruct (dl_fault env); destruct (negb (resp_code env =? 200)); try done;
      destruct (String.eqb_spec (written (resp_chunks env)) "") as [|Hbody]; done. }
  destruct Heq as (Heq & Hex & Hbody). rewrite Heq. cbn [fst snd io_fs].
  assert (Hthere : exists_nonempty
            (<[image_local_path sku := written (resp_chunks env)]>
               (delete (image_tmp_path sku)
                  (<[image_tmp_path sku := written (resp_chunks env)]> (io_fs st))))
            (image_local_path sku) = true).
  { unfold exists_nonempty. rewrite lookup_insert_eq.
    by destruct (String.eqb_spec (written (resp_chunks env)) ""). }
  assert (Hsku : sku <> "").
  { intros ->. destruct (Hlast env st) as [_ H0]. rewrite H0 in Heq. discriminate. }
  split_and!; try done.
  - by simplify_map_eq.
  - intros env' url' Hurl'. unfold download_image_if_needed.
    destruct (String.eqb_spec url' ""); [done|].
    destruct (String.eqb_spec sku ""); [done|]. cbn [orb io_fs].
    by rewrite Hthere.
Qed.

Lemma download_written_once_witness :
  exists_nonempty
    (io_fs (snd (download_image_if_needed sample_download "https://img/8.jpg" "8" sample_io)))
    (image_local_path "8") = true.
Proof.
  apply (download_written_once sample_download "https://img/8.jpg" "8" sample_io).
  by vm_compute.
Defined.

(** ** The columns of a row *)

Lemma dict_set_fresh (k : string) (v : json) (d : list (string * json)) :
  k ∉ d.*1 -> dict_set k v d = d ++ [(k, v)].
Proof.
  induction d as [|[k' v'] r IH]; [done|]. cbn [dict_set fmap list_fmap fst].
  intros Hk. apply not_elem_of_cons in Hk as [Hne Hk].
  destruct (String.eqb_spec k k'); [done|]. by rewrite IH.
Qed.

Lemma dict_update_fresh (other : list (string * json)) :
  forall d, NoDup other.*1 -> (forall k, k ∈ other.*1 -> k ∉ d.*1) ->
  dict_update d other = d ++ other.
Proof.
  unfold dict_update. induction other as [|[k v] r IH]; intros d Hnd Hd.
  - by rewrite app_nil_r.
  - cbn [fold_left fst snd]. apply NoDup_cons in Hnd as [Hk Hnd].
    rewrite dict_set_fresh by (apply Hd; by left).
    rewrite IH; [by rewrite <- app_assoc | done |].
    intros k' Hk'. rewrite fmap_app. cbn. intros [Hin|Hin]%elem_of_app.
    + by apply (Hd k'); [right|].
    + apply list_elem_of_singleton in Hin as ->. done.
Qed.

Lemma assoc_get_app_fresh (k : string) (d other : list (string * json)) :
  k ∉ d.*1 -> assoc_get k (d ++ other) = assoc_get k other.
Proof.
  induction d as [|[k' v'] r IH]; [done|]. cbn [fmap list_fmap fst].
  intros Hk. apply not_elem_of_cons in Hk as [Hne Hk]. cbn.
  destruct (String.eqb_spec k k'); [done|]. by apply IH.
Qed.

Section RowColumnsFacts.
Context {RT : Runtime}.
Variable json_dumps : json -> string.

(** X20. The dictionary that [item_to_row] returns is the flattened item
    followed by the twenty core columns: no core column replaces a
    flattened field, since every flattened key starts with [iga] and no
    core column does, so no key occurs twice and nothing of the item is
    lost to a column of the same name. The columns [SKU],
    [PrimaryImageUrl], [ScrapedAt], [RunId] and [BrandQuery] hold what the
    deduplication and the image tasks read of the row. *)
Theorem item_to_row_columns (item : json) (brand_query run_id : string) :
  item_to_row_dict json_dumps item brand_query run_id
    = flatten_any_simple json_dumps item "iga" "." 20 0
      ++ core_columns json_dumps item brand_query run_id /\
  NoDup (item_to_row_dict json_dumps item brand_query run_id).*1 /\
  (forall k, k ∈ (core_columns json_dumps item brand_query run_id).*1 ->
     assoc_get k (item_to_row_dict json_dumps item brand_query run_id)
     = assoc_get k (core_columns json_dumps item brand_query run_id)) /\
  assoc_get "SKU" (item_to_row_dict json_dumps item brand_query run_id)
    = JStr (row_sku (item_to_row item brand_query run_id)) /\
  assoc_get "PrimaryImageUrl" (item_to_row_dict json_dumps item brand_query run_id)
    = JStr (row_primary_image_url (item_to_row item brand_query run_id)) /\
  assoc_get "ScrapedAt" (item_to_row_dict json_dumps item brand_query run_id)
    = JStr (row_scraped_at (item_to_row item brand_query run_id)) /\
  assoc_get "RunId" (item_to_row_dict json_dumps item brand_query run_id)
    = JStr (row_run_id (item_to_row item brand_query run_id)) /\
  assoc_get "BrandQuery" (item_to_row_dict json_dumps item brand_query run_id)
    = JStr (row_brand_query (item_to_row item brand_query run_id)).
Proof.
  destruct (flatten_flat json_dumps "." 20 _ item "iga" 0%nat eq_refl) as [Hnd Hflat].
  set (flat := flatten_any_simple json_dumps item "iga" "." 20 0) in *.
  set (core := core_columns json_dumps item brand_query run_id).
  assert (Hcore : NoDup core.*1).
  { subst core. cbn. repeat (apply NoDup_cons; split; [not_in_list|]). apply NoDup_nil_2. }
  assert (Hapart : forall k, k ∈ core.*1 -> k ∉ flat.*1).
  { intros k Hk Hin. apply list_elem_of_fmap in Hin as ([k' v] & -> & Hin).
    apply (proj1 (Forall_forall _ _) Hflat) in Hin as [_ [rest Hrest]].
    cbn [fst] in *. subst k'. revert Hk. subst core. cbn. clear.
    intros Hk. repeat (apply elem_of_cons in Hk as [Hk|Hk]; [discriminate Hk|]).
    by apply elem_of_nil in Hk. }
  assert (Heq : item_to_row_dict json_dumps item brand_query run_id = flat ++ core)
    by (by apply dict_update_fresh).
  assert (Hget : forall k, k ∈ core.*1 ->
            assoc_get k (item_to_row_dict json_dumps item brand_query run_id)
            = assoc_get k core).
  { intros k Hk. rewrite Heq. apply assoc_get_app_fresh. by apply Hapart. }
  split_and!; try done.
  - rewrite Heq, fmap_app. apply NoDup_app. split_and!; try done.
    intros k Hin Hk. by apply (Hapart k).
  - rewrite Hget; [done|]. subst core. cbn. in_list.
  - rewrite Hget; [done|]. subst core. cbn. in_list.
  - rewrite Hget; [done|]. subst core. cbn. in_list.
  - rewrite Hget; [done|]. subst core. cbn. in_list.
  - rewrite Hget; [done|]. subst core. cbn. in_list.
Qed.

End RowColumnsFacts.

(** ** Every due brand leaves an entry *)

Section DueBrands.
Context {RT : Runtime}.

Lemma entry_stays (k : string) (srv : server) (run_id : string) (last : Z) (fuel : nat)
    (ibrands : list (Z * string)) (w : world) (r : stepped) :
  is_Some (bp w !! k) ->
  brands_loop srv run_id last fuel ibrands w = Some r ->
  is_Some (bp (stepped_world r) !! k).
Proof.
  apply (brands_loop_stable run_id (fun w => is_Some (bp w !! k))); try done.
  - intros bkey st w' Hw'. cbn. destruct (decide (bkey = k)) as [->|Hne].
    + by rewrite lookup_insert_eq.
    + by rewrite lookup_insert_ne.
  - intros brand w' it Hw'. by rewrite bp_process_item.
Qed.

Lemma brand_step_entry (srv : server) (run_id : string) (last : Z) (fuel : nat)
    (bi : Z) (brand : string) (w w' : world) :
  last < bi -> strip brand <> "" ->
  brand_step srv run_id last fuel bi brand w = Some (Continues w') ->
  is_Some (bp w' !! norm_key (strip brand)).
Proof.
  intros Hdue Hne. unfold brand_step.
  destruct (Z.leb_spec bi last); [lia|].
  destruct (String.eqb_spec (strip brand) ""); [done|].
  destruct (bp w !! norm_key (strip brand)) as [st|] eqn:Hst; cbn [default from_option].
  - unfold id. destruct (bs_done st).
    + intros [= <-]. cbn. by rewrite Hst.
    + destruct (paginate _ _ _ _ _ _ _ _ _ _) as [[e w1|w1]|] eqn:Hp; [|done|done].
      apply (paginate_stable_at run_id (norm_key (strip brand))
               (fun w => is_Some (bp w !! norm_key (strip brand)))) in Hp;
        [ | done | by intros st' w0 _; cbn; rewrite lookup_insert_eq
          | by intros b w0 it Hw0; rewrite bp_process_item | done | by rewrite Hst ].
      intros [= <-]. cbn in Hp. by destruct (_ =? 0).
  - cbn [bs_done].
    destruct (paginate _ _ _ _ _ _ _ _ _ _) as [[e w1|w1]|] eqn:Hp; [|done|done].
    apply paginate_exit_justified in Hp as (st & _ & _ & _ & _ & Hbp & _).
    intros [= <-]. destruct (_ =? 0); cbn; by rewrite Hbp.
Qed.

Lemma brands_loop_entries (srv : server) (run_id : string) (last : Z) (fuel : nat)
    (ibrands : list (Z * string)) :
  forall w w' bi brand,
    (bi, brand) ∈ ibrands -> last < bi -> strip brand <> "" ->
    brands_loop srv run_id last fuel ibrands w = Some (Continues w') ->
    is_Some (bp w' !! norm_key (strip brand)).
Proof.
  induction ibrands as [|[bi0 b0] rest IH]; intros w w' bi brand Hin Hdue Hne;
    [by apply elem_of_nil in Hin|].
  cbn [brands_loop].
  destruct (brand_step srv run_id last fuel bi0 b0 w) as [[w1|w1]|] eqn:Hs; [|done|done].
  apply elem_of_cons in Hin as [[= -> ->]|Hin].
  - intros Hl. apply brand_step_entry in Hs; [|done|done].
    apply (entry_stays _ _ _ _ _ _ _ _ Hs Hl).
  - intros Hl. by apply (IH w1 w' bi brand).
Qed.

(** X21. In an invocation that finishes, no due brand is passed over: every
    brand of the list that is not blank and whose index is above the
    [last_brand_index] the invocation started from has an entry under its
    key in the brand progress, in memory and on disk, whether its pages
    were fetched now, its fetch failed, or it was done before. *)
Theorem due_brands_have_entries (srv : server) (fuel : nat) (brands : list string)
    (d : disk) (w : world) (i : nat) (brand : string) :
  scrape_weekly_snapshot_by_brands srv fuel brands d = Some (Finished w) ->
  brands !! i = Some brand -> strip brand <> "" ->
  default (-1)
    (rd_last_brand_index
       (fst (init_run_progress (load_or_create_run_id (disk_run_progress d))
               (Z.of_nat (length brands)) (disk_run_progress d)))) < Z.of_nat i ->
  is_Some (bp w !! norm_key (strip brand)) /\
  is_Some (brand_progress_json w !! norm_key (strip brand)).
Proof.
  unfold scrape_weekly_snapshot_by_brands.
  set (run_id := load_or_create_run_id (disk_run_progress d)).
  destruct (init_run_progress run_id _ _) as [rp run_file]. cbn [fst].
  destruct (brands_loop _ _ _ _ _ _) as [[w0|w0]|] eqn:Hl; [|done|done].
  intros [= <-] Hi Hne Hdue.
  assert (Hin : (Z.of_nat i, brand) ∈ enumerate brands).
  { unfold enumerate. apply list_elem_of_lookup. exists i.
    by rewrite list_lookup_imap, Hi. }
  pose proof (brands_loop_entries _ _ _ _ _ _ _ _ _ Hin Hdue Hne Hl) as Hentry.
  apply brands_loop_saved in Hl as [_ Hbp]; [|done].
  cbn. by rewrite Hbp.
Qed.

End DueBrands.

Lemma due_brands_have_entries_witness :
  exists w,
    scrape_weekly_snapshot_by_brands (RT := sample_runtime) sample_server 5
      ["Acme"; "Bolt"] sample_done_disk = Some (Finished w) /\
    is_Some (bp w !! "bolt") /\ is_Some (brand_progress_json w !! "bolt").
Proof.
  eexists. split; [by vm_compute|].
  apply (due_brands_have_entries (RT := sample_runtime) sample_server 5 ["Acme"; "Bolt"]
           sample_done_disk _ 1 "Bolt").
  - by vm_compute.
  - reflexivity.
  - by vm_compute.
  - by vm_compute.
Defined.
